(** * LZWTool and its Python test drivers

    The repository ships four Python drivers ([comprehensive_test.py],
    [test_lru.py], [test_all_policies.py], [verify_policies_differ.py]) around
    a Java tool, [LZWTool].  The drivers are embedded from their source.  The
    Java sources of the tool are not among these sources: the tool is
    modelled from the specification, and every definition that belongs to
    that model says so.

    Layout: Python values and effects; the codec and its command line
    (modelled); the drivers (from source); then the lemmas and theorems. *)

From Stdlib Require Import ZArith QArith Ascii String List Lia.
From Stdlib Require Import DecimalString DecimalZ DecimalPos.
From stdpp Require Import gmap strings list fin_maps.

(** ** Python values and effects used by the drivers *)

(** [int.bit_length()]: the number of bits of the absolute value, 0 for 0. *)
Definition bit_length (x : Z) : Z :=
  if (x =? 0)%Z then 0%Z else (Z.log2 (Z.abs x) + 1)%Z.

(** [str(n)] for a Python int. *)
Definition str (n : Z) : string := NilZero.string_of_int (Z.to_int n).

(** [s * n] for a string [s]. *)
Fixpoint str_mul (s : string) (n : nat) : string :=
  match n with
  | 0 => ""
  | S n' => s +:+ str_mul s n'
  end.

(** [needle in haystack] for strings. *)
Fixpoint str_contains (needle haystack : string) : bool :=
  String.prefix needle haystack ||
  match haystack with
  | EmptyString => false
  | String _ rest => str_contains needle rest
  end.

(** The exceptions that are followed through the drivers; [SystemExit] is
    the one that is no [Exception]. *)
Inductive PyExn : Type :=
| ZeroDivisionError
| IndexError
| FileNotFoundError (path : string)
| SystemExit (status : Z)
| UnicodeDecodeError.

(** The outcome of evaluating a Python expression or block. *)
Inductive Outcome (A : Type) : Type :=
| Returned (a : A)
| Raised (e : PyExn).
Arguments Returned {A} a.
Arguments Raised {A} e.

(** True division [a / b] of two ints; the float result is idealised as a
    rational. *)
Definition truediv (a b : Z) : Outcome Q :=
  if (b =? 0)%Z then Raised ZeroDivisionError
  else Returned (inject_Z a / inject_Z b)%Q.

(** *** Text

    A [str] is kept as its UTF-8 encoding, the platform being one on which
    text files are UTF-8 and lines end in LF: writing a [str] in text mode
    stores these bytes as they are, and reading in text mode decodes the
    bytes of the file and translates the line ends. *)

(** What follows a lead byte of UTF-8: the number of continuation bytes and
    the range of the first of them (the others range over 80..BF); [None]
    for a byte that starts no sequence. *)
Definition utf8_lead (c : ascii) : option (nat * (N * N)) :=
  let n := N_of_ascii c in
  if (n <? 0x80)%N then Some (0, (0, 0)%N)
  else if (n <? 0xC2)%N then None
  else if (n <? 0xE0)%N then Some (1, (0x80, 0xBF)%N)
  else if (n =? 0xE0)%N then Some (2, (0xA0, 0xBF)%N)
  else if (n =? 0xED)%N then Some (2, (0x80, 0x9F)%N)
  else if (n <? 0xF0)%N then Some (2, (0x80, 0xBF)%N)
  else if (n =? 0xF0)%N then Some (3, (0x90, 0xBF)%N)
  else if (n <? 0xF4)%N then Some (3, (0x80, 0xBF)%N)
  else if (n =? 0xF4)%N then Some (3, (0x80, 0x8F)%N)
  else None.

Definition in_range (lo hi : N) (c : ascii) : bool :=
  ((lo <=? N_of_ascii c) && (N_of_ascii c <=? hi))%N.

(** [bytes.decode('utf-8', errors)] for the error handlers 'strict'
    ([ignore] false) and 'ignore': the text decoded, that is the bytes
    without those in error, or [None] where the strict decoder raises.
    [pending] continuation bytes are awaited, the next one in [lo..hi], and
    [seq] holds the bytes of the sequence read so far.  A byte that is no
    continuation ends the sequence in error and is looked at again as a
    lead byte; so does the end of the data. *)
Fixpoint utf8_decode (ignore : bool) (pending : nat) (lo hi : N) (seq : string)
    (s : string) : option string :=
  match s with
  | EmptyString =>
      match pending with
      | 0 => Some EmptyString
      | S _ => if ignore then Some EmptyString else None
      end
  | String c rest =>
      let start :=
        match utf8_lead c with
        | Some (0, _) => String c <$> utf8_decode ignore 0 0 0 EmptyString rest
        | Some (S k, (lo', hi')) =>
            utf8_decode ignore (S k) lo' hi' (String c EmptyString) rest
        | None =>
            if ignore then utf8_decode ignore 0 0 0 EmptyString rest else None
        end in
      match pending with
      | 0 => start
      | S k =>
          if in_range lo hi c then
            match k with
            | 0 => (fun text => seq +:+ String c text)
                     <$> utf8_decode ignore 0 0 0 EmptyString rest
            | S _ => utf8_decode ignore k 0x80 0xBF (seq +:+ String c EmptyString) rest
            end
          else if ignore then start else None
      end
  end.

(** Universal newlines, as a text-mode read applies them: CR LF and a CR
    alone become LF. *)
Fixpoint universal_newlines (s : string) : string :=
  match s with
  | EmptyString => EmptyString
  | String c rest =>
      if Ascii.eqb c "013" then
        match rest with
        | String c' rest' =>
            if Ascii.eqb c' "010" then String "010" (universal_newlines rest')
            else String "010" (universal_newlines rest)
        | EmptyString => String "010" EmptyString
        end
      else String c (universal_newlines rest)
  end.

(** What a text-mode read makes of the bytes of a file; invalid UTF-8
    raises [UnicodeDecodeError]. *)
Definition decode_text (content : string) : Outcome string :=
  match utf8_decode false 0 0 0 EmptyString content with
  | Some text => Returned (universal_newlines text)
  | None => Raised UnicodeDecodeError
  end.

(** The same with [errors='ignore']: the bytes in error are dropped. *)
Definition decode_text_ignore (content : string) : string :=
  universal_newlines (default EmptyString (utf8_decode true 0 0 0 EmptyString content)).

(** What [subprocess.run] returns. *)
Record CompletedProcess : Type := {
  returncode : Z;
  stdout : string;
  stderr : string }.

(** ** The codec (modelled from the specification)

    [LZWTool.java], [TSTmod.java], [BinaryStdIn.java] and [BinaryStdOut.java]
    are compiled and run by the drivers but are not in the snapshot.  The
    definitions of this part follow the specification's sections 3 to 7. *)

(** Modelled from the spec: the policy identifier of LZWTool (section 4.4),
    a tagged union freeze | reset | lru | lfu. *)
Inductive Policy : Type := Freeze | ResetTable | Lru | Lfu.

(** Modelled from the spec: the configuration LZWTool's core receives
    (section 6): an alphabet in file order, minW, maxW and the policy. *)
Record Config : Type := {
  alphabet : list ascii;
  minW : nat;
  maxW : nat;
  policy : Policy }.

(** Modelled from the spec: the error taxonomy of LZWTool (section 7). *)
Inductive Error : Type :=
| ArgumentError (msg : string)
| AlphabetLoadError (msg : string)
| SymbolNotInAlphabet (c : ascii)
| CorruptStreamError (msg : string).

(** *** AlphabetTable (section 4.1) *)

(** Modelled from the spec: LZWTool's AlphabetTable.codeOf; the code of a
    symbol is its position in the alphabet, [None] is NotInAlphabet. *)
Fixpoint codeOf (al : list ascii) (c : ascii) : option nat :=
  match al with
  | [] => None
  | a :: rest => if Ascii.eqb a c then Some 0 else S <$> codeOf rest c
  end.

(** Modelled from the spec: LZWTool's AlphabetTable.symbolOf. *)
Definition symbolOf (al : list ascii) (k : nat) : option ascii := al !! k.

(** *** BitChannel (section 4.2) *)

(** Modelled from the spec: the BitChannel writer of LZWTool
    (BinaryStdOut); the value [v] on exactly [w] bits, most significant bit
    first. *)
Fixpoint write_bits (w v : nat) : list bool :=
  match w with
  | 0 => []
  | S w' => Nat.testbit v w' :: write_bits w' v
  end.

(** Modelled from the spec: the value of a run of bits read most
    significant bit first (BinaryStdIn). *)
Fixpoint bits_value (bs : list bool) (acc : nat) : nat :=
  match bs with
  | [] => acc
  | b :: rest => bits_value rest (2 * acc + Nat.b2n b)
  end.

(** Modelled from the spec: the BitChannel reader of LZWTool (BinaryStdIn);
    exactly [w] bits per call, [None] (EndOfStream) when fewer remain. *)
Definition read_bits (w : nat) (bs : list bool) : option (nat * list bool) :=
  if length bs <? w then None else Some (bits_value (take w bs) 0, drop w bs).

(** Modelled from the spec: one byte of the BitChannel's output, from up to
    eight bits, most significant first, a partial byte padded with zero
    bits. *)
Definition byte_of_bits (bs : list bool) : ascii :=
  match bs ++ repeat false 8 with
  | b7 :: b6 :: b5 :: b4 :: b3 :: b2 :: b1 :: b0 :: _ => Ascii b0 b1 b2 b3 b4 b5 b6 b7
  | _ => zero
  end.

(** Modelled from the spec: the eight bits of a byte the BitChannel reader
    consumes, most significant first. *)
Definition bits_of_byte (a : ascii) : list bool :=
  let 'Ascii b0 b1 b2 b3 b4 b5 b6 b7 := a in [b7; b6; b5; b4; b3; b2; b1; b0].

(** Modelled from the spec: closing the BitChannel writer; the buffered
    bits leave as bytes, the final partial byte padded with zero bits.  [n]
    bounds the number of bytes. *)
Fixpoint close_channel (n : nat) (bs : list bool) : list ascii :=
  match n with
  | 0 => []
  | S n' => match bs with
            | [] => []
            | _ => byte_of_bits (take 8 bs) :: close_channel n' (drop 8 bs)
            end
  end.

(** Modelled from the spec: the bytes the BitChannel writer produces for a
    run of bits. *)
Definition pack (bs : list bool) : list ascii := close_channel (length bs) bs.

(** Modelled from the spec: the bits the BitChannel reader sees in a run of
    bytes. *)
Definition unpack (bytes : list ascii) : list bool := flat_map bits_of_byte bytes.

(** *** Codebook (sections 3 and 4.3) *)

(** Modelled from the spec: a learned dictionary entry of LZWTool with its
    eviction metadata.  The base entries (codes below the alphabet size) are
    permanent and are read off the AlphabetTable. *)
Record Entry : Type := {
  code : nat;
  sequence : list ascii;
  lastUsedTick : nat;
  useCount : nat }.

(** Modelled from the spec: LZWTool's Codebook: the learned entries, the
    current width, the entry count (base entries and reserved markers
    included, as in the capacity) and the logical clock. *)
Record Codebook : Type := {
  entries : list Entry;
  width : nat;
  entryCount : nat;
  clock : nat }.

(** Modelled from the spec: the number of reserved marker codes of
    LZWTool: EOF, and RESET for the reset policy. *)
Definition markers (p : Policy) : nat :=
  match p with ResetTable => 2 | _ => 1 end.

(** Modelled from the spec: LZWTool's EOF marker, the first code outside
    the symbol range. *)
Definition eofCode (cfg : Config) : nat := length (alphabet cfg).

(** Modelled from the spec: LZWTool's RESET marker (reset policy only). *)
Definition resetCode (cfg : Config) : nat := S (length (alphabet cfg)).

(** Modelled from the spec: the first code a learned entry can take. *)
Definition firstCode (cfg : Config) : nat := length (alphabet cfg) + markers (policy cfg).

(** Modelled from the spec: LZWTool's Codebook capacity, [2 ^ maxW] entries
    in total. *)
Definition capacity (cfg : Config) : nat := 2 ^ maxW cfg.

(** Modelled from the spec: LZWTool's Codebook at the start of a run and
    after a reset: base entries only, width minW. *)
Definition init (cfg : Config) : Codebook :=
  {| entries := [];
     width := minW cfg;
     entryCount := firstCode cfg;
     clock := 0 |}.

(** Modelled from the spec: the code of a known sequence in LZWTool's
    Codebook (the encode-side dictionary, TSTmod): a single symbol has its
    base code, a longer sequence the code of its learned entry. *)
Definition lookupSequence (cfg : Config) (cb : Codebook) (s : list ascii) : option nat :=
  match s with
  | [] => None
  | [c] => codeOf (alphabet cfg) c
  | _ => code <$> find (fun e => bool_decide (sequence e = s)) (entries cb)
  end.

(** Modelled from the spec: LZWTool's Codebook.lookupLongestPrefix: whether
    the current match [buffer] extends by [nextSymbol] to a known sequence,
    and the code of the extension. *)
Definition lookupLongestPrefix (cfg : Config) (cb : Codebook)
    (buffer : list ascii) (nextSymbol : ascii) : option nat :=
  lookupSequence cfg cb (buffer ++ [nextSymbol]).

(** Modelled from the spec: the sequence of a code in LZWTool's Codebook
    (the decode-side code table). *)
Definition lookupCode (cfg : Config) (cb : Codebook) (k : nat) : option (list ascii) :=
  if k <? length (alphabet cfg) then (fun c => [c]) <$> symbolOf (alphabet cfg) k
  else sequence <$> find (fun e => code e =? k) (entries cb).

(** Modelled from the spec: the metadata of an entry after a use at tick
    [t]. *)
Definition used (t : nat) (e : Entry) : Entry :=
  {| code := code e; sequence := sequence e;
     lastUsedTick := t; useCount := S (useCount e) |}.

(** Modelled from the spec: LZWTool's Codebook.touch: the clock advances
    once per code and the entry of the code records the use. *)
Definition touch (cb : Codebook) (k : nat) : Codebook :=
  let t := S (clock cb) in
  {| entries := map (fun e => if code e =? k then used t e else e) (entries cb);
     width := width cb;
     entryCount := entryCount cb;
     clock := t |}.

(** Modelled from the spec: LZWTool's Codebook.growWidthIfNeeded: one more
    bit exactly when the entry count, with the entry about to be added, would
    exceed [2 ^ width - 1]; clamped at maxW. *)
Definition growWidthIfNeeded (cfg : Config) (cb : Codebook) : Codebook :=
  if (2 ^ width cb - 1 <? entryCount cb + 1) && (width cb <? maxW cfg)
  then {| entries := entries cb; width := S (width cb);
          entryCount := entryCount cb; clock := clock cb |}
  else cb.

(** *** EvictionPolicy (section 4.4) *)

(** Modelled from the spec: what LZWTool's lru and lfu policies minimise. *)
Definition metric (p : Policy) (e : Entry) : nat :=
  match p with Lru => lastUsedTick e | _ => useCount e end.

(** Modelled from the spec: the eviction order of LZWTool: smaller metric
    first, ties broken by the lowest code. *)
Definition precedes (p : Policy) (a b : Entry) : bool :=
  (metric p a <? metric p b) || ((metric p a =? metric p b) && (code a <? code b)).

(** Modelled from the spec: the victim LZWTool's lru or lfu policy evicts
    among the learned entries. *)
Fixpoint selectVictim (p : Policy) (es : list Entry) : option Entry :=
  match es with
  | [] => None
  | e :: rest =>
      match selectVictim p rest with
      | None => Some e
      | Some b => Some (if precedes p e b then e else b)
      end
  end.

(** Modelled from the spec: the next code LZWTool's Codebook is about to
    assign: the next free code below capacity; at capacity the victim's code
    under lru and lfu, none under freeze and reset. *)
Definition nextCode (cfg : Config) (cb : Codebook) : option nat :=
  if entryCount cb <? capacity cfg then Some (entryCount cb)
  else match policy cfg with
       | Freeze | ResetTable => None
       | p => code <$> selectVictim p (entries cb)
       end.

(** Modelled from the spec: adding an entry to LZWTool's Codebook at the
    next code, the victim (if one is evicted) leaving the table. *)
Definition store (cfg : Config) (cb : Codebook) (s : list ascii) : Codebook :=
  match nextCode cfg cb with
  | None => cb
  | Some k =>
      {| entries := filter (fun e => code e ≠ k) (entries cb)
                    ++ [ {| code := k; sequence := s;
                            lastUsedTick := clock cb; useCount := 0 |} ];
         width := width cb;
         entryCount := if entryCount cb <? capacity cfg
                       then S (entryCount cb) else entryCount cb;
         clock := clock cb |}
  end.

(** Modelled from the spec: saturation of LZWTool's Codebook. *)
Definition saturated (cfg : Config) (cb : Codebook) : bool :=
  capacity cfg <=? entryCount cb.

(** Modelled from the spec: whether LZWTool's policy is reset. *)
Definition is_reset (p : Policy) : bool :=
  match p with ResetTable => true | _ => false end.

(** Modelled from the spec: LZWTool's Codebook.insert on the encoder side,
    with the codewords it emits: at capacity under reset the RESET marker is
    written at the current width and the table is reinitialised; otherwise
    the sequence is stored as the policy allows. *)
Definition insertSequence (cfg : Config) (cb : Codebook) (s : list ascii)
    : Codebook * list (nat * nat) :=
  if saturated cfg cb && is_reset (policy cfg)
  then (init cfg, [(resetCode cfg, width cb)])
  else (store cfg cb s, []).

(** *** Encoder (section 4.5) *)

(** Modelled from the spec: the end of LZWTool's encoder: the code of what
    remains in the buffer, then the EOF marker, each at the width current at
    its write.  Nothing is written for an empty input. *)
Definition flush (cfg : Config) (cb : Codebook) (pending : option (list ascii * nat))
    : list (nat * nat) :=
  match pending with
  | None => []
  | Some (_, k) =>
      [(k, width cb); (eofCode cfg, width (growWidthIfNeeded cfg (touch cb k)))]
  end.

(** Modelled from the spec: LZWTool's encoder.  [pending] is the match
    buffer with its code.  Per input symbol: a symbol outside the alphabet
    aborts the run; while the buffer extended by the symbol is known it
    accumulates; otherwise the code of the buffer is written at the current
    width, the use is recorded, the extended buffer is inserted, and the
    buffer restarts at the symbol.  The result lists (codeword, width). *)
Fixpoint encode (cfg : Config) (cb : Codebook) (pending : option (list ascii * nat))
    (input : list ascii) : Error + list (nat * nat) :=
  match input with
  | [] => inr (flush cfg cb pending)
  | c :: rest =>
      match codeOf (alphabet cfg) c with
      | None => inl (SymbolNotInAlphabet c)
      | Some kc =>
          match pending with
          | None => encode cfg cb (Some ([c], kc)) rest
          | Some (buffer, k) =>
              match lookupLongestPrefix cfg cb buffer c with
              | Some k' => encode cfg cb (Some (buffer ++ [c], k')) rest
              | None =>
                  let cb1 := growWidthIfNeeded cfg (touch cb k) in
                  let '(cb2, marker) := insertSequence cfg cb1 (buffer ++ [c]) in
                  match encode cfg cb2 (Some ([c], kc)) rest with
                  | inl e => inl e
                  | inr out => inr ((k, width cb) :: marker ++ out)
                  end
              end
          end
      end
  end.

(** *** Stream header (sections 3 and 6) *)

(** Modelled from the spec: the policy tag of LZWTool's stream header. *)
Definition policy_tag (p : Policy) : nat :=
  match p with Freeze => 0 | ResetTable => 1 | Lru => 2 | Lfu => 3 end.

(** Modelled from the spec: reading the policy tag of the header. *)
Definition policy_of_tag (t : nat) : option Policy :=
  match t with
  | 0 => Some Freeze | 1 => Some ResetTable | 2 => Some Lru | 3 => Some Lfu
  | _ => None
  end.

(** Modelled from the spec: LZWTool's stream header: minW, maxW and the
    policy tag on one byte each, the alphabet size on two bytes, then the
    symbols in code order. *)
Definition header (cfg : Config) : list ascii :=
  [ascii_of_nat (minW cfg); ascii_of_nat (maxW cfg);
   ascii_of_nat (policy_tag (policy cfg));
   ascii_of_nat (length (alphabet cfg) / 256);
   ascii_of_nat (length (alphabet cfg) mod 256)] ++ alphabet cfg.

(** Modelled from the spec: the decoder of LZWTool recovering the
    configuration from the header; [None] is a malformed header. *)
Definition read_header (bytes : list ascii) : option (Config * list ascii) :=
  match bytes with
  | a :: b :: t :: hi :: lo :: rest =>
      let r := nat_of_ascii hi * 256 + nat_of_ascii lo in
      match policy_of_tag (nat_of_ascii t) with
      | Some p =>
          if length rest <? r then None
          else Some ({| alphabet := take r rest; minW := nat_of_ascii a;
                        maxW := nat_of_ascii b; policy := p |}, drop r rest)
      | None => None
      end
  | _ => None
  end.

(** Modelled from the spec: the bits of a list of (codeword, width). *)
Definition codewords_bits (ws : list (nat * nat)) : list bool :=
  flat_map (fun '(v, w) => write_bits w v) ws.

(** Modelled from the spec: LZWTool in compress mode on a validated
    configuration: the header, then the codewords padded to a byte boundary;
    an error leaves no stream. *)
Definition compress (cfg : Config) (input : list ascii) : Error + list ascii :=
  match encode cfg (init cfg) None input with
  | inl e => inl e
  | inr ws => inr (header cfg ++ pack (codewords_bits ws))
  end.

(** *** Decoder (section 4.6) *)

(** Modelled from the spec: what LZWTool's decoder does with one
    codeword. *)
Inductive Step : Type :=
| Stop
| Continue (cb : Codebook) (prev : option (list ascii)) (out : list ascii)
| Corrupt (msg : string).

(** Modelled from the spec: resolving a code in LZWTool's decoder: the code
    about to be assigned stands for the previous sequence followed by its own
    first symbol; any other code is looked up. *)
Definition resolve (cfg : Config) (cb : Codebook) (prev : option (list ascii)) (k : nat)
    : option (list ascii) :=
  match prev with
  | Some p =>
      if bool_decide (nextCode cfg cb = Some k) then Some (p ++ take 1 p)
      else lookupCode cfg cb k
  | None => lookupCode cfg cb k
  end.

(** Modelled from the spec: one step of LZWTool's decoder: EOF stops, RESET
    reinitialises the table and the width, any other code is resolved and
    emitted, the entry "previous sequence + first symbol of the current one"
    is inserted, and the use of the code is recorded as on the encoder
    side. *)
Definition decode_codeword (cfg : Config) (cb : Codebook) (prev : option (list ascii))
    (k : nat) : Step :=
  if k =? eofCode cfg then Stop
  else if is_reset (policy cfg) && (k =? resetCode cfg) then Continue (init cfg) None []
  else match resolve cfg cb prev k with
       | None => Corrupt "code out of range"
       | Some s =>
           let cb1 := match prev with
                      | Some p => store cfg cb (p ++ take 1 s)
                      | None => cb
                      end in
           Continue (growWidthIfNeeded cfg (touch cb1 k)) (Some s) s
       end.

(** Modelled from the spec: the loop of LZWTool's decoder over the bits
    that follow the header; each iteration reads one codeword of the current
    width.  [fuel] bounds the number of codewords. *)
Fixpoint decode (cfg : Config) (fuel : nat) (cb : Codebook) (prev : option (list ascii))
    (bits : list bool) : Error + list ascii :=
  match fuel with
  | 0 => inl (CorruptStreamError "unexpected end of bits")
  | S fuel' =>
      match read_bits (width cb) bits with
      | None => inl (CorruptStreamError "unexpected end of bits")
      | Some (k, rest) =>
          match decode_codeword cfg cb prev k with
          | Stop => inr []
          | Corrupt msg => inl (CorruptStreamError msg)
          | Continue cb' prev' out =>
              match decode cfg fuel' cb' prev' rest with
              | inl e => inl e
              | inr tail => inr (out ++ tail)
              end
          end
      end
  end.

(** Modelled from the spec: LZWTool in expand mode: every parameter comes
    from the header; a header-only stream expands to the empty output. *)
Definition expand (bytes : list ascii) : Error + list ascii :=
  match read_header bytes with
  | None => inl (CorruptStreamError "malformed header")
  | Some (cfg, body) =>
      match body with
      | [] => inr []
      | _ => decode cfg (8 * length body) (init cfg) None (unpack body)
      end
  end.

(** *** Invariants of the model, used by the proofs *)

(** A codebook the encoder or the decoder can reach: the stored codes are
    distinct and lie between the first free code and the entry count, the
    entry count is within the capacity and fits the current width, and the
    width is within the configured bounds. *)
Record WellFormed (cfg : Config) (cb : Codebook) : Prop := {
  wf_codes : Forall (fun e => firstCode cfg <= code e < entryCount cb) (entries cb);
  wf_nodup : NoDup (map code (entries cb));
  wf_count : firstCode cfg <= entryCount cb <= capacity cfg;
  wf_fits : entryCount cb <= 2 ^ width cb;
  wf_width : minW cfg <= width cb <= maxW cfg }.

(** While the codebook is not full, the next code to assign fits the
    current width. *)
Definition Room (cfg : Config) (cb : Codebook) : Prop :=
  entryCount cb < capacity cfg -> S (entryCount cb) <= 2 ^ width cb.

(** Widths the codec can work with: the initial codebook (alphabet and
    markers) fits the minimum width. *)
Definition ValidWidths (cfg : Config) : Prop :=
  1 <= minW cfg <= maxW cfg /\ firstCode cfg <= 2 ^ minW cfg.

(** The symbols the encoder has matched and not yet emitted. *)
Definition buffer_of (pending : option (list ascii * nat)) : list ascii :=
  match pending with Some (b, _) => b | None => [] end.

(** The decoder runs one insertion behind the encoder: either both are at
    the start, or the encoder has just emitted and the decoder's codebook
    becomes the encoder's once the decoder stores its previous sequence
    followed by the first symbol of the encoder's buffer. *)
Inductive InStep (cfg : Config) (cbe : Codebook)
  : option (list ascii * nat) -> Codebook -> option (list ascii) -> Prop :=
| in_start : InStep cfg cbe None cbe None
| in_fresh (buf : list ascii) (k : nat) :
    lookupSequence cfg cbe buf = Some k ->
    InStep cfg cbe (Some (buf, k)) cbe None
| in_behind (buf : list ascii) (k : nat) (cbd : Codebook) (p : list ascii) :
    p <> [] ->
    lookupSequence cfg cbe buf = Some k ->
    cbe = store cfg cbd (p ++ take 1 buf) ->
    WellFormed cfg cbd ->
    InStep cfg cbe (Some (buf, k)) cbd (Some p).

(** A configuration the five-byte header can carry. *)
Definition ValidConfig (cfg : Config) : Prop :=
  ValidWidths cfg /\ maxW cfg < 256 /\ length (alphabet cfg) < 256 * 256.
(** ** The command line of LZWTool (modelled from the specification)

    Sections 6 and 7 of the specification give the interface; the texts of
    two diagnostics are those the drivers look for on stderr. *)

(** Modelled from the spec: the options LZWTool's argument parser
    collects. *)
Record Options : Type := {
  opt_mode : option string;
  opt_minW : option string;
  opt_maxW : option string;
  opt_policy : option string;
  opt_alphabet : option string }.

(** Modelled from the spec: LZWTool's options before any argument is
    read. *)
Definition no_options : Options :=
  {| opt_mode := None; opt_minW := None; opt_maxW := None;
     opt_policy := None; opt_alphabet := None |}.

(** Modelled from the spec: recording one flag of LZWTool's command line;
    an unknown flag is an ArgumentError whose text the drivers look for. *)
Definition set_option (flag value : string) (o : Options) : Error + Options :=
  if String.eqb flag "--mode" then
    inr {| opt_mode := Some value; opt_minW := opt_minW o; opt_maxW := opt_maxW o;
           opt_policy := opt_policy o; opt_alphabet := opt_alphabet o |}
  else if String.eqb flag "--minW" then
    inr {| opt_mode := opt_mode o; opt_minW := Some value; opt_maxW := opt_maxW o;
           opt_policy := opt_policy o; opt_alphabet := opt_alphabet o |}
  else if String.eqb flag "--maxW" then
    inr {| opt_mode := opt_mode o; opt_minW := opt_minW o; opt_maxW := Some value;
           opt_policy := opt_policy o; opt_alphabet := opt_alphabet o |}
  else if String.eqb flag "--policy" then
    inr {| opt_mode := opt_mode o; opt_minW := opt_minW o; opt_maxW := opt_maxW o;
           opt_policy := Some value; opt_alphabet := opt_alphabet o |}
  else if String.eqb flag "--alphabet" then
    inr {| opt_mode := opt_mode o; opt_minW := opt_minW o; opt_maxW := opt_maxW o;
           opt_policy := opt_policy o; opt_alphabet := Some value |}
  else inl (ArgumentError ("Unknown argument: " +:+ flag)).

(** Modelled from the spec: LZWTool's argument parser: flags come in
    "--flag value" pairs. *)
Fixpoint parse_args (args : list string) (o : Options) : Error + Options :=
  match args with
  | [] => inr o
  | flag :: more =>
      match more with
      | [] =>
          match set_option flag "" o with
          | inl e => inl e
          | inr _ => inl (ArgumentError ("Missing value for " +:+ flag))
          end
      | value :: rest =>
          match set_option flag value o with
          | inl e => inl e
          | inr o' => parse_args rest o'
          end
      end
  end.

(** Modelled from the spec: reading a decimal width on LZWTool's command
    line. *)
Definition parse_int (s : string) : option Z :=
  Z.of_int <$> NilZero.int_of_string s.

(** Modelled from the spec: reading the policy on LZWTool's command line.
    The drivers call compress without "--policy" and expect success, so the
    flag is optional; the default is taken to be freeze. *)
Definition parse_policy (o : option string) : Error + Policy :=
  match o with
  | None => inr Freeze
  | Some s =>
      if String.eqb s "freeze" then inr Freeze
      else if String.eqb s "reset" then inr ResetTable
      else if String.eqb s "lru" then inr Lru
      else if String.eqb s "lfu" then inr Lfu
      else inl (ArgumentError ("Invalid policy: " +:+ s))
  end.

(** Modelled from the spec: the widths of a compress run of LZWTool:
    both given, decimal, and [2 <= minW <= maxW]. *)
Definition parse_widths (o : Options) : Error + (nat * nat) :=
  match opt_minW o, opt_maxW o with
  | Some a, Some b =>
      match parse_int a, parse_int b with
      | Some lo, Some hi =>
          if (2 <=? lo)%Z && (lo <=? hi)%Z then inr (Z.to_nat lo, Z.to_nat hi)
          else inl (ArgumentError "minW and maxW must satisfy 2 <= minW <= maxW")
      | _, _ => inl (ArgumentError "minW and maxW must be integers")
      end
  | _, _ => inl (ArgumentError "Missing required argument: --minW or --maxW")
  end.

(** Modelled from the spec: the lines of LZWTool's alphabet file, one
    symbol per line; [None] when a line is empty or holds more than one
    symbol. *)
Fixpoint alphabet_lines (cs : list ascii) : option (list ascii) :=
  match cs with
  | [] => Some []
  | c :: rest =>
      if Ascii.eqb c "010" then None
      else match rest with
           | [] => Some [c]
           | n :: rest' =>
               if Ascii.eqb n "010" then cons c <$> alphabet_lines rest' else None
           end
  end.

(** Modelled from the spec: loading LZWTool's alphabet: file order gives
    the codes; an empty file or a duplicate symbol is a load error. *)
Definition load_alphabet (content : string) : Error + list ascii :=
  match alphabet_lines (list_ascii_of_string content) with
  | None => inl (AlphabetLoadError "one symbol per line expected")
  | Some [] => inl (AlphabetLoadError "the alphabet is empty")
  | Some al =>
      if bool_decide (NoDup al) then inr al
      else inl (AlphabetLoadError "duplicate symbol in the alphabet")
  end.

(** Modelled from the spec: the diagnostic LZWTool prints on the error
    channel.  The drivers look for "Unknown argument" and "not in the
    alphabet". *)
Definition diagnostic (e : Error) : string :=
  match e with
  | ArgumentError msg => "Error: " +:+ msg
  | AlphabetLoadError msg => "Error: " +:+ msg
  | SymbolNotInAlphabet c =>
      "Error: character '" +:+ String c "' is not in the alphabet"
  | CorruptStreamError msg => "Error: " +:+ msg
  end.

(** Modelled from the spec: a run of LZWTool after its arguments were
    parsed: argument errors first, then the alphabet is loaded, then the
    stream is processed. *)
Definition run_mode (o : Options) (stdin_data : string) (fs : gmap string string)
    : Error + string :=
  match opt_mode o with
  | None => inl (ArgumentError "Missing required argument: --mode")
  | Some m =>
      if String.eqb m "compress" then
        match parse_widths o, parse_policy (opt_policy o), opt_alphabet o with
        | inl e, _, _ => inl e
        | _, inl e, _ => inl e
        | _, _, None => inl (ArgumentError "Missing required argument: --alphabet")
        | inr (lo, hi), inr p, Some path =>
            match fs !! path with
            | None => inl (AlphabetLoadError ("cannot read " +:+ path))
            | Some content =>
                match load_alphabet content with
                | inl e => inl e
                | inr al =>
                    match compress {| alphabet := al; minW := lo; maxW := hi; policy := p |}
                                   (list_ascii_of_string stdin_data) with
                    | inl e => inl e
                    | inr bytes => inr (string_of_list_ascii bytes)
                    end
                end
            end
        end
      else if String.eqb m "expand" then
        match expand (list_ascii_of_string stdin_data) with
        | inl e => inl e
        | inr symbols => inr (string_of_list_ascii symbols)
        end
      else inl (ArgumentError ("Invalid mode: " +:+ m))
  end.

(** Modelled from the spec: the process "java LZWTool args": exit code 0
    with the transformed stream on stdout, or a nonzero exit code with a
    diagnostic on stderr and no stream. *)
Definition LZWTool (args : list string) (stdin_data : string) (fs : gmap string string)
    : CompletedProcess :=
  match parse_args args no_options with
  | inl e => {| returncode := 1; stdout := ""; stderr := diagnostic e |}
  | inr o =>
      match run_mode o stdin_data fs with
      | inl e => {| returncode := 1; stdout := ""; stderr := diagnostic e |}
      | inr out => {| returncode := 0; stdout := out; stderr := "" |}
      end
  end.

(** ** The drivers' environment *)

(** What the drivers take from outside the repository: Python's module-level
    random generator ([random.seed], and the draw below [n] behind
    [random.choice]), the operating system running a command line with a
    standard input against the files on disk ([subprocess.run]), the name
    [tempfile.NamedTemporaryFile] picks for a suffix, and the drivers' own
    standard input (inherited by a child that is given none). *)
Record Env : Type := {
  Rng : Type;
  random_seed : Z -> Rng;
  randbelow : nat -> Rng -> nat * Rng;
  spawn : list string -> string -> gmap string string -> Outcome CompletedProcess;
  mktemp : string -> gmap string string -> string;
  sys_stdin : string }.

(** The levels of the drivers' coloured log lines; [PLAIN] is a bare
    [print]. *)
Inductive Level : Type := TEST | PASS | FAIL | WARN | PLAIN.

(** The state a driver runs in: the files on disk, the lines printed so far,
    the state of the random generator, and the sequences generated so far.
    The last field is instrumentation: only the sequence generators write it
    and no driver reads it. *)
Record World (env : Env) : Type := {
  files : gmap string string;
  console : list (Level * string);
  rng : Rng env;
  generated : list (list (string * string)) }.
Arguments files {env} w.
Arguments console {env} w.
Arguments rng {env} w.
Arguments generated {env} w.

(** A Python block: from a state to an outcome and a state. *)
Definition Py (env : Env) (A : Type) : Type := World env -> Outcome A * World env.

Definition ret {env : Env} {A : Type} (a : A) : Py env A :=
  fun w => (Returned a, w).

Definition raise {env : Env} {A : Type} (e : PyExn) : Py env A :=
  fun w => (Raised e, w).

Definition bind {env : Env} {A B : Type} (m : Py env A) (k : A -> Py env B) : Py env B :=
  fun w => match m w with
           | (Returned a, w') => k a w'
           | (Raised e, w') => (Raised e, w')
           end.

Notation "x <- m ;; k" := (bind m (fun x => k))
  (at level 100, m at next level, right associativity).
Notation "m ;;; k" := (bind m (fun _ => k))
  (at level 100, right associativity).

(** An expression that may raise, inside a block. *)
Definition lift {env : Env} {A : Type} (o : Outcome A) : Py env A :=
  fun w => (o, w).

(** [try: body finally: handler]: the handler always runs; the outcome is
    the body's unless the handler raises. *)
Definition try_finally {env : Env} {A : Type} (body : Py env A) (handler : Py env unit)
    : Py env A :=
  fun w => let '(r, w1) := body w in
           match handler w1 with
           | (Returned _, w2) => (r, w2)
           | (Raised e, w2) => (Raised e, w2)
           end.

(** [try: body except Exception as e: handler(e)]; [SystemExit] is no
    [Exception]. *)
Definition try_except {env : Env} {A : Type} (body : Py env A) (handler : PyExn -> Py env A)
    : Py env A :=
  fun w => match body w with
           | (Raised (SystemExit s), w1) => (Raised (SystemExit s), w1)
           | (Raised e, w1) => handler e w1
           | (Returned a, w1) => (Returned a, w1)
           end.

(** [print] and the four log helpers of comprehensive_test.py. *)
Definition log {env : Env} (lvl : Level) (msg : string) : Py env unit :=
  fun w => (Returned tt,
            {| files := files w; console := console w ++ [(lvl, msg)];
               rng := rng w; generated := generated w |}).

Definition log_test {env : Env} (msg : string) : Py env unit := log TEST msg.
Definition log_pass {env : Env} (msg : string) : Py env unit := log PASS msg.
Definition log_fail {env : Env} (msg : string) : Py env unit := log FAIL msg.
Definition log_warn {env : Env} (msg : string) : Py env unit := log WARN msg.
Definition print {env : Env} (msg : string) : Py env unit := log PLAIN msg.

(** [with open(path, 'w') as f: f.write(content)]; also what a child
    process leaves in the file its stdout was redirected to. *)
Definition write_file {env : Env} (path content : string) : Py env unit :=
  fun w => (Returned tt,
            {| files := <[path := content]> (files w); console := console w;
               rng := rng w; generated := generated w |}).

(** The bytes of the file at [path]: [open(path, 'rb').read()], and what a
    child process reads from a file opened as its standard input. *)
Definition read_file {env : Env} (path : string) : Py env string :=
  fun w => match files w !! path with
           | Some content => (Returned content, w)
           | None => (Raised (FileNotFoundError path), w)
           end.

(** [with open(path, 'r') as f: f.read()]: the text of the file. *)
Definition read_text {env : Env} (path : string) : Py env string :=
  content <- read_file path ;; lift (decode_text content).

(** [with open(path, 'r', errors='ignore') as f: f.read()]. *)
Definition read_text_ignore {env : Env} (path : string) : Py env string :=
  content <- read_file path ;; ret (decode_text_ignore content).

(** [os.path.exists(path)]. *)
Definition path_exists {env : Env} (path : string) : Py env bool :=
  fun w => (Returned (bool_decide (is_Some (files w !! path))), w).

(** [os.remove(path)] on a disk of plain files that may be removed: it
    fails only where there is no file. *)
Definition os_remove {env : Env} (path : string) : Py env unit :=
  fun w => match files w !! path with
           | Some _ => (Returned tt,
                        {| files := delete path (files w); console := console w;
                           rng := rng w; generated := generated w |})
           | None => (Raised (FileNotFoundError path), w)
           end.

(** [os.path.getsize(path)]. *)
Definition getsize {env : Env} (path : string) : Py env Z :=
  content <- read_file path ;; ret (Z.of_nat (String.length content)).

(** [len(s)] for a string. *)
Definition len (s : string) : Z := Z.of_nat (String.length s).

(** [tempfile.NamedTemporaryFile(mode='w', delete=False, suffix=...)] with
    the content written: the file stays on disk under the name picked. *)
Definition named_temporary_file {env : Env} (suffix content : string) : Py env string :=
  fun w => let name := mktemp env suffix (files w) in
           (Returned name,
            {| files := <[name := content]> (files w); console := console w;
               rng := rng w; generated := generated w |}).

(** [subprocess.run(argv, ...)] with the given standard input; the child
    sees the files on disk.  The disk is followed where the drivers write,
    remove and redirect; what a child leaves there on its own account, as
    javac its class files, is not. *)
Definition subprocess_run {env : Env} (argv : list string) (stdin_data : string)
    : Py env CompletedProcess :=
  fun w => (spawn env argv stdin_data (files w), w).

(** [with open(infile, 'r') as i, open(outfile, 'wb') as o:
       subprocess.run(argv, stdin=i, stdout=o, stderr=subprocess.PIPE)]:
    the output file is created empty, then holds the child's stdout. *)
Definition run_redirected {env : Env} (argv : list string) (infile outfile : string)
    : Py env CompletedProcess :=
  data <- read_file infile ;;
  write_file outfile "" ;;;
  result <- subprocess_run argv data ;;
  write_file outfile (stdout result) ;;;
  ret result.

(** [random.seed(a)]. *)
Definition seed {env : Env} (a : Z) : Py env unit :=
  fun w => (Returned tt,
            {| files := files w; console := console w;
               rng := random_seed env a; generated := generated w |}).

(** [random.choice(seq)]. *)
Definition choice {env : Env} {A : Type} (seq : list A) : Py env A :=
  fun w => let '(i, r) := randbelow env (length seq) (rng w) in
           match seq !! i with
           | Some x => (Returned x,
                        {| files := files w; console := console w;
                           rng := r; generated := generated w |})
           | None => (Raised IndexError, w)
           end.

(** ["".join(random.choice(chars) for _ in range(n))]. *)
Fixpoint random_string {env : Env} (chars : list string) (n : nat) : Py env string :=
  match n with
  | 0 => ret ""
  | S n' => c <- choice chars ;; rest <- random_string chars n' ;; ret (c +:+ rest)
  end.

(** Instrumentation: the sequences a generator returns are recorded. *)
Definition record_generated {env : Env} (seqs : list (string * string)) : Py env unit :=
  fun w => (Returned tt,
            {| files := files w; console := console w;
               rng := rng w; generated := generated w ++ [seqs] |}).

(** The cleanup loop of the round-trip drivers:
    [for f in paths: if os.path.exists(f): os.remove(f)]. *)
Fixpoint cleanup {env : Env} (paths : list string) : Py env unit :=
  match paths with
  | [] => ret tt
  | f :: rest =>
      present <- path_exists f ;;
      (if present then os_remove f else ret tt) ;;;
      cleanup rest
  end.

(** ** comprehensive_test.py

    Format specifications of f-strings (padding, float digits) are not
    modelled: an int field is printed by [str], a float field is left out of
    the text, and the colour codes of the log helpers are the [Level]. *)

(** A line feed, for the "\n" of the source's messages. *)
Definition nl : string := String "010" "".

(** [s.upper()] on ASCII letters. *)
Fixpoint upper (s : string) : string :=
  match s with
  | EmptyString => EmptyString
  | String c rest =>
      let n := nat_of_ascii c in
      String (if (97 <=? n) && (n <=? 122) then ascii_of_nat (n - 32) else c) (upper rest)
  end.

Definition compile_java {env : Env} : Py env unit :=
  log_test "Compiling Java files..." ;;;
  result <- subprocess_run
              ["javac"; "LZWTool.java"; "BinaryStdIn.java"; "BinaryStdOut.java"; "TSTmod.java"]
              (sys_stdin env) ;;
  if negb (returncode result =? 0)%Z then
    log_fail ("Compilation failed: " +:+ stderr result) ;;;
    raise (SystemExit 1)
  else log_pass "Compilation successful".

(** Returns [None] (the source falls off with a bare [return]) when the
    JPG is missing. *)
Definition test_alphabet_validation {env : Env} : Py env (option bool) :=
  log_test "Testing alphabet validation (JPG with ab.txt - should FAIL)" ;;;
  let jpg_file := "TestFiles/frosty.jpg" in
  present <- path_exists jpg_file ;;
  if negb present then
    log_warn ("JPG file " +:+ jpg_file +:+ " not found, skipping") ;;;
    ret None
  else
    let cmd := ["java"; "LZWTool"; "--mode"; "compress"; "--minW"; "3"; "--maxW"; "4";
                "--policy"; "freeze"; "--alphabet"; "alphabets/ab.txt"] in
    data <- read_file jpg_file ;;
    result <- subprocess_run cmd data ;;
    if negb (returncode result =? 0)%Z && str_contains "not in the alphabet" (stderr result)
    then
      log_pass ("Correctly rejected invalid input: " +:+ stderr result) ;;;
      ret (Some true)
    else
      log_fail ("Should have rejected JPG with ab.txt alphabet. Return code: "
                +:+ str (returncode result)) ;;;
      (if negb (String.eqb (stderr result) "")
       then print ("  stderr: " +:+ stderr result) else ret tt) ;;;
      ret (Some false).

(** [chars[i]] under a guard on [len(chars)] that makes the index valid. *)
Definition item (chars : list string) (i : nat) : string := default "" (chars !! i).

(** ["".join(parts)]. *)
Definition join (parts : list string) : string := fold_right append "" parts.

Definition generate_test_sequences {env : Env} (alphabet : list string)
    : Py env (list (string * string)) :=
  let chars := alphabet in
  let n := length chars in
  match chars !! 0, last chars with
  | Some c0, Some clast =>
      let c1 := item chars 1 in
      let c2 := item chars 2 in
      let seqs := [("empty", ""); ("single_first", c0); ("single_last", clast)] in
      let seqs :=
        if 2 <=? n then
          seqs ++
          [("alternating_first_last", str_mul (c0 +:+ clast) 50);
           ("repeating_pattern", str_mul (str_mul c0 3 +:+ str_mul c1 3) 10);
           ("alternating_ab", str_mul (c0 +:+ c1) 100);
           ("edge_case",
            str_mul c1 5 +:+ c0 +:+ str_mul c1 2 +:+ str_mul c0 3 +:+ str_mul c1 3
            +:+ c0 +:+ str_mul c1 2 +:+ str_mul c0 3 +:+ str_mul c1 3);
           ("aaaaabbbbbb", str_mul c0 5 +:+ str_mul c1 6)]
        else seqs in
      let seqs := seqs ++ [("all_first", str_mul c0 50); ("all_last", str_mul clast 50)] in
      random_short <- random_string chars 20 ;;
      random_medium <- random_string chars 100 ;;
      random_long <- random_string chars 500 ;;
      random_very_long <- random_string chars (100 * 100) ;;
      let seqs :=
        seqs ++ [("random_short", random_short); ("random_medium", random_medium);
                 ("random_long", random_long); ("random_very_long", random_very_long);
                 ("long_run_first_63", str_mul c0 63);
                 ("long_run_last_64", str_mul clast 64)] in
      let seqs :=
        if 2 <=? n then
          seqs ++
          [("alternating_3_3", str_mul (str_mul c0 3 +:+ str_mul c1 3) 20);
           ("pattern_cross_boundary", str_mul c0 7 +:+ str_mul clast 9 +:+ str_mul c0 15);
           ("sequence_edge_case",
            str_mul c0 3 +:+ str_mul c1 3 +:+ str_mul c0 4 +:+ str_mul c1 5)]
        else seqs in
      let seqs :=
        if 3 <=? n then
          seqs ++
          [("pattern_complex",
            str_mul (str_mul c0 4 +:+ str_mul c1 3 +:+ str_mul c2 2) 15);
           ("incremental_sequence",
            join (map (fun i => item chars (i mod n)) (seq 0 50)))]
        else seqs in
      record_generated seqs ;;;
      ret seqs
  | _, _ => raise IndexError
  end.

Definition pick_bitwidths (alphabet_size : Z) : Z * Z :=
  let minW := Z.max 2 (bit_length (alphabet_size - 1)) in
  let maxW := (minW + 2)%Z in
  (minW, maxW).

(** The ratio expression of [compress_expand_test]:
    [compressed_size / max(original_size, 1) if original_size > 0 else 0]. *)
Definition ratio_compress_expand_test (compressed_size original_size : Z) : Outcome Q :=
  if (0 <? original_size)%Z then truediv compressed_size (Z.max original_size 1)
  else Returned 0%Q.

Definition compress_expand_test {env : Env} (input_data alphabet_path : string)
    (minW maxW : Z) (policy test_name : string) : Py env (bool * option Q) :=
  input_file <- named_temporary_file ".txt" input_data ;;
  let compressed_file := input_file +:+ ".lzw" in
  let decompressed_file := input_file +:+ ".out" in
  try_finally
    (result <- run_redirected
                 ["java"; "LZWTool"; "--mode"; "compress"; "--minW"; str minW;
                  "--maxW"; str maxW; "--policy"; policy; "--alphabet"; alphabet_path]
                 input_file compressed_file ;;
     if negb (returncode result =? 0)%Z then
       log_fail (test_name +:+ " - Compression failed: " +:+ stderr result) ;;;
       ret (false, None)
     else
       result <- run_redirected ["java"; "LZWTool"; "--mode"; "expand"]
                   compressed_file decompressed_file ;;
       if negb (returncode result =? 0)%Z then
         log_fail (test_name +:+ " - Decompression failed: " +:+ stderr result) ;;;
         ret (false, None)
       else
         output_data <- read_text decompressed_file ;;
         if String.eqb input_data output_data then
           compressed_size <- getsize compressed_file ;;
           let original_size := len input_data in
           ratio <- lift (ratio_compress_expand_test compressed_size original_size) ;;
           ret (true, Some ratio)
         else
           log_fail (test_name +:+ " - Output doesn't match input!") ;;;
           log_fail ("  Input length: " +:+ str (len input_data)
                     +:+ ", Output length: " +:+ str (len output_data)) ;;;
           ret (false, None))
    (cleanup [input_file; compressed_file; decompressed_file]).

(** One element of [policy_results]: [{'name', 'size', 'ratio'}]. *)
Record SeqResult : Type := {
  r_name : string;
  r_size : Z;
  r_ratio : option Q }.

(** The inner loop of [test_alphabet_suite] over [sequences.items()];
    [None] is the early [return False]. *)
Fixpoint suite_sequences {env : Env} (alphabet_name alphabet_file : string)
    (minW maxW : Z) (policy : string) (sequences : list (string * string))
    (policy_results : list SeqResult) : Py env (option (list SeqResult)) :=
  match sequences with
  | [] => ret (Some policy_results)
  | (seq_name, seq_data) :: rest =>
      if String.eqb seq_data "" then
        suite_sequences alphabet_name alphabet_file minW maxW policy rest policy_results
      else
        let test_name := alphabet_name +:+ "/" +:+ policy +:+ "/" +:+ seq_name in
        r <- compress_expand_test seq_data alphabet_file minW maxW policy test_name ;;
        let '(success, ratio) := r in
        if success then
          let policy_results :=
            policy_results ++
            [{| r_name := seq_name; r_size := len seq_data; r_ratio := ratio |}] in
          log_pass ("  " +:+ seq_name +:+ " - Size: " +:+ str (len seq_data) +:+ ", Ratio:") ;;;
          suite_sequences alphabet_name alphabet_file minW maxW policy rest policy_results
        else
          log_fail ("  " +:+ seq_name +:+ " - FAILED") ;;;
          ret None
  end.

(** The outer loop of [test_alphabet_suite] over [policies]; [results] is
    the dict by policy. *)
Fixpoint suite_policies {env : Env} (alphabet_name alphabet_file : string)
    (minW maxW : Z) (sequences : list (string * string)) (policies : list string)
    (results : list (string * list SeqResult))
    : Py env (option (list (string * list SeqResult))) :=
  match policies with
  | [] => ret (Some results)
  | policy :: rest =>
      log_test (nl +:+ "Testing policy: " +:+ upper policy) ;;;
      r <- suite_sequences alphabet_name alphabet_file minW maxW policy sequences [] ;;
      match r with
      | None => ret None
      | Some policy_results =>
          suite_policies alphabet_name alphabet_file minW maxW sequences rest
            (results ++ [(policy, policy_results)])
      end
  end.

(** [results[p]]. *)
Definition results_of (results : list (string * list SeqResult)) (p : string)
    : list SeqResult :=
  default [] (snd <$> find (fun e => String.eqb (fst e) p) results).

(** [next((r['ratio'] for r in results[p] if r['name'] == seq_name), None)]. *)
Definition ratio_of (results : list (string * list SeqResult)) (p seq_name : string)
    : option Q :=
  match find (fun r => String.eqb (r_name r) seq_name) (results_of results p) with
  | Some r => r_ratio r
  | None => None
  end.

(** Truth value of a ratio: [None] and zero are false. *)
Definition truthy (r : option Q) : bool :=
  match r with
  | Some q => negb (Qeq_bool q 0)
  | None => false
  end.

(** [a != b] for two ratios. *)
Definition ratio_ne (a b : option Q) : bool :=
  match a, b with
  | Some x, Some y => negb (Qeq_bool x y)
  | None, None => false
  | _, _ => true
  end.

(** The "Verifying LRU/LFU differ" block of [test_alphabet_suite] for one
    sequence name. *)
Definition check_lru_lfu_differ {env : Env} (results : list (string * list SeqResult))
    (seq_name : string) : Py env unit :=
  let ratios := fun p => ratio_of results p seq_name in
  if truthy (ratios "lru") && truthy (ratios "lfu") then
    if ratio_ne (ratios "lru") (ratios "lfu") then
      log_pass ("  " +:+ seq_name +:+ ": LRU ratio, LFU ratio (DIFFERENT)")
    else
      log_warn ("  " +:+ seq_name +:+ ": LRU and LFU have same ratio (might be coincidence)")
  else ret tt.

Definition test_alphabet_suite {env : Env} (alphabet_name : string)
    (alphabet_chars : list string) (alphabet_file : string) : Py env bool :=
  log_test (nl +:+ str_mul "=" 60) ;;;
  log_test ("Testing alphabet: " +:+ alphabet_name +:+ " ("
            +:+ str (Z.of_nat (length alphabet_chars)) +:+ " chars)") ;;;
  log_test (str_mul "=" 60) ;;;
  let '(minW, maxW) := pick_bitwidths (Z.of_nat (length alphabet_chars)) in
  log_test ("Using minW=" +:+ str minW +:+ ", maxW=" +:+ str maxW) ;;;
  sequences <- generate_test_sequences alphabet_chars ;;
  let policies := ["freeze"; "reset"; "lru"; "lfu"] in
  r <- suite_policies alphabet_name alphabet_file minW maxW sequences policies [] ;;
  match r with
  | None => ret false
  | Some results =>
      log_test (nl +:+ "Verifying LRU/LFU differ on large sequences...") ;;;
      check_lru_lfu_differ results "random_very_long" ;;;
      ret true
  end.

(** One rejection test of [test_edge_cases] (tests 1 to 6): the title is
    logged, the command runs with captured output, and the test passes when
    [accepted] holds of the result.  Returns the increment of
    [tests_passed]. *)
Definition rejection_test {env : Env} (title : string) (argv : list string)
    (input : option string) (accepted : CompletedProcess -> bool)
    (pass_msg fail_msg : string) : Py env Z :=
  log_test (nl +:+ title) ;;;
  result <- subprocess_run argv (default (sys_stdin env) input) ;;
  if accepted result then log_pass pass_msg ;;; ret 1%Z
  else log_fail fail_msg ;;; ret 0%Z.

(** [result.returncode != 0]. *)
Definition failed (result : CompletedProcess) : bool :=
  negb (returncode result =? 0)%Z.

Definition argv_missing_mode : list string :=
  ["java"; "LZWTool"; "--alphabet"; "alphabets/ab.txt"].
Definition argv_invalid_mode : list string :=
  ["java"; "LZWTool"; "--mode"; "invalid"].
Definition argv_missing_alphabet : list string :=
  ["java"; "LZWTool"; "--mode"; "compress"; "--minW"; "3"; "--maxW"; "4"].
Definition argv_nonexistent_alphabet : list string :=
  ["java"; "LZWTool"; "--mode"; "compress"; "--alphabet"; "nonexistent.txt";
   "--minW"; "3"; "--maxW"; "4"].
Definition argv_minW_gt_maxW : list string :=
  ["java"; "LZWTool"; "--mode"; "compress"; "--alphabet"; "alphabets/ab.txt";
   "--minW"; "10"; "--maxW"; "5"].
Definition argv_unknown_argument : list string :=
  ["java"; "LZWTool"; "--unknown-arg"; "value"].
(** The command of tests 7 and 8: compress over alphabets/ab.txt with no
    "--policy". *)
Definition argv_compress_ab : list string :=
  ["java"; "LZWTool"; "--mode"; "compress"; "--alphabet"; "alphabets/ab.txt";
   "--minW"; "3"; "--maxW"; "4"].

Definition test_edge_cases {env : Env} : Py env bool :=
  log_test (nl +:+ str_mul "=" 60) ;;;
  log_test "Testing Edge Cases" ;;;
  log_test (str_mul "=" 60) ;;;
  p1 <- rejection_test "1. Missing --mode argument" argv_missing_mode None failed
          "  Correctly rejected missing --mode" "  Should have rejected missing --mode" ;;
  p2 <- rejection_test "2. Invalid --mode value" argv_invalid_mode None failed
          "  Correctly rejected invalid mode" "  Should have rejected invalid mode" ;;
  p3 <- rejection_test "3. Missing --alphabet for compression" argv_missing_alphabet
          (Some "") failed
          "  Correctly rejected missing alphabet" "  Should have rejected missing alphabet" ;;
  p4 <- rejection_test "4. Non-existent alphabet file" argv_nonexistent_alphabet
          (Some "a") failed
          "  Correctly rejected non-existent alphabet"
          "  Should have rejected non-existent alphabet" ;;
  p5 <- rejection_test "5. Invalid minW > maxW" argv_minW_gt_maxW (Some "a") failed
          "  Correctly rejected minW > maxW" "  Should have rejected minW > maxW" ;;
  p6 <- rejection_test "6. Unknown argument" argv_unknown_argument None
          (fun result => failed result && str_contains "Unknown argument" (stderr result))
          "  Correctly rejected unknown argument" "  Should have rejected unknown argument" ;;
  (* Test 7: a character outside the alphabet *)
  log_test (nl +:+ "7. Input character not in alphabet") ;;;
  test_file <- named_temporary_file "" "abc" ;;
  p7 <- try_finally
          (data <- read_file test_file ;;
           result <- subprocess_run argv_compress_ab data ;;
           if failed result && str_contains "not in the alphabet" (stderr result) then
             log_pass ("  Correctly rejected invalid character: " +:+ stderr result) ;;;
             ret 1%Z
           else
             log_fail "  Should have rejected character not in alphabet" ;;; ret 0%Z)
          (os_remove test_file) ;;
  (* Test 8: empty input *)
  log_test (nl +:+ "8. Empty input file") ;;;
  result <- subprocess_run argv_compress_ab "" ;;
  p8 <- (if (returncode result =? 0)%Z then
           log_pass "  Empty input handled correctly" ;;; ret 1%Z
         else log_fail "  Empty input should succeed" ;;; ret 0%Z) ;;
  let tests_passed := (p1 + p2 + p3 + p4 + p5 + p6 + p7 + p8)%Z in
  let tests_total := 8%Z in
  log_test (nl +:+ "Edge Case Tests: " +:+ str tests_passed +:+ "/" +:+ str tests_total
            +:+ " passed") ;;;
  ret (tests_passed =? tests_total)%Z.

(** The loop of [test_real_files] over the policies for one file; [false]
    is the early [return False]. *)
Fixpoint real_file_policies {env : Env} (filepath content : string)
    (policies : list string) : Py env bool :=
  match policies with
  | [] => ret true
  | policy :: rest =>
      r <- compress_expand_test content "alphabets/ascii.txt" 9 16 policy
             (filepath +:+ "/" +:+ policy) ;;
      let '(success, ratio) := r in
      if success then
        log_pass ("  " +:+ upper policy +:+ " - Ratio:") ;;;
        real_file_policies filepath content rest
      else
        log_fail ("  " +:+ upper policy +:+ " - FAILED") ;;;
        ret false
  end.

(** The loop of [test_real_files] over the files. *)
Fixpoint real_files {env : Env} (test_files : list (string * string)) : Py env bool :=
  match test_files with
  | [] => ret true
  | (filepath, description) :: rest =>
      present <- path_exists filepath ;;
      if negb present then
        log_warn ("File not found: " +:+ filepath) ;;;
        real_files rest
      else
        log_test (nl +:+ "Testing " +:+ description +:+ ": " +:+ filepath) ;;;
        content <- read_text_ignore filepath ;;
        log_test ("  File size: " +:+ str (len content) +:+ " bytes") ;;;
        ok <- real_file_policies filepath content ["freeze"; "lru"; "lfu"] ;;
        if ok then real_files rest else ret false
  end.

Definition test_real_files {env : Env} : Py env bool :=
  log_test (nl +:+ str_mul "=" 60) ;;;
  log_test "Testing Real Files with ASCII alphabet" ;;;
  log_test (str_mul "=" 60) ;;;
  real_files [("TestFiles/code.txt", "Text file"); ("TestFiles/medium.txt", "Medium text")].

(** [main] of comprehensive_test.py. *)
Definition main {env : Env} : Py env unit :=
  print "LZWTool Comprehensive Test Suite" ;;;
  print "Testing Optimizations & Edge Cases" ;;;
  (* Set random seed for reproducibility *)
  seed 42 ;;;
  compile_java ;;;
  v <- test_alphabet_validation ;;
  let all_passed := if default false v then true else false in
  e <- test_edge_cases ;;
  let all_passed := if negb e then false else all_passed in
  s1 <- test_alphabet_suite "ab" ["a"; "b"] "alphabets/ab.txt" ;;
  let all_passed := if negb s1 then false else all_passed in
  s2 <- test_alphabet_suite "abracadabra" ["A"; "B"; "R"; "C"; "D"]
          "alphabets/abracadabra.txt" ;;
  let all_passed := if negb s2 then false else all_passed in
  s3 <- test_alphabet_suite "tobeornot" ["T"; "O"; "B"; "E"; "R"; "N"]
          "alphabets/tobeornot.txt" ;;
  let all_passed := if negb s3 then false else all_passed in
  f <- test_real_files ;;
  let all_passed := if negb f then false else all_passed in
  if all_passed then print "ALL TESTS PASSED"
  else print "SOME TESTS FAILED" ;;; raise (SystemExit 1).

(** ** test_lru.py *)

(** The message half of what [run_test] and [test_policy] return; the
    source formats these as strings. *)
Inductive Message : Type :=
| Success (ratio : Q)
| CompilationFailed (err : string)
| CompressionFailed (err : string)
| DecompressionFailed (err : string)
| Mismatch (original decompressed : Z)
| ExceptionMessage (e : PyExn).

(** [list("ab")]: the characters [random.choice("ab")] draws from. *)
Definition ab_chars : list string := ["a"; "b"].

(** [generate_test_sequences] of test_lru.py: the dict literal, its
    random entries drawn in the order they are written. *)
Definition generate_test_sequences_lru {env : Env} : Py env (list (string * string)) :=
  random_short <- random_string ab_chars 20 ;;
  random_medium <- random_string ab_chars 100 ;;
  random_long <- random_string ab_chars 500 ;;
  very_long <- random_string ab_chars 1000 ;;
  stress_test <- random_string ab_chars 2000 ;;
  let test_cases :=
    [("empty", "");
     ("single_a", "a");
     ("single_b", "b");
     ("alternating_ab", str_mul "ab" 50);
     ("aaaaabbbbbb", "aaaaabbbbbb");
     ("all_a", str_mul "a" 50);
     ("all_b", str_mul "b" 50);
     ("random_short", random_short);
     ("random_medium", random_medium);
     ("repeating_pattern", str_mul "aababb" 10);
     ("mixed_pattern", str_mul "abbaaaabbbbaa" 5);
     ("long_run_a_63", str_mul "a" 63);
     ("long_run_b_64", str_mul "b" 64);
     ("alternating_3a3b", str_mul ("aaa" +:+ "bbb") 20);
     ("pattern_abbbbaaa", str_mul "abbbbaaa" 15);
     ("random_long", random_long);
     ("pattern_cross_boundary", str_mul "a" 7 +:+ str_mul "b" 9 +:+ str_mul "a" 15);
     ("sequence_edge_case",
      str_mul "a" 3 +:+ str_mul "b" 3 +:+ str_mul "a" 4 +:+ str_mul "b" 5);
     ("very_long", very_long);
     ("repeating_ab_pattern", str_mul "ababab" 50);
     ("complex_pattern", str_mul "aabbaabbaabb" 20);
     ("stress_test", stress_test)] in
  record_generated test_cases ;;;
  ret test_cases.

(** [create_alphabet_file] of test_lru.py and test_all_policies.py. *)
Definition create_alphabet_file {env : Env} : Py env unit :=
  write_file "alphabet_ab.txt" ("a" +:+ nl +:+ "b" +:+ nl).

(** The command that compiles the tool in [run_test] and [test_policy]. *)
Definition argv_javac : list string :=
  ["javac"; "LZWTool.java"; "TSTmod.java"; "BinaryStdIn.java"; "BinaryStdOut.java"].

(** The ratio expression of [run_test]:
    [(compressed_size / original_size * 100) if original_size > 0 else 0]. *)
Definition ratio_run_test (compressed_size original_size : Z) : Outcome Q :=
  if (0 <? original_size)%Z then
    match truediv compressed_size original_size with
    | Returned q => Returned (q * 100)%Q
    | Raised e => Raised e
    end
  else Returned 0%Q.

(** [run_test(test_name, input_data, policy="lru", minW=9, maxW=12)]. *)
Definition run_test {env : Env} (test_name input_data policy : string) (minW maxW : Z)
    : Py env (bool * Message) :=
  let input_file := "test_input_" +:+ test_name +:+ ".txt" in
  let compressed_file := "test_compressed_" +:+ test_name +:+ ".bin" in
  let decompressed_file := "test_decompressed_" +:+ test_name +:+ ".txt" in
  try_finally
    (try_except
       (write_file input_file input_data ;;;
        compile_result <- subprocess_run argv_javac (sys_stdin env) ;;
        if negb (returncode compile_result =? 0)%Z then
          ret (false, CompilationFailed (stderr compile_result))
        else
          compress_result <- run_redirected
               ["java"; "LZWTool"; "--mode"; "compress"; "--minW"; str minW;
                "--maxW"; str maxW; "--policy"; policy; "--alphabet"; "alphabet_ab.txt"]
               input_file compressed_file ;;
          if negb (returncode compress_result =? 0)%Z then
            ret (false, CompressionFailed (stderr compress_result))
          else
            decompress_result <- run_redirected ["java"; "LZWTool"; "--mode"; "expand"]
                                   compressed_file decompressed_file ;;
            if negb (returncode decompress_result =? 0)%Z then
              ret (false, DecompressionFailed (stderr decompress_result))
            else
              decompressed_data <- read_text decompressed_file ;;
              if String.eqb input_data decompressed_data then
                let original_size := len input_data in
                compressed_size <- getsize compressed_file ;;
                ratio <- lift (ratio_run_test compressed_size original_size) ;;
                ret (true, Success ratio)
              else
                ret (false, Mismatch (len input_data) (len decompressed_data)))
       (fun e => ret (false, ExceptionMessage e)))
    (cleanup [input_file; compressed_file; decompressed_file]).

(** The loop of [run_all_tests] over [test_cases.items()], counting
    (passed, failed); every test runs with the defaults of [run_test]. *)
Fixpoint run_cases {env : Env} (test_cases : list (string * string)) (passed failed : Z)
    : Py env (Z * Z) :=
  match test_cases with
  | [] => ret (passed, failed)
  | (test_name, input_data) :: rest =>
      print (nl +:+ "Testing: " +:+ test_name +:+ " (length: " +:+ str (len input_data)
             +:+ ")") ;;;
      r <- run_test test_name input_data "lru" 9 12 ;;
      let '(success, message) := r in
      if success then print "  passed" ;;; run_cases rest (passed + 1)%Z failed
      else print "  failed" ;;; run_cases rest passed (failed + 1)%Z
  end.

Definition run_all_tests {env : Env} : Py env bool :=
  print (str_mul "=" 70) ;;;
  print "LRU Policy Test Suite for LZW Compression" ;;;
  print (str_mul "=" 70) ;;;
  create_alphabet_file ;;;
  test_cases <- generate_test_sequences_lru ;;
  r <- run_cases test_cases 0 0 ;;
  let '(passed, failed) := r in
  print ("Test Results: " +:+ str passed +:+ " passed, " +:+ str failed
         +:+ " failed out of " +:+ str (passed + failed) +:+ " total") ;;;
  present <- path_exists "alphabet_ab.txt" ;;
  (if present then os_remove "alphabet_ab.txt" else ret tt) ;;;
  ret (failed =? 0)%Z.

(** ** test_all_policies.py *)

(** The ratio expression of [test_policy]:
    [(compressed_size / len(input_data) * 100) if len(input_data) > 0 else 0]. *)
Definition ratio_test_policy (compressed_size : Z) (input_data : string) : Outcome Q :=
  if (0 <? len input_data)%Z then
    match truediv compressed_size (len input_data) with
    | Returned q => Returned (q * 100)%Q
    | Raised e => Raised e
    end
  else Returned 0%Q.

(** The default [input_data] of [test_policy]. *)
Definition default_input : string := str_mul "aabbaabbaabb" 20.

(** [test_policy(policy_name, input_data="aabbaabbaabb" * 20)]. *)
Definition test_policy {env : Env} (policy_name input_data : string)
    : Py env (bool * Message) :=
  let input_file := "test_" +:+ policy_name +:+ "_input.txt" in
  let compressed_file := "test_" +:+ policy_name +:+ "_compressed.bin" in
  let decompressed_file := "test_" +:+ policy_name +:+ "_decompressed.txt" in
  try_finally
    (try_except
       (write_file input_file input_data ;;;
        compile_result <- subprocess_run argv_javac (sys_stdin env) ;;
        if negb (returncode compile_result =? 0)%Z then
          ret (false, CompilationFailed (stderr compile_result))
        else
          compress_result <- run_redirected
               ["java"; "LZWTool"; "--mode"; "compress"; "--minW"; "9";
                "--maxW"; "12"; "--policy"; policy_name; "--alphabet"; "alphabet_ab.txt"]
               input_file compressed_file ;;
          if negb (returncode compress_result =? 0)%Z then
            ret (false, CompressionFailed (stderr compress_result))
          else
            decompress_result <- run_redirected ["java"; "LZWTool"; "--mode"; "expand"]
                                   compressed_file decompressed_file ;;
            if negb (returncode decompress_result =? 0)%Z then
              ret (false, DecompressionFailed (stderr decompress_result))
            else
              decompressed_data <- read_text decompressed_file ;;
              if String.eqb input_data decompressed_data then
                compressed_size <- getsize compressed_file ;;
                ratio <- lift (ratio_test_policy compressed_size input_data) ;;
                ret (true, Success ratio)
              else
                ret (false, Mismatch (len input_data) (len decompressed_data)))
       (fun e => ret (false, ExceptionMessage e)))
    (cleanup [input_file; compressed_file; decompressed_file]).

(** ** verify_policies_differ.py *)

(** [compress_test]: the compressed size, or [None] when compression
    fails. *)
Definition compress_test {env : Env} (input_data alphabet_path : string)
    (minW maxW : Z) (policy : string) : Py env (option Z) :=
  input_file <- named_temporary_file ".txt" input_data ;;
  let compressed_file := input_file +:+ ".lzw" in
  try_finally
    (result <- run_redirected
                 ["java"; "LZWTool"; "--mode"; "compress"; "--minW"; str minW;
                  "--maxW"; str maxW; "--policy"; policy; "--alphabet"; alphabet_path]
                 input_file compressed_file ;;
     if negb (returncode result =? 0)%Z then
       print ("Compression failed for " +:+ policy +:+ ": " +:+ stderr result) ;;;
       ret None
     else
       compressed_size <- getsize compressed_file ;;
       ret (Some compressed_size))
    (cleanup [input_file; compressed_file]).

(** The loop over the policies for one configuration: [results] maps a
    policy to its ratio [size / length], for the sizes that are truthy. *)
Fixpoint policy_ratios {env : Env} (random_data alphabet_file : string) (minW maxW : Z)
    (length : Z) (policies : list string) (results : list (string * Q))
    : Py env (list (string * Q)) :=
  match policies with
  | [] => ret results
  | policy :: rest =>
      size <- compress_test random_data alphabet_file minW maxW policy ;;
      match size with
      | Some sz =>
          if negb (sz =? 0)%Z then
            ratio <- lift (truediv sz length) ;;
            print ("  " +:+ upper policy +:+ ": " +:+ str sz +:+ " bytes, ratio:") ;;;
            policy_ratios random_data alphabet_file minW maxW length rest
              (results ++ [(policy, ratio)])
          else policy_ratios random_data alphabet_file minW maxW length rest results
      | None => policy_ratios random_data alphabet_file minW maxW length rest results
      end
  end.

(** [len(set(ratios))]: the number of distinct ratios. *)
Fixpoint distinct_ratios (ratios : list Q) : nat :=
  match ratios with
  | [] => 0
  | q :: rest =>
      if existsb (Qeq_bool q) rest then distinct_ratios rest
      else S (distinct_ratios rest)
  end.

(** The verdict of the script on the ratios of one configuration:
    [if len(set(ratios)) == 4: print(...) else: print(...)] (the pairs that
    coincide are then listed, and the lines after only print). *)
Definition report_verdict {env : Env} (results : list (string * Q)) : Py env unit :=
  let ratios := map snd results in
  if distinct_ratios ratios =? 4 then print "  ALL 4 POLICIES PRODUCE DIFFERENT RESULTS"
  else print "  Some policies produce the same results:".

(** The body of the script's loop for one entry of [test_configs]. *)
Definition verify_config {env : Env} (name : string) (chars : list string)
    (alphabet_file : string) (minW maxW : Z) (length : nat) : Py env unit :=
  print (nl +:+ "Alphabet: " +:+ name +:+ " (" +:+ str (Z.of_nat (List.length chars))
         +:+ " chars) - " +:+ str (Z.of_nat length) +:+ " random characters") ;;;
  print ("minW=" +:+ str minW +:+ ", maxW=" +:+ str maxW) ;;;
  random_data <- random_string chars length ;;
  record_generated [(name, random_data)] ;;;
  results <- policy_ratios random_data alphabet_file minW maxW (Z.of_nat length)
               ["freeze"; "reset"; "lru"; "lfu"] [] ;;
  report_verdict results.

(** The script verify_policies_differ.py. *)
Definition verify_policies_differ {env : Env} : Py env unit :=
  print "Verifying all 4 policies differ on very large random tests" ;;;
  (* Set seed for reproducibility *)
  seed 42 ;;;
  verify_config "ab" ["a"; "b"] "alphabets/ab.txt" 2 4 (100 * 100) ;;;
  verify_config "abracadabra" ["A"; "B"; "R"; "C"; "D"] "alphabets/abracadabra.txt"
    3 5 (100 * 100) ;;;
  verify_config "tobeornot" ["T"; "O"; "B"; "E"; "R"; "N"] "alphabets/tobeornot.txt"
    3 5 (100 * 100) ;;;
  print "Done!".

(** ** Notions the statements use *)

(** A state with other files. *)
Definition with_files {env : Env} (w : World env) (fs : gmap string string) : World env :=
  {| files := fs; console := console w; rng := rng w; generated := generated w |}.

(** The content of the file that [expand(compress(s))] produces, when both
    processes return and exit with code 0: the compressor runs on [s] with
    its output file created empty, the expander on what the compressor
    wrote. *)
Definition round_trip_output (env : Env) (compress_cmd : list string) (input_data : string)
    (fs : gmap string string) (compressed_file decompressed_file : string) : option string :=
  match spawn env compress_cmd input_data (<[compressed_file := ""]> fs) with
  | Returned c =>
      if (returncode c =? 0)%Z then
        match spawn env ["java"; "LZWTool"; "--mode"; "expand"] (stdout c)
                (<[decompressed_file := ""]> (<[compressed_file := stdout c]> fs)) with
        | Returned x => if (returncode x =? 0)%Z then Some (stdout x) else None
        | Raised _ => None
        end
      else None
  | Raised _ => None
  end.

(** The file produced, read as text, is [s]: what the round-trip check
    compares with the input. *)
Definition reads_as (produced : option string) (s : string) : Prop :=
  exists content, produced = Some content /\ decode_text content = Returned s.

(** A character of plain text: an ASCII character other than CR, which a
    text-mode read gives back as it is. *)
Definition plain_char (c : ascii) : bool :=
  (N_of_ascii c <? 128)%N && negb (Ascii.eqb c "013").

(** Modelled from the spec: an environment in which the command
    "java LZWTool args" is the modelled tool (LZWTool.java is not in the
    snapshot). *)
Definition runs_LZWTool (env : Env) : Prop :=
  forall (args : list string) (stdin_data : string) (fs : gmap string string),
    spawn env ("java" :: "LZWTool" :: args) stdin_data fs
    = Returned (LZWTool args stdin_data fs).

(** An environment in which javac compiles the tool without error. *)
Definition javac_succeeds (env : Env) : Prop :=
  forall (stdin_data : string) (fs : gmap string string),
    exists j, spawn env argv_javac stdin_data fs = Returned j /\ returncode j = 0%Z.

(** Every character of [s] is a symbol of the alphabet. *)
Definition over_alphabet (al : list ascii) (s : string) : Prop :=
  Forall (fun c => c ∈ al) (list_ascii_of_string s).

(** Modelled from the spec: the commands of a machine on which javac
    succeeds and "java LZWTool" is the modelled tool. *)
Definition model_spawn (argv : list string) (stdin_data : string) (fs : gmap string string)
    : Outcome CompletedProcess :=
  match argv with
  | [] => Raised IndexError
  | cmd :: rest =>
      if String.eqb cmd "javac" then
        Returned {| returncode := 0; stdout := ""; stderr := "" |}
      else if String.eqb cmd "java" then
        match rest with
        | tool :: args =>
            if String.eqb tool "LZWTool" then Returned (LZWTool args stdin_data fs)
            else Raised (FileNotFoundError tool)
        | [] => Raised (FileNotFoundError cmd)
        end
      else Raised (FileNotFoundError cmd)
  end.

(** Modelled from the spec: a concrete environment around the modelled
    tool, used to instantiate the statements: a counter as random generator
    and one fixed temporary name per suffix. *)
Definition model_env : Env :=
  {| Rng := nat;
     random_seed := Z.to_nat;
     randbelow := fun n s => (s mod n, S s);
     spawn := model_spawn;
     mktemp := fun suffix _ => "/tmp/tmpq3x7" +:+ suffix;
     sys_stdin := "" |}.

(** The alphabet file of {a, b}, as [create_alphabet_file] writes it. *)
Definition ab_file : string := "a" +:+ nl +:+ "b" +:+ nl.

(** A state of [model_env] whose disk holds the alphabet files of {a, b}. *)
Definition model_world : World model_env :=
  Build_World model_env
    (<["alphabets/ab.txt" := ab_file]> (<["alphabet_ab.txt" := ab_file]> ∅))
    [] 0 [].

(** The arguments LZWTool receives from a driver's command line. *)
Definition tool_args (argv : list string) : list string := drop 2 argv.

(** A run that ends in an error: a nonzero exit code, no stream on stdout
    and a diagnostic on stderr. *)
Definition rejected (r : CompletedProcess) : Prop :=
  returncode r <> 0%Z /\ stdout r = ""%string /\ stderr r <> ""%string
  /\ failed r = true.

(** Modelled from the spec: a tool that is the modelled one except that it
    rejects the empty input. *)
Definition no_empty_spawn (argv : list string) (stdin_data : string)
    (fs : gmap string string) : Outcome CompletedProcess :=
  if String.eqb stdin_data "" then
    Returned {| returncode := 1; stdout := ""; stderr := "empty input" |}
  else model_spawn argv stdin_data fs.

(** Modelled from the spec: [model_env] around the tool that rejects the
    empty input. *)
Definition no_empty_env : Env :=
  {| Rng := nat;
     random_seed := Z.to_nat;
     randbelow := fun n s => (s mod n, S s);
     spawn := no_empty_spawn;
     mktemp := fun suffix _ => "/tmp/tmpq3x7" +:+ suffix;
     sys_stdin := "" |}.

(** A state of [no_empty_env] whose disk holds the alphabet file of
    {a, b}. *)
Definition no_empty_world : World no_empty_env :=
  Build_World no_empty_env (<["alphabets/ab.txt" := ab_file]> ∅) [] 0 [].

(** The name of a policy on the command line. *)
Definition policy_name (p : Policy) : string :=
  match p with
  | Freeze => "freeze" | ResetTable => "reset" | Lru => "lru" | Lfu => "lfu"
  end.

(** A command line with the value of every "--policy" flag replaced by
    "freeze". *)
Fixpoint force_freeze (argv : list string) : list string :=
  match argv with
  | [] => []
  | flag :: rest =>
      match rest with
      | [] => [flag]
      | value :: rest' =>
          if String.eqb flag "--policy" then flag :: "freeze" :: force_freeze rest'
          else flag :: force_freeze rest
      end
  end.

(** Modelled from the spec: [model_env] around a tool that is insensitive
    to the policy: it runs the modelled tool under freeze whatever policy is
    asked for. *)
Definition policy_blind_env : Env :=
  {| Rng := nat;
     random_seed := Z.to_nat;
     randbelow := fun n s => (s mod n, S s);
     spawn := fun argv stdin_data fs => model_spawn (force_freeze argv) stdin_data fs;
     mktemp := fun suffix _ => "/tmp/tmpq3x7" +:+ suffix;
     sys_stdin := "" |}.

(** A state of [policy_blind_env] whose disk holds the alphabet file of
    {a, b}. *)
Definition policy_blind_world : World policy_blind_env :=
  Build_World policy_blind_env (<["alphabets/ab.txt" := ab_file]> ∅) [] 0 [].

(** Whether a console line is a warning. *)
Definition is_warning (line : Level * string) : bool :=
  match fst line with WARN => true | _ => false end.

(** The warnings on the console. *)
Definition warnings (lines : list (Level * string)) : list string :=
  map snd (List.filter is_warning lines).

(** Modelled from the spec: the configuration of the concrete scenario:
    alphabet {a, b}, minW 3, maxW 4, policy freeze. *)
Definition scenario : Config :=
  {| alphabet := ["a"%char; "b"%char]; minW := 3; maxW := 4; policy := Freeze |}.


(** ** The random generator (C10) *)

(** A block that leaves the random generator and the generated sequences
    alone. *)
Definition Frame {env : Env} {A : Type} (m : Py env A) : Prop :=
  forall w, rng (snd (m w)) = rng w /\ generated (snd (m w)) = generated w.

(** A block whose outcome, and whose effect on the random generator and on
    the generated sequences, depend on the state of the generator only. *)
Definition RngOnly {env : Env} {A : Type} (m : Py env A) : Prop :=
  forall w w', rng w = rng w' ->
    fst (m w) = fst (m w') /\ rng (snd (m w)) = rng (snd (m w')) /\
    exists delta, generated (snd (m w)) = generated w ++ delta
                  /\ generated (snd (m w')) = generated w' ++ delta.

(** The state of the generator right after [random.seed(42)], before any
    sequence was generated. *)
Definition seeded (env : Env) : World env :=
  Build_World env ∅ [] (random_seed env 42) [].

(** The generators of a run, one after the other, whatever their
    outcomes. *)
Fixpoint replay {env : Env} (generators : list (Py env (list (string * string))))
    (w : World env) : World env :=
  match generators with
  | [] => w
  | g :: rest => replay rest (snd (g w))
  end.

(** The sequences comprehensive_test.py generates after [random.seed(42)]:
    one call of [generate_test_sequences] per alphabet suite. *)
Definition seeded_sequences (env : Env) : list (list (string * string)) :=
  generated
    (replay [generate_test_sequences ["a"; "b"];
             generate_test_sequences ["A"; "B"; "R"; "C"; "D"];
             generate_test_sequences ["T"; "O"; "B"; "E"; "R"; "N"]]
            (seeded env)).

(** The random data verify_policies_differ.py generates after
    [random.seed(42)]: one string per configuration. *)
Definition verify_data {env : Env} (name : string) (chars : list string)
    : Py env (list (string * string)) :=
  random_data <- random_string chars (100 * 100) ;;
  record_generated [(name, random_data)] ;;;
  ret [(name, random_data)].

(** All of it, in the order of the configurations. *)
Definition seeded_data (env : Env) : list (list (string * string)) :=
  generated
    (replay [verify_data "ab" ["a"; "b"];
             verify_data "abracadabra" ["A"; "B"; "R"; "C"; "D"];
             verify_data "tobeornot" ["T"; "O"; "B"; "E"; "R"; "N"]]
            (seeded env)).

(** Two states with the same generator state and the same generated
    sequences. *)
Definition Sync {env : Env} (c w : World env) : Prop :=
  rng w = rng c /\ generated w = generated c.

(** A block run from a state satisfying [pre] ends in [post] when it
    returns and in [exc] when it raises. *)
Definition triple {env : Env} {A : Type} (pre : World env -> Prop) (m : Py env A)
    (post : A -> World env -> Prop) (exc : World env -> Prop) : Prop :=
  forall w, pre w ->
    match m w with
    | (Returned a, w') => post a w'
    | (Raised _, w') => exc w'
    end.

(** A fresh state: nothing generated yet. *)
Definition fresh (env : Env) (fs : gmap string string) (lines : list (Level * string))
    (r : Rng env) : World env :=
  Build_World env fs lines r [].

(** ** The rest of the scripts *)

(** [d[k] = v] on a dict kept as a list in insertion order: the value of an
    existing key is replaced in place, a new key is added at the end. *)
Fixpoint dict_set {V : Type} (d : list (string * V)) (k : string) (v : V)
    : list (string * V) :=
  match d with
  | [] => [(k, v)]
  | (k', v') :: rest =>
      if String.eqb k' k then (k', v) :: rest else (k', v') :: dict_set rest k v
  end.

(** *** test_all_policies.py, the script

    As for [run_cases], the line printed after a test stands for the
    source's mark and message. *)
Module test_all_policies.

(** The loop of [main] over [policies]. *)
Fixpoint test_policies {env : Env} (policies : list string) (results : list (string * bool))
    : Py env (list (string * bool)) :=
  match policies with
  | [] => ret results
  | policy :: rest =>
      print (nl +:+ "Testing policy: " +:+ policy) ;;;
      r <- test_policy policy default_input ;;
      let '(success, message) := r in
      let results := dict_set results policy success in
      (if success then print "  passed" else print "  failed") ;;;
      test_policies rest results
  end.

(** The loop of [main] over [results.items()] that prints the summary. *)
Fixpoint print_summary {env : Env} (results : list (string * bool)) : Py env unit :=
  match results with
  | [] => ret tt
  | (policy, success) :: rest =>
      let status := if success then "✓ PASSED" else "✗ FAILED" in
      print ("  " +:+ policy +:+ ": " +:+ status) ;;;
      print_summary rest
  end.

Definition main {env : Env} : Py env bool :=
  print (str_mul "=" 70) ;;;
  print "Testing All Policies" ;;;
  print (str_mul "=" 70) ;;;
  create_alphabet_file ;;;
  results <- test_policies ["freeze"; "reset"; "lru"] [] ;;
  (* Clean up *)
  present <- path_exists "alphabet_ab.txt" ;;
  (if present then os_remove "alphabet_ab.txt" else ret tt) ;;;
  print (nl +:+ str_mul "=" 70) ;;;
  print "Summary:" ;;;
  print_summary results ;;;
  print (str_mul "=" 70) ;;;
  ret (forallb snd results).

End test_all_policies.

(** *** verify_policies_differ.py, the report on one configuration *)

(** The policies of the script. *)
Definition policies : list string := ["freeze"; "reset"; "lru"; "lfu"].

(** [results[p]["ratio"]] when [p in results]. *)
Definition lookup_ratio (results : list (string * Q)) (p : string) : option Q :=
  snd <$> find (fun e => String.eqb (fst e) p) results.

(** The pairs the script lists as producing the same results: [p1], [p2]
    in [policies] with [p1 < p2], both in [results], with equal ratios. *)
Definition coinciding_pairs (results : list (string * Q)) : list (string * string) :=
  flat_map
    (fun p1 =>
       flat_map
         (fun p2 =>
            if String.ltb p1 p2 then
              match lookup_ratio results p1, lookup_ratio results p2 with
              | Some r1, Some r2 => if Qeq_bool r1 r2 then [(p1, p2)] else []
              | _, _ => []
              end
            else [])
         policies)
    policies.

(** Float division [a / b]; the floats are idealised as rationals. *)
Definition float_div (a b : Q) : Outcome Q :=
  if Qeq_bool b 0 then Raised ZeroDivisionError else Returned (a / b)%Q.

(** [for line in lines: print(line)]. *)
Fixpoint print_lines {env : Env} (lines : list string) : Py env unit :=
  match lines with
  | [] => ret tt
  | line :: rest => print line ;;; print_lines rest
  end.

(** The loop under "Differences from FREEZE" over the other policies that
    are in [results]. *)
Fixpoint print_differences {env : Env} (freeze_ratio : Q) (others : list string)
    (results : list (string * Q)) : Py env unit :=
  match others with
  | [] => ret tt
  | policy :: rest =>
      match lookup_ratio results policy with
      | Some ratio =>
          let diff := (ratio - freeze_ratio)%Q in
          q <- lift (float_div diff freeze_ratio) ;;
          let pct := (q * 100)%Q in
          print ("    " +:+ upper policy +:+ ":") ;;;
          print_differences freeze_ratio rest results
      | None => print_differences freeze_ratio rest results
      end
  end.

(** What the script prints for one configuration once the ratios are
    known: the verdict, the pairs that coincide, and the differences from
    freeze. *)
Definition report_results {env : Env} (results : list (string * Q)) : Py env unit :=
  print "" ;;;
  (if distinct_ratios (map snd results) =? 4
   then print "  ALL 4 POLICIES PRODUCE DIFFERENT RESULTS"
   else
     print "  Some policies produce the same results:" ;;;
     print_lines (map (fun pair => "    " +:+ fst pair +:+ " == " +:+ snd pair)
                      (coinciding_pairs results))) ;;;
  (match lookup_ratio results "freeze" with
   | Some freeze_ratio =>
       print (nl +:+ "  Differences from FREEZE:") ;;;
       print_differences freeze_ratio ["reset"; "lru"; "lfu"] results
   | None => ret tt
   end) ;;;
  print (str_mul "=" 80).


(** ** Notions the statements about the scripts use *)

(** A string put together from entries of the alphabet. *)
Definition made_of (chars : list string) (s : string) : Prop :=
  exists parts, Forall (fun c => c ∈ chars) parts /\ s = join parts.

(** A random generator whose draws below [n] are below [n], as those of
    Python's [random] are. *)
Definition InRange (env : Env) : Prop :=
  forall (n : nat) (r : Rng env), 0 < n -> fst (randbelow env n r) < n.

(** The names [generate_test_sequences] gives for an alphabet of [n]
    entries, in the order of insertion. *)
Definition sequence_names (n : nat) : list string :=
  ["empty"; "single_first"; "single_last"]
  ++ (if 2 <=? n
      then ["alternating_first_last"; "repeating_pattern"; "alternating_ab"; "edge_case";
            "aaaaabbbbbb"]
      else [])
  ++ ["all_first"; "all_last"; "random_short"; "random_medium"; "random_long";
      "random_very_long"; "long_run_first_63"; "long_run_last_64"]
  ++ (if 2 <=? n
      then ["alternating_3_3"; "pattern_cross_boundary"; "sequence_edge_case"]
      else [])
  ++ (if 3 <=? n then ["pattern_complex"; "incremental_sequence"] else []).

(** The sequences of [generate_test_sequences], given the first, second,
    third and last entry of the alphabet and the four random strings. *)
Definition sequences_of (chars : list string) (c0 clast : string)
    (random_short random_medium random_long random_very_long : string)
    : list (string * string) :=
  let n := length chars in
  let c1 := item chars 1 in
  let c2 := item chars 2 in
  ([("empty", ""); ("single_first", c0); ("single_last", clast)]
   ++ (if 2 <=? n
       then [("alternating_first_last", str_mul (c0 +:+ clast) 50);
             ("repeating_pattern", str_mul (str_mul c0 3 +:+ str_mul c1 3) 10);
             ("alternating_ab", str_mul (c0 +:+ c1) 100);
             ("edge_case",
              str_mul c1 5 +:+ c0 +:+ str_mul c1 2 +:+ str_mul c0 3 +:+ str_mul c1 3
              +:+ c0 +:+ str_mul c1 2 +:+ str_mul c0 3 +:+ str_mul c1 3);
             ("aaaaabbbbbb", str_mul c0 5 +:+ str_mul c1 6)]
       else [])
   ++ [("all_first", str_mul c0 50); ("all_last", str_mul clast 50);
       ("random_short", random_short); ("random_medium", random_medium);
       ("random_long", random_long); ("random_very_long", random_very_long);
       ("long_run_first_63", str_mul c0 63);
       ("long_run_last_64", str_mul clast 64)]
   ++ (if 2 <=? n
       then [("alternating_3_3", str_mul (str_mul c0 3 +:+ str_mul c1 3) 20);
             ("pattern_cross_boundary",
              str_mul c0 7 +:+ str_mul clast 9 +:+ str_mul c0 15);
             ("sequence_edge_case",
              str_mul c0 3 +:+ str_mul c1 3 +:+ str_mul c0 4 +:+ str_mul c1 5)]
       else [])
   ++ (if 3 <=? n
       then [("pattern_complex",
              str_mul (str_mul c0 4 +:+ str_mul c1 3 +:+ str_mul c2 2) 15);
             ("incremental_sequence",
              join (map (fun i => item chars (i mod n)) (seq 0 50)))]
       else []))%list.

(** The sizes of the sequences for an alphabet of [n] single characters,
    in the order of [sequence_names]. *)
Definition sequence_sizes (n : nat) : list nat :=
  [0; 1; 1]
  ++ (if 2 <=? n then [100; 60; 200; 23; 11] else [])
  ++ [50; 50; 20; 100; 500; 100 * 100; 63; 64]
  ++ (if 2 <=? n then [120; 31; 15] else [])
  ++ (if 3 <=? n then [135; 50] else []).

(** The names and sizes of the test cases of test_lru.py, in the order of
    the dict literal. *)
Definition lru_cases : list (string * nat) :=
  [("empty", 0); ("single_a", 1); ("single_b", 1); ("alternating_ab", 100);
   ("aaaaabbbbbb", 11); ("all_a", 50); ("all_b", 50); ("random_short", 20);
   ("random_medium", 100); ("repeating_pattern", 60); ("mixed_pattern", 65);
   ("long_run_a_63", 63); ("long_run_b_64", 64); ("alternating_3a3b", 120);
   ("pattern_abbbbaaa", 120); ("random_long", 500); ("pattern_cross_boundary", 31);
   ("sequence_edge_case", 15); ("very_long", 1000); ("repeating_ab_pattern", 300);
   ("complex_pattern", 240); ("stress_test", 2000)].

(** The results of a loop of tests: [test] is run on the items in turn,
    each run in the state the run before left, after the line that
    announces it; the line with its result follows it. *)
Inductive tested {env : Env} {A : Type} (test : A -> Py env (bool * Message))
    (announce : A -> string)
    : list A -> World env -> list bool -> World env -> Prop :=
| tested_nil (w : World env) : tested test announce [] w [] w
| tested_cons (x : A) (rest : list A) (w w1 w2 : World env) (success : bool)
    (message : Message) (results : list bool) :
    test x (snd (print (announce x) w)) = (Returned (success, message), w1) ->
    tested test announce rest
      (snd (print (if success then "  passed" else "  failed") w1)) results w2 ->
    tested test announce (x :: rest) w (success :: results) w2.

(** The state in which the loops of test_lru.py and test_all_policies.py
    start: the banner with its [title] is printed and the alphabet file
    written. *)
Definition script_start {env : Env} (title : string) (w : World env) : World env :=
  {| files := <["alphabet_ab.txt" := "a" +:+ nl +:+ "b" +:+ nl]> (files w);
     console := console w ++ [(PLAIN, str_mul "=" 70); (PLAIN, title);
                              (PLAIN, str_mul "=" 70)];
     rng := rng w; generated := generated w |}.

(** A block that writes and removes no file outside [paths]. *)
Definition Touches {env : Env} {A : Type} (paths : list string) (m : Py env A) : Prop :=
  forall (w : World env) (k : string),
    k ∉ paths -> files (snd (m w)) !! k = files w !! k.

(** A [FAIL] line of the log. *)
Definition is_fail (line : Level * string) : bool :=
  match fst line with
  | FAIL => true
  | _ => false
  end.

(** The [FAIL] lines among the lines logged. *)
Definition failures (lines : list (Level * string)) : list (Level * string) :=
  List.filter is_fail lines.

(** From [w] to [w'] lines were logged. *)
Definition grows {env : Env} (w w' : World env) : Prop :=
  exists added, console w' = console w ++ added.

(** From [w] to [w'] lines were logged, none of them a [FAIL] line. *)
Definition quiet {env : Env} (w w' : World env) : Prop :=
  exists added, console w' = console w ++ added /\ failures added = [].

(** From [w] to [w'] lines were logged, one of them at least a [FAIL]
    line. *)
Definition failing {env : Env} (w w' : World env) : Prop :=
  exists added, console w' = console w ++ added /\ failures added <> [].

(** A test function reports what it returns: no [FAIL] line when the
    result counts as passed, one at least when it does not. *)
Definition Reports {env : Env} {A : Type} (passed : A -> bool) (m : Py env A) : Prop :=
  forall w : World env,
    match m w with
    | (Returned a, w') => if passed a then quiet w w' else failing w w'
    | (Raised _, _) => True
    end.

(** What follows a failed test: it only logs, and its result counts as
    failed. *)
Definition Rejects {env : Env} {A : Type} (passed : A -> bool) (m : Py env A) : Prop :=
  forall w : World env,
    match m w with
    | (Returned a, w') => passed a = false /\ grows w w'
    | (Raised _, _) => True
    end.

(** A counted test: it returns 1 without logging a failure, or 0 after
    logging one. *)
Definition Tally {env : Env} (m : Py env Z) : Prop :=
  forall w : World env,
    match m w with
    | (Returned p, w') => (p = 1%Z /\ quiet w w') \/ (p = 0%Z /\ failing w w')
    | (Raised _, _) => True
    end.

Definition is_some {A : Type} (r : option A) : bool :=
  match r with
  | Some _ => true
  | None => false
  end.

(** What counts as passed for [test_alphabet_validation]: anything but
    [False]. *)
Definition not_false (v : option bool) : bool :=
  match v with
  | Some false => false
  | _ => true
  end.

(** ** Environments and states for the instances *)

(** An environment in which no command can be started: [subprocess.run]
    raises [FileNotFoundError]. *)
Definition no_java_env : Env :=
  {| Rng := nat;
     random_seed := fun a => Z.to_nat a;
     randbelow := fun n s => (s mod n, S s);
     spawn := fun argv _ _ => Raised (FileNotFoundError (default "" (head argv)));
     mktemp := fun suffix _ => "/tmp/tmpq3x7" +:+ suffix;
     sys_stdin := "" |}.

(** An environment in which every command exits with code 1. *)
Definition failing_env : Env :=
  {| Rng := nat;
     random_seed := Z.to_nat;
     randbelow := fun n s => (s mod n, S s);
     spawn := fun _ _ _ =>
       Returned {| returncode := 1; stdout := ""; stderr := "error" |};
     mktemp := fun suffix _ => "/tmp/tmpq3x7" +:+ suffix;
     sys_stdin := "" |}.

(** The content of an alphabet file: one symbol per line. *)
Definition lines_of (chars : list string) : string :=
  fold_right (fun c rest => c +:+ nl +:+ rest) "" chars.

(** The value that follows [flag] on a command line. *)
Fixpoint flag_value (flag : string) (args : list string) : option string :=
  match args with
  | [] => None
  | f :: rest =>
      match rest with
      | value :: _ => if String.eqb f flag then Some value else flag_value flag rest
      | [] => None
      end
  end.

(** A stand-in for the tool, for the instances: it stores its input as it
    is.  "--mode expand" copies the input; "--mode compress" copies it when
    the alphabet file exists, minW is at most maxW and every character of
    the input occurs in the alphabet file; everything else is rejected with
    exit code 1. *)
Definition echo_tool (args : list string) (stdin_data : string) (fs : gmap string string)
    : CompletedProcess :=
  let reject := fun msg => {| returncode := 1; stdout := ""; stderr := msg |} in
  let copy := {| returncode := 0; stdout := stdin_data; stderr := "" |} in
  match flag_value "--mode" args with
  | Some mode =>
      if String.eqb (default "" (head args)) "--unknown-arg" then
        reject "Unknown argument: --unknown-arg"
      else if String.eqb mode "expand" then copy
      else if String.eqb mode "compress" then
        match flag_value "--alphabet" args with
        | Some path =>
            match fs !! path with
            | Some content =>
                let ordered :=
                  match flag_value "--minW" args, flag_value "--maxW" args with
                  | Some lo, Some hi =>
                      match parse_int lo, parse_int hi with
                      | Some x, Some y => (x <=? y)%Z
                      | _, _ => false
                      end
                  | _, _ => true
                  end in
                if negb ordered then reject "Error: minW is greater than maxW"
                else if forallb (fun c => str_contains (String c "") content)
                          (list_ascii_of_string stdin_data)
                then copy
                else reject "Error: a character is not in the alphabet"
            | None => reject "Error: no such alphabet file"
            end
        | None => reject "Error: no alphabet"
        end
      else reject "Error: invalid mode"
  | None =>
      if String.eqb (default "" (head args)) "--unknown-arg" then
        reject "Unknown argument: --unknown-arg"
      else reject "Error: no mode"
  end.

(** An environment in which javac succeeds and "java LZWTool" is
    [echo_tool]; a counter as random generator and one fixed temporary name
    per suffix. *)
Definition echo_env : Env :=
  {| Rng := N;
     random_seed := Z.to_N;
     randbelow := fun n s => (N.to_nat (s mod N.of_nat n), N.succ s);
     spawn := fun argv stdin_data fs =>
       match argv with
       | [] => Raised IndexError
       | cmd :: rest =>
           if String.eqb cmd "javac" then
             Returned {| returncode := 0; stdout := ""; stderr := "" |}
           else if String.eqb cmd "java" then Returned (echo_tool (drop 1 rest) stdin_data fs)
           else Raised (FileNotFoundError cmd)
       end;
     mktemp := fun suffix _ => "/tmp/tmpq3x7" +:+ suffix;
     sys_stdin := "" |}.

(** A state of [echo_env] whose disk holds what comprehensive_test.py
    reads: the three alphabet files and a JPG (no text file). *)
Definition suite_world : World echo_env :=
  Build_World echo_env
    (<["TestFiles/frosty.jpg" := "JFIF"]>
       (<["alphabets/ab.txt" := lines_of ["a"; "b"]]>
          (<["alphabets/abracadabra.txt" := lines_of ["A"; "B"; "R"; "C"; "D"]]>
             (<["alphabets/tobeornot.txt" := lines_of ["T"; "O"; "B"; "E"; "R"; "N"]]> ∅))))
    [] 0%N [].
(** * Lemmas and theorems *)

(** ** The codec model: bit channel *)

Lemma length_write_bits (w v : nat) : length (write_bits w v) = w.
Proof. induction w as [| w IH]; simpl; [reflexivity | by rewrite IH]. Qed.

Lemma bits_value_write_bits (w v acc : nat) :
  bits_value (write_bits w v) acc = acc * 2 ^ w + v mod 2 ^ w.
Proof.
  revert acc. induction w as [| w IH]; intros acc; cbn [write_bits bits_value].
  - change (2 ^ 0) with 1. rewrite Nat.mod_1_r. lia.
  - rewrite IH. rewrite Nat.testbit_spec'.
    rewrite Nat.pow_succ_r', (Nat.mul_comm 2 (2 ^ w)).
    rewrite (Nat.Div0.mod_mul_r v (2 ^ w) 2). lia.
Qed.

Lemma read_write_bits (w v : nat) (rest : list bool) :
  v < 2 ^ w -> read_bits w (write_bits w v ++ rest) = Some (v, rest).
Proof.
  intros Hv. unfold read_bits.
  rewrite length_app, length_write_bits.
  destruct (Nat.ltb_spec (w + length rest) w) as [Hlt | _]; [lia |].
  rewrite take_app_length' by (symmetry; apply length_write_bits).
  rewrite drop_app_length' by (symmetry; apply length_write_bits).
  rewrite bits_value_write_bits. rewrite Nat.mod_small by exact Hv.
  reflexivity.
Qed.

Lemma bits_of_byte_of_bits (b7 b6 b5 b4 b3 b2 b1 b0 : bool) (tl : list bool) :
  bits_of_byte (byte_of_bits (b7 :: b6 :: b5 :: b4 :: b3 :: b2 :: b1 :: b0 :: tl))
  = [b7; b6; b5; b4; b3; b2; b1; b0].
Proof. reflexivity. Qed.

Lemma close_channel_nil (n : nat) : close_channel n [] = [].
Proof. destruct n; reflexivity. Qed.

Lemma unpack_close_channel (n : nat) (bs : list bool) :
  length bs <= n ->
  exists k, unpack (close_channel n bs) = bs ++ repeat false k.
Proof.
  revert bs. induction n as [| n IH]; intros bs Hn.
  - destruct bs; [| simpl in Hn; lia]. exists 0. reflexivity.
  - destruct bs as [| b7 [| b6 [| b5 [| b4 [| b3 [| b2 [| b1 [| b0 tl]]]]]]]];
      cbn [close_channel take drop]; rewrite ?close_channel_nil.
    + exists 0. reflexivity.
    + exists 7. reflexivity.
    + exists 6. reflexivity.
    + exists 5. reflexivity.
    + exists 4. reflexivity.
    + exists 3. reflexivity.
    + exists 2. reflexivity.
    + exists 1. reflexivity.
    + destruct (IH tl) as [k Hk]; [simpl in Hn; lia |].
      exists k. unfold unpack in *. cbn [flat_map].
      rewrite drop_0, Hk, take_0. reflexivity.
Qed.

Lemma unpack_pack (bs : list bool) :
  exists k, unpack (pack bs) = bs ++ repeat false k.
Proof. apply unpack_close_channel. reflexivity. Qed.

Lemma length_unpack (bytes : list ascii) : length (unpack bytes) = 8 * length bytes.
Proof.
  induction bytes as [| a bytes IH]; [reflexivity |].
  unfold unpack in *. cbn [flat_map]. rewrite length_app, IH.
  destruct a. simpl. lia.
Qed.

Lemma pack_nil_inv (bs : list bool) : pack bs = [] -> bs = [].
Proof. destruct bs; [reflexivity | discriminate]. Qed.

(** ** The codec model: codebook invariants *)

Lemma codeOf_Some (al : list ascii) (c : ascii) (k : nat) :
  codeOf al c = Some k -> k < length al /\ al !! k = Some c.
Proof.
  revert k. induction al as [| a al IH]; intros k; simpl; [discriminate |].
  destruct (Ascii.eqb_spec a c) as [-> | Hne].
  - intros [= <-]. split; [lia | reflexivity].
  - destruct (codeOf al c) as [j |]; [| discriminate].
    intros [= <-]. destruct (IH j eq_refl) as [Hlt Hj]. split; [lia | exact Hj].
Qed.

Lemma codeOf_elem (al : list ascii) (c : ascii) :
  c ∈ al -> is_Some (codeOf al c).
Proof.
  induction al as [| a al IH]; intros Hin; [by apply elem_of_nil in Hin |].
  simpl. destruct (Ascii.eqb_spec a c) as [-> | Hne]; [by eexists |].
  apply elem_of_cons in Hin as [-> | Hin]; [congruence |].
  destruct (IH Hin) as [j ->]. by eexists.
Qed.

Lemma find_code_nodup (es : list Entry) (e : Entry) :
  NoDup (map code es) -> e ∈ es -> find (fun x => code x =? code e) es = Some e.
Proof.
  induction es as [| x es IH]; intros Hnd Hin; [by apply elem_of_nil in Hin |].
  simpl in *. apply NoDup_cons in Hnd as [Hx Hnd].
  apply elem_of_cons in Hin as [-> | Hin].
  - by rewrite Nat.eqb_refl.
  - destruct (Nat.eqb_spec (code x) (code e)) as [Heq | _]; [| by apply IH].
    exfalso. apply Hx. rewrite Heq. apply list_elem_of_fmap. by exists e.
Qed.

Lemma find_some_elem (f : Entry -> bool) (es : list Entry) (e : Entry) :
  find f es = Some e -> e ∈ es /\ f e = true.
Proof.
  intros H. apply find_some in H as [Hin Hf]. split; [by apply list_elem_of_In | exact Hf].
Qed.

Lemma find_code_stored (es : list Entry) (n k : nat) (new : Entry) :
  code new = n ->
  find (fun x => code x =? k) (filter (fun e => code e ≠ n) es ++ [new])
  = if k =? n then Some new else find (fun x => code x =? k) es.
Proof.
  intros Hnew. induction es as [| x es IH].
  - simpl. rewrite Hnew. rewrite (Nat.eqb_sym n k). by destruct (k =? n).
  - rewrite filter_cons. destruct (decide (code x ≠ n)) as [Hx | Hx].
    + simpl. destruct (Nat.eqb_spec (code x) k) as [Hk | Hk].
      * subst k. destruct (Nat.eqb_spec (code x) n); [contradiction | reflexivity].
      * exact IH.
    + assert (code x = n) as Hxn by (destruct (decide (code x = n)); [done | contradiction]).
      rewrite IH. simpl. destruct (Nat.eqb_spec k n) as [-> | Hkn]; [reflexivity |].
      destruct (Nat.eqb_spec (code x) k); [lia | reflexivity].
Qed.

Lemma selectVictim_elem (p : Policy) (es : list Entry) (v : Entry) :
  selectVictim p es = Some v -> v ∈ es.
Proof.
  revert v. induction es as [| e es IH]; intros v; simpl; [discriminate |].
  destruct (selectVictim p es) as [b |].
  - intros [= <-]. destruct (precedes p e b); [left | right; by apply IH].
  - intros [= <-]. left.
Qed.

Section Book.
Variable cfg : Config.
Hypothesis Hvalid : ValidWidths cfg.

Lemma capacity_minW : 2 ^ minW cfg <= capacity cfg.
Proof. unfold capacity. apply Nat.pow_le_mono_r; [lia | apply Hvalid]. Qed.

Lemma wf_init : WellFormed cfg (init cfg).
Proof.
  destruct Hvalid as [[H1 H2] H3]. pose proof capacity_minW.
  constructor; cbn [init entries width entryCount clock].
  - constructor.
  - constructor.
  - lia.
  - exact H3.
  - lia.
Qed.

Lemma touch_codes (cb : Codebook) (k : nat) :
  map code (entries (touch cb k)) = map code (entries cb).
Proof.
  simpl. rewrite map_map. apply map_ext. intros e. by destruct (code e =? k).
Qed.

Lemma wf_touch (cb : Codebook) (k : nat) :
  WellFormed cfg cb -> WellFormed cfg (touch cb k).
Proof.
  intros [Hc Hn Hcnt Hf Hw]. constructor; try exact Hcnt; try exact Hf; try exact Hw.
  - apply Forall_forall. intros e He. simpl in He.
    apply list_elem_of_fmap in He as [e0 [-> He0]].
    rewrite Forall_forall in Hc. specialize (Hc e0 He0).
    simpl. by destruct (code e0 =? k).
  - rewrite touch_codes. exact Hn.
Qed.

Lemma wf_grow (cb : Codebook) :
  WellFormed cfg cb ->
  WellFormed cfg (growWidthIfNeeded cfg cb) /\ Room cfg (growWidthIfNeeded cfg cb).
Proof.
  intros [Hc Hn Hcnt Hf Hw]. unfold growWidthIfNeeded, Room.
  assert (1 <= 2 ^ width cb) by (apply Nat.neq_0_lt_0, Nat.pow_nonzero; lia).
  destruct (Nat.ltb_spec (2 ^ width cb - 1) (entryCount cb + 1)) as [Hg | Hg];
    destruct (Nat.ltb_spec (width cb) (maxW cfg)) as [Hm | Hm];
    cbn [andb entries width entryCount clock].
  - pose proof (Nat.pow_succ_r' 2 (width cb)) as Hp.
    split; [constructor; cbn [entries width entryCount clock]; try done |]; lia.
  - split; [by constructor |]. unfold capacity.
    replace (width cb) with (maxW cfg) by lia. lia.
  - split; [by constructor |]. lia.
  - split; [by constructor |]. lia.
Qed.

Lemma nextCode_range (cb : Codebook) (n : nat) :
  WellFormed cfg cb -> nextCode cfg cb = Some n ->
  firstCode cfg <= n /\
  (if entryCount cb <? capacity cfg then n = entryCount cb else n < entryCount cb).
Proof.
  intros [Hc Hn Hcnt Hf Hw]. unfold nextCode.
  destruct (Nat.ltb_spec (entryCount cb) (capacity cfg)) as [Hlt | Hge].
  - intros [= <-]. lia.
  - rewrite Forall_forall in Hc.
    destruct (policy cfg); try discriminate.
    + destruct (selectVictim Lru (entries cb)) as [v |] eqn:Hv; [| discriminate].
      intros [= <-]. apply selectVictim_elem in Hv. apply Hc in Hv. lia.
    + destruct (selectVictim Lfu (entries cb)) as [v |] eqn:Hv; [| discriminate].
      intros [= <-]. apply selectVictim_elem in Hv. apply Hc in Hv. lia.
Qed.

Lemma wf_store (cb : Codebook) (s : list ascii) :
  WellFormed cfg cb -> Room cfg cb -> WellFormed cfg (store cfg cb s).
Proof.
  intros Hwf Hroom. unfold store.
  destruct (nextCode cfg cb) as [n |] eqn:Hnext; [| exact Hwf].
  destruct (nextCode_range cb n Hwf Hnext) as [Hlo Hhi].
  destruct Hwf as [Hc Hn Hcnt Hf Hw]. unfold Room in Hroom.
  rewrite Forall_forall in Hc.
  constructor; simpl.
  - apply Forall_app. split.
    + apply Forall_forall. intros e He. apply list_elem_of_filter in He as [_ He].
      specialize (Hc e He). destruct (entryCount cb <? capacity cfg); lia.
    + constructor; [| constructor]. simpl.
      destruct (entryCount cb <? capacity cfg); lia.
  - rewrite map_app. simpl. apply NoDup_app. split; [| split].
    + apply (NoDup_fmap_2_strong code); [| by apply NoDup_filter, (NoDup_fmap_1 code)].
      intros x y Hx Hy Hxy. apply list_elem_of_filter in Hx as [_ Hx].
      apply list_elem_of_filter in Hy as [_ Hy].
      apply list_elem_of_lookup in Hx as [i Hi]. apply list_elem_of_lookup in Hy as [j Hj].
      assert (i = j).
      { eapply (NoDup_lookup (map code (entries cb))); [exact Hn | |].
        - rewrite list_lookup_fmap, Hi. reflexivity.
        - rewrite list_lookup_fmap, Hj. simpl. by rewrite Hxy. }
      subst j. congruence.
    + intros k Hk Hk'. apply list_elem_of_fmap in Hk as [e [-> He]].
      apply list_elem_of_filter in He as [Hne _].
      apply list_elem_of_singleton in Hk'. contradiction.
    + apply NoDup_singleton.
  - destruct (Nat.ltb_spec (entryCount cb) (capacity cfg)); lia.
  - destruct (Nat.ltb_spec (entryCount cb) (capacity cfg)); [by apply Hroom | exact Hf].
  - exact Hw.
Qed.

Lemma store_width (cb : Codebook) (s : list ascii) :
  width (store cfg cb s) = width cb.
Proof. unfold store. by destruct (nextCode cfg cb). Qed.

(** Reading back what the encoder looked up. *)
Lemma lookupCode_lookupSequence (cb : Codebook) (s : list ascii) (k : nat) :
  WellFormed cfg cb -> lookupSequence cfg cb s = Some k -> lookupCode cfg cb k = Some s.
Proof.
  intros [Hc Hn Hcnt Hf Hw] Hs. unfold lookupSequence in Hs. unfold lookupCode.
  destruct s as [| c [| c' s]]; [discriminate | |].
  - apply codeOf_Some in Hs as [Hlt Hk].
    destruct (Nat.ltb_spec k (length (alphabet cfg))); [| lia].
    unfold symbolOf. by rewrite Hk.
  - destruct (find _ (entries cb)) as [e |] eqn:He; [| discriminate].
    injection Hs as <-. apply find_some_elem in He as [Hin Hseq].
    apply bool_decide_eq_true in Hseq.
    rewrite Forall_forall in Hc. specialize (Hc e Hin). unfold firstCode in Hc.
    destruct (Nat.ltb_spec (code e) (length (alphabet cfg))); [lia |].
    rewrite (find_code_nodup _ e Hn Hin). simpl. by rewrite Hseq.
Qed.

Lemma lookupSequence_range (cb : Codebook) (s : list ascii) (k : nat) :
  WellFormed cfg cb -> lookupSequence cfg cb s = Some k ->
  k < entryCount cb /\ k <> eofCode cfg /\
  (is_reset (policy cfg) = true -> k <> resetCode cfg).
Proof.
  intros [Hc Hn Hcnt Hf Hw] Hs. unfold lookupSequence in Hs.
  unfold firstCode, eofCode, resetCode in *.
  destruct s as [| c [| c' s]]; [discriminate | |].
  - apply codeOf_Some in Hs as [Hlt _]. repeat split; try lia.
  - destruct (find _ (entries cb)) as [e |] eqn:He; [| discriminate].
    injection Hs as <-. apply find_some_elem in He as [Hin _].
    rewrite Forall_forall in Hc. specialize (Hc e Hin).
    assert (1 <= markers (policy cfg)) by (destruct (policy cfg); simpl; lia).
    repeat split; try lia.
    intros Hr. destruct (policy cfg); try discriminate. simpl in *. lia.
Qed.

(** The entry a store writes, and the entries it leaves alone. *)
Lemma lookupCode_store (cb : Codebook) (s : list ascii) (n k : nat) :
  WellFormed cfg cb -> nextCode cfg cb = Some n ->
  lookupCode cfg (store cfg cb s) k = if k =? n then Some s else lookupCode cfg cb k.
Proof.
  intros Hwf Hnext. destruct (nextCode_range cb n Hwf Hnext) as [Hlo _].
  unfold store. rewrite Hnext. unfold lookupCode. simpl.
  unfold firstCode in Hlo.
  rewrite find_code_stored by reflexivity.
  destruct (Nat.eqb_spec k n) as [-> | Hne]; [| reflexivity].
  destruct (Nat.ltb_spec n (length (alphabet cfg))); [lia | reflexivity].
Qed.

Lemma store_unchanged (cb : Codebook) (s : list ascii) :
  nextCode cfg cb = None -> store cfg cb s = cb.
Proof. intros H. unfold store. by rewrite H. Qed.
End Book.

(** ** The codec model: the decoder follows the encoder *)

Lemma codewords_bits_cons (v w : nat) (ws : list (nat * nat)) :
  codewords_bits ((v, w) :: ws) = write_bits w v ++ codewords_bits ws.
Proof. reflexivity. Qed.

Lemma codewords_bits_app (ws1 ws2 : list (nat * nat)) :
  codewords_bits (ws1 ++ ws2) = codewords_bits ws1 ++ codewords_bits ws2.
Proof. unfold codewords_bits. apply flat_map_app. Qed.

Section Simulation.
Variable cfg : Config.
Hypothesis Hvalid : ValidWidths cfg.

Lemma marker_codes (cb : Codebook) :
  WellFormed cfg cb ->
  eofCode cfg < 2 ^ width cb /\
  (is_reset (policy cfg) = true -> resetCode cfg < 2 ^ width cb).
Proof.
  intros [Hc Hn Hcnt Hf Hw]. unfold firstCode, eofCode, resetCode in *.
  assert (1 <= markers (policy cfg)) by (destruct (policy cfg); simpl; lia).
  split; [lia |]. intros Hr. destruct (policy cfg); try discriminate. simpl in *. lia.
Qed.

Lemma encode_nonempty (input : list ascii) (cb : Codebook) (buf : list ascii)
    (k : nat) (ws : list (nat * nat)) :
  encode cfg cb (Some (buf, k)) input = inr ws -> ws <> [].
Proof.
  revert cb buf k ws. induction input as [| c input IH]; intros cb buf k ws.
  - simpl. intros [= <-]. discriminate.
  - simpl. destruct (codeOf (alphabet cfg) c) as [kc |]; [| discriminate].
    destruct (lookupLongestPrefix cfg cb buf c) as [k' |]; [apply IH |].
    destruct (insertSequence cfg _ _) as [cb2 marker].
    destruct (encode cfg cb2 _ input); [discriminate |].
    intros [= <-]. discriminate.
Qed.

Lemma take_1_self (buf p : list ascii) :
  p <> [] -> buf = p ++ take 1 buf -> buf = p ++ take 1 p.
Proof.
  intros Hp Hbuf. destruct p as [| x p]; [contradiction |].
  rewrite Hbuf at 1. f_equal. rewrite Hbuf. reflexivity.
Qed.

(** One codeword of the encoder, read by the decoder. *)
Lemma decode_codeword_step (cbe cbd : Codebook) (buf : list ascii) (k : nat)
    (prev : option (list ascii)) :
  WellFormed cfg cbe ->
  InStep cfg cbe (Some (buf, k)) cbd prev ->
  decode_codeword cfg cbd prev k
    = Continue (growWidthIfNeeded cfg (touch cbe k)) (Some buf) buf
  /\ width cbd = width cbe /\ k < 2 ^ width cbe.
Proof.
  intros Hwf Hin.
  assert (Hlook : lookupSequence cfg cbe buf = Some k) by (inversion Hin; assumption).
  destruct (lookupSequence_range cfg cbe buf k Hwf Hlook) as (Hlt & Heof & Hreset).
  pose proof (lookupCode_lookupSequence cfg cbe buf k Hwf Hlook) as Hcode.
  assert (Hfit : k < 2 ^ width cbe) by (destruct Hwf; lia).
  unfold decode_codeword.
  destruct (Nat.eqb_spec k (eofCode cfg)) as [? | _]; [contradiction |].
  assert (Hnr : is_reset (policy cfg) && (k =? resetCode cfg) = false).
  { destruct (is_reset (policy cfg)); [| reflexivity].
    destruct (Nat.eqb_spec k (resetCode cfg)) as [? | _]; [| reflexivity].
    by destruct Hreset. }
  rewrite Hnr. clear Hnr.
  inversion Hin as [| buf' k' Hl | buf' k' cbd' p Hp Hl Hst Hwfd]; subst.
  - simpl. rewrite Hcode. done.
  - rewrite store_width in Hfit |- *. split; [| done].
    assert (Hres : resolve cfg cbd (Some p) k = Some buf).
    { unfold resolve.
      destruct (nextCode cfg cbd) as [n |] eqn:Hnext.
      - rewrite (lookupCode_store cfg cbd _ n k Hwfd Hnext) in Hcode.
        destruct (Nat.eqb_spec k n) as [-> | Hne].
        + rewrite bool_decide_eq_true_2 by reflexivity.
          injection Hcode as Hb. f_equal. symmetry. by apply take_1_self.
        + rewrite bool_decide_eq_false_2 by congruence. exact Hcode.
      - rewrite bool_decide_eq_false_2 by discriminate.
        by rewrite store_unchanged in Hcode. }
    rewrite Hres. reflexivity.
Qed.

Lemma wf_after_codeword (cb : Codebook) (k : nat) :
  WellFormed cfg cb ->
  WellFormed cfg (growWidthIfNeeded cfg (touch cb k))
  /\ Room cfg (growWidthIfNeeded cfg (touch cb k)).
Proof. intros Hwf. by apply wf_grow, wf_touch. Qed.

(** The decoder reproduces the input from the encoder's codewords. *)
Lemma decode_encode (input : list ascii) :
  forall (cbe : Codebook) (pending : option (list ascii * nat)) (cbd : Codebook)
         (prev : option (list ascii)) (ws : list (nat * nat)) (fuel : nat)
         (rest : list bool),
    WellFormed cfg cbe ->
    InStep cfg cbe pending cbd prev ->
    encode cfg cbe pending input = inr ws ->
    ws <> [] ->
    length ws <= fuel ->
    decode cfg fuel cbd prev (codewords_bits ws ++ rest)
      = inr (buffer_of pending ++ input).
Proof.
  induction input as [| c input IH];
    intros cbe pending cbd prev ws fuel rest Hwf Hin Henc Hne Hfuel.
  - (* flush *)
    cbn [encode] in Henc. injection Henc as <-.
    destruct pending as [[buf k] |]; [| contradiction].
    destruct (decode_codeword_step cbe cbd buf k prev Hwf Hin) as (Hstep & Hw & Hk).
    destruct (wf_after_codeword cbe k Hwf) as [Hwf1 _].
    destruct (marker_codes _ Hwf1) as [Heof _].
    cbn [flush length] in *.
    destruct fuel as [| [| fuel]]; [lia | lia |].
    rewrite !codewords_bits_cons. cbn [codewords_bits flat_map].
    cbn [decode]. rewrite Hw, <- app_assoc, read_write_bits by exact Hk.
    rewrite Hstep. rewrite <- app_assoc, read_write_bits by exact Heof.
    unfold decode_codeword. rewrite Nat.eqb_refl. reflexivity.
  - cbn [encode] in Henc.
    destruct (codeOf (alphabet cfg) c) as [kc |] eqn:Hkc; [| discriminate].
    destruct pending as [[buf k] |].
    + destruct (lookupLongestPrefix cfg cbe buf c) as [k' |] eqn:Hext.
      * (* the buffer grows *)
        cbn [buffer_of]. replace (buf ++ c :: input) with ((buf ++ [c]) ++ input)
          by (by rewrite <- app_assoc).
        apply (IH cbe (Some (buf ++ [c], k')) cbd prev ws fuel rest Hwf); try done.
        inversion Hin as [| buf' k0 Hl | buf' k0 cbd' p Hp Hl Hst Hwfd]; subst.
        -- by constructor.
        -- constructor; try done.
           destruct buf as [| x buf]; [discriminate | reflexivity].
      * (* a codeword is emitted *)
        destruct (decode_codeword_step cbe cbd buf k prev Hwf Hin) as (Hstep & Hw & Hk).
        destruct (wf_after_codeword cbe k Hwf) as [Hwf1 Hroom1].
        set (cb1 := growWidthIfNeeded cfg (touch cbe k)) in *.
        assert (Hbuf : buf <> []).
        { inversion Hin; subst; intros ->; discriminate. }
        unfold insertSequence in Henc.
        destruct (saturated cfg cb1 && is_reset (policy cfg)) eqn:Hsat.
        -- (* reset: a marker follows the codeword *)
           destruct (encode cfg (init cfg) (Some ([c], kc)) input) as [| out] eqn:Hout;
             [discriminate |].
           injection Henc as <-.
           apply andb_prop in Hsat as [_ Hreset].
           destruct (marker_codes _ Hwf1) as [_ Hrc]. specialize (Hrc Hreset).
           cbn [length app] in Hfuel.
           destruct fuel as [| [| fuel]]; [lia | lia |].
           cbn [app]. rewrite !codewords_bits_cons.
           cbn [decode]. rewrite Hw, <- app_assoc, read_write_bits by exact Hk.
           rewrite Hstep. fold cb1.
           rewrite <- app_assoc, read_write_bits by exact Hrc.
           unfold decode_codeword at 1.
           destruct (Nat.eqb_spec (resetCode cfg) (eofCode cfg)) as [Habs | _];
             [unfold resetCode, eofCode in Habs; lia |].
           rewrite Hreset, Nat.eqb_refl. cbn [andb].
           rewrite (IH (init cfg) (Some ([c], kc)) (init cfg) None out fuel rest).
           ++ cbn [buffer_of app]. reflexivity.
           ++ by apply wf_init.
           ++ by constructor.
           ++ exact Hout.
           ++ by eapply encode_nonempty.
           ++ lia.
        -- (* the buffer is stored *)
           destruct (encode cfg (store cfg cb1 (buf ++ [c])) (Some ([c], kc)) input)
             as [| out] eqn:Hout; [discriminate |].
           injection Henc as <-.
           cbn [length app] in Hfuel.
           destruct fuel as [| fuel]; [lia |].
           cbn [app]. rewrite codewords_bits_cons.
           cbn [decode]. rewrite Hw, <- app_assoc, read_write_bits by exact Hk.
           rewrite Hstep. fold cb1.
           rewrite (IH (store cfg cb1 (buf ++ [c])) (Some ([c], kc)) cb1 (Some buf)
                       out fuel rest).
           ++ cbn [buffer_of app]. reflexivity.
           ++ by apply wf_store.
           ++ by constructor.
           ++ exact Hout.
           ++ by eapply encode_nonempty.
           ++ lia.
    + (* the first symbol *)
      inversion Hin; subst.
      apply (IH cbd (Some ([c], kc)) cbd None ws fuel rest Hwf); try done.
      by constructor.
Qed.
End Simulation.

(** ** The codec model: round trip *)

Lemma policy_of_policy_tag (p : Policy) :
  policy_of_tag (nat_of_ascii (ascii_of_nat (policy_tag p))) = Some p.
Proof. by destruct p. Qed.

Lemma read_header_header (cfg : Config) (body : list ascii) :
  minW cfg < 256 -> maxW cfg < 256 -> length (alphabet cfg) < 256 * 256 ->
  read_header (header cfg ++ body) = Some (cfg, body).
Proof.
  intros Hmin Hmax Hlen. unfold header, read_header. cbn [app].
  rewrite policy_of_policy_tag.
  rewrite !nat_ascii_embedding; try lia.
  - assert (Hr : length (alphabet cfg) `div` 256 * 256 + length (alphabet cfg) `mod` 256
                 = length (alphabet cfg)).
    { pose proof (Nat.div_mod_eq (length (alphabet cfg)) 256). lia. }
    rewrite Hr. rewrite length_app.
    destruct (Nat.ltb_spec (length (alphabet cfg) + length body) (length (alphabet cfg)));
      [lia |].
    rewrite take_app_length, drop_app_length. by destruct cfg.
  - apply Nat.mod_upper_bound. lia.
  - apply Nat.Div0.div_lt_upper_bound. lia.
Qed.

Section RoundTrip.
Variable cfg : Config.
Hypothesis Hvalid : ValidWidths cfg.

Lemma wf_insertSequence (cb : Codebook) (s : list ascii) :
  WellFormed cfg cb -> Room cfg cb ->
  WellFormed cfg (fst (insertSequence cfg cb s)) /\
  Forall (fun vw => minW cfg <= snd vw <= maxW cfg) (snd (insertSequence cfg cb s)).
Proof.
  intros Hwf Hroom. unfold insertSequence.
  destruct (saturated cfg cb && is_reset (policy cfg)); cbn [fst snd].
  - split; [by apply wf_init |]. constructor; [| constructor]. apply Hwf.
  - split; [by apply wf_store | constructor].
Qed.

(** Width bounds: every codeword is written with a width between minW and maxW. *)
Lemma encode_widths (input : list ascii) :
  forall (cb : Codebook) (pending : option (list ascii * nat)) (ws : list (nat * nat)),
    WellFormed cfg cb ->
    encode cfg cb pending input = inr ws ->
    Forall (fun vw => minW cfg <= snd vw <= maxW cfg) ws.
Proof.
  induction input as [| c input IH]; intros cb pending ws Hwf Henc.
  - cbn [encode] in Henc. injection Henc as <-.
    destruct pending as [[buf k] |]; [| constructor].
    destruct (wf_after_codeword cfg cb k Hwf) as [Hwf1 _].
    cbn [flush]. repeat constructor; cbn [snd]; try apply Hwf; apply Hwf1.
  - cbn [encode] in Henc.
    destruct (codeOf (alphabet cfg) c) as [kc |]; [| discriminate].
    destruct pending as [[buf k] |]; [| by eapply IH].
    destruct (lookupLongestPrefix cfg cb buf c) as [k' |]; [by eapply IH |].
    destruct (wf_after_codeword cfg cb k Hwf) as [Hwf1 Hroom1].
    destruct (wf_insertSequence _ (buf ++ [c]) Hwf1 Hroom1) as [Hwf2 Hmark].
    destruct (insertSequence cfg _ (buf ++ [c])) as [cb2 marker]. cbn [fst snd] in *.
    destruct (encode cfg cb2 (Some ([c], kc)) input) as [| out] eqn:Hout; [discriminate |].
    injection Henc as <-. constructor; [cbn [snd]; apply Hwf |].
    apply Forall_app. split; [exact Hmark | by eapply IH].
Qed.

(** The encoder accepts every input over the alphabet. *)
Lemma encode_total (input : list ascii) :
  forall (cb : Codebook) (pending : option (list ascii * nat)),
    Forall (fun c => c ∈ alphabet cfg) input ->
    exists ws, encode cfg cb pending input = inr ws.
Proof.
  induction input as [| c input IH]; intros cb pending Hal.
  - eexists. reflexivity.
  - apply Forall_cons in Hal as [Hc Hal]. cbn [encode].
    destruct (codeOf_elem _ _ Hc) as [kc ->].
    destruct pending as [[buf k] |]; [| by apply IH].
    destruct (lookupLongestPrefix cfg cb buf c) as [k' |]; [by apply IH |].
    destruct (insertSequence cfg _ _) as [cb2 marker].
    destruct (IH cb2 (Some ([c], kc)) Hal) as [out ->]. by eexists.
Qed.

Lemma length_codewords_bits (ws : list (nat * nat)) :
  Forall (fun vw => minW cfg <= snd vw <= maxW cfg) ws ->
  length ws <= length (codewords_bits ws).
Proof.
  destruct Hvalid as [[Hmin _] _].
  induction 1 as [| [v w] ws Hw _ IH]; [reflexivity |].
  rewrite codewords_bits_cons, length_app, length_write_bits. simpl in *. lia.
Qed.

Hypothesis Hmax : maxW cfg < 256.
Hypothesis Hlen : length (alphabet cfg) < 256 * 256.

(** Round trip. *)
Lemma expand_compress (input : list ascii) :
  Forall (fun c => c ∈ alphabet cfg) input ->
  exists bytes, compress cfg input = inr bytes /\ expand bytes = inr input.
Proof.
  intros Hal. unfold compress.
  destruct (encode_total input (init cfg) None Hal) as [ws Hws]. rewrite Hws.
  eexists. split; [reflexivity |].
  unfold expand. rewrite read_header_header; [| destruct Hvalid; lia | done | done].
  destruct input as [| c input].
  - cbn [encode flush] in Hws. injection Hws as <-. reflexivity.
  - assert (Hne : ws <> []).
    { cbn [encode] in Hws. destruct (codeOf (alphabet cfg) c); [| discriminate].
      by eapply encode_nonempty. }
    pose proof (encode_widths _ _ _ _ (wf_init cfg Hvalid) Hws) as Hwidths.
    pose proof (length_codewords_bits ws Hwidths) as Hbits.
    destruct (pack (codewords_bits ws)) as [| b body] eqn:Hpack.
    { apply pack_nil_inv in Hpack. rewrite Hpack in Hbits.
      destruct ws; [contradiction | simpl in Hbits; lia]. }
    rewrite <- Hpack. rewrite <- length_unpack.
    destruct (unpack_pack (codewords_bits ws)) as [pad Hpad]. rewrite Hpad.
    rewrite (decode_encode cfg Hvalid (c :: input) (init cfg) None (init cfg) None ws).
    + reflexivity.
    + by apply wf_init.
    + constructor.
    + exact Hws.
    + exact Hne.
    + rewrite length_app. lia.
Qed.
End RoundTrip.

(** ** The drivers: files left behind *)

Lemma cleanup_run (env : Env) (paths : list string) (w : World env) :
  cleanup paths w
  = (Returned tt, with_files w (fold_left (fun fs p => delete p fs) paths (files w))).
Proof.
  revert w. induction paths as [| p paths IH]; intros w.
  - destruct w. reflexivity.
  - cbn [cleanup fold_left]. unfold bind, path_exists, os_remove, ret.
    destruct (files w !! p) as [content |] eqn:Hp.
    + rewrite bool_decide_eq_true_2 by (by eexists). rewrite Hp.
      rewrite IH. reflexivity.
    + rewrite bool_decide_eq_false_2 by (intros [? ?]; congruence).
      rewrite IH. rewrite (delete_id (files w) p Hp). by destruct w.
Qed.

Lemma fold_delete_lookup (paths : list string) (fs : gmap string string) (p : string) :
  p ∈ paths -> fold_left (fun fs p => delete p fs) paths fs !! p = None.
Proof.
  revert fs. induction paths as [| q paths IH]; intros fs Hin.
  - by apply elem_of_nil in Hin.
  - cbn [fold_left]. destruct (decide (p ∈ paths)) as [Hp | Hp]; [by apply IH |].
    apply elem_of_cons in Hin as [-> | Hin]; [| contradiction].
    clear IH. revert fs. induction paths as [| r paths IH]; intros fs.
    + apply lookup_delete_eq.
    + cbn [fold_left]. apply not_elem_of_cons in Hp as [Hqr Hp].
      rewrite (delete_delete fs). by apply IH.
Qed.

Lemma try_finally_cleanup_files (env : Env) (A : Type) (body : Py env A)
    (paths : list string) (w : World env) (p : string) :
  p ∈ paths -> files (snd (try_finally body (cleanup paths) w)) !! p = None.
Proof.
  intros Hin. unfold try_finally. destruct (body w) as [r w1].
  rewrite cleanup_run. cbn [snd with_files files]. by apply fold_delete_lookup.
Qed.

Lemma try_finally_cleanup_run (env : Env) (A : Type) (body : Py env A)
    (paths : list string) (w : World env) :
  try_finally body (cleanup paths) w
  = (fst (body w),
     with_files (snd (body w))
       (fold_left (fun fs p => delete p fs) paths (files (snd (body w))))).
Proof.
  unfold try_finally. destruct (body w) as [r w1]. by rewrite cleanup_run.
Qed.

Lemma run_redirected_run (env : Env) (argv : list string) (i o : string)
    (w : World env) (data : string) :
  files w !! i = Some data ->
  run_redirected argv i o w
  = match spawn env argv data (<[o := ""]> (files w)) with
    | Returned r => (Returned r, with_files w (<[o := stdout r]> (files w)))
    | Raised e => (Raised e, with_files w (<[o := ""]> (files w)))
    end.
Proof.
  intros Hi. unfold run_redirected, bind, read_file, write_file, subprocess_run, ret.
  rewrite Hi. cbn [files console rng generated].
  destruct (spawn env argv data (<[o:=""]> (files w))) as [r | e]; [| reflexivity].
  rewrite insert_insert_eq. reflexivity.
Qed.

Lemma length_append (s t : string) :
  String.length (s +:+ t) = String.length s + String.length t.
Proof. induction s as [| c s IH]; simpl; [reflexivity | by rewrite IH]. Qed.

Lemma append_nonempty_ne (s t : string) : t <> ""%string -> (s +:+ t)%string <> s.
Proof.
  intros Ht Heq. apply Ht.
  assert (Hlen : String.length (s +:+ t) = String.length s) by (by rewrite Heq).
  rewrite length_append in Hlen. destruct t; [reflexivity | simpl in Hlen; lia].
Qed.

Lemma append_inj_r (s t u : string) : (s +:+ t)%string = (s +:+ u)%string -> t = u.
Proof. induction s as [| c s IH]; simpl; [done |]. intros [= H]. by apply IH. Qed.

Lemma ratio_compress_expand_test_total (c o : Z) :
  exists q, ratio_compress_expand_test c o = Returned q.
Proof.
  unfold ratio_compress_expand_test, truediv.
  destruct (Z.ltb_spec 0 o); [| by eexists].
  destruct (Z.eqb_spec (Z.max o 1) 0); [lia | by eexists].
Qed.

(** ** Text-mode reads *)

Lemma read_text_run (env : Env) (path : string) (w : World env) (content : string) :
  files w !! path = Some content -> read_text path w = (decode_text content, w).
Proof.
  intros Hp. unfold read_text, bind, read_file, lift. rewrite Hp.
  by destruct (decode_text content).
Qed.

Lemma append_nonempty_l (s t : string) : s <> ""%string -> (s +:+ t)%string <> ""%string.
Proof. by destruct s. Qed.

Lemma utf8_decode_sequence (s : string) :
  forall (k : nat) (lo hi : N) (seq text : string),
    utf8_decode false (S k) lo hi seq s = Some text -> seq <> ""%string -> text <> ""%string.
Proof.
  induction s as [| c rest IH]; intros k lo hi seq text; [discriminate |].
  cbn [utf8_decode]. destruct (in_range lo hi c); [| discriminate].
  destruct k as [| k].
  - destruct (utf8_decode false 0 0 0 "" rest) as [t |]; [| discriminate].
    cbn [fmap option_fmap option_map]. intros [= <-] Hseq. by apply append_nonempty_l.
  - intros Hrun Hseq. apply (IH _ _ _ _ _ Hrun). by apply append_nonempty_l.
Qed.

Lemma utf8_decode_empty (content : string) :
  utf8_decode false 0 0 0 "" content = Some ""%string -> content = ""%string.
Proof.
  destruct content as [| c rest]; [reflexivity |]. cbn [utf8_decode].
  destruct (utf8_lead c) as [[[| k] [lo hi]] |]; [| | discriminate].
  - destruct (utf8_decode false 0 0 0 "" rest); discriminate.
  - intros H. by destruct (utf8_decode_sequence rest k lo hi _ _ H).
Qed.

Lemma universal_newlines_empty (s : string) :
  universal_newlines s = ""%string -> s = ""%string.
Proof.
  destruct s as [| c rest]; [reflexivity |]. cbn [universal_newlines].
  destruct (Ascii.eqb c "013"); [| discriminate].
  destruct rest as [| c' rest']; [discriminate |]. by destruct (Ascii.eqb c' "010").
Qed.

(** Read as text, only the empty file is the empty string. *)
Lemma decode_text_empty (content : string) :
  decode_text content = Returned ""%string <-> content = ""%string.
Proof.
  split; [| by intros ->]. unfold decode_text.
  destruct (utf8_decode false 0 0 0 "" content) as [text |] eqn:Hd; [| discriminate].
  intros [= Ht]. apply universal_newlines_empty in Ht. subst text.
  by apply utf8_decode_empty.
Qed.

Lemma reads_as_empty (produced : option string) :
  reads_as produced "" <-> produced = Some ""%string.
Proof.
  split.
  - intros (content & -> & Hd). apply decode_text_empty in Hd. by subst.
  - intros ->. by exists ""%string.
Qed.

(** Plain text is read back as it is. *)
Lemma decode_text_plain (s : string) :
  forallb plain_char (list_ascii_of_string s) = true -> decode_text s = Returned s.
Proof.
  intros Hs.
  assert (Hd : utf8_decode false 0 0 0 "" s = Some s /\ universal_newlines s = s).
  { induction s as [| c rest IH]; [done |].
    cbn [list_ascii_of_string forallb] in Hs. apply andb_true_iff in Hs as [Hc Hs].
    destruct (IH Hs) as [IH1 IH2]. unfold plain_char in Hc.
    apply andb_true_iff in Hc as [Hlt Hcr]. apply negb_true_iff in Hcr.
    split.
    - cbn [utf8_decode]. unfold utf8_lead. cbv zeta. rewrite Hlt. by rewrite IH1.
    - cbn [universal_newlines]. rewrite Hcr. by rewrite IH2. }
  unfold decode_text. destruct Hd as [-> Hn]. by rewrite Hn.
Qed.

(** A sequence over an alphabet of plain characters is read back as it
    is. *)
Lemma over_alphabet_plain (al : list ascii) (s : string) :
  forallb plain_char al = true -> over_alphabet al s -> decode_text s = Returned s.
Proof.
  intros Hal Hover. apply decode_text_plain. apply forallb_forall.
  intros c Hc. apply list_elem_of_In in Hc.
  unfold over_alphabet in Hover. rewrite Forall_forall in Hover.
  apply Hover in Hc. apply list_elem_of_In in Hc.
  rewrite forallb_forall in Hal. by apply Hal.
Qed.

(** The text-mode read with [errors='ignore'] decodes every file. *)
Lemma utf8_decode_ignore (s : string) :
  forall (pending : nat) (lo hi : N) (seq : string),
    is_Some (utf8_decode true pending lo hi seq s).
Proof.
  induction s as [| c rest IH]; intros pending lo hi seq.
  - by destruct pending.
  - cbn [utf8_decode].
    assert (Hstart : is_Some
              match utf8_lead c with
              | Some (0, _) => String c <$> utf8_decode true 0 0 0 "" rest
              | Some (S k, (lo', hi')) => utf8_decode true (S k) lo' hi' (String c "") rest
              | None => utf8_decode true 0 0 0 "" rest
              end).
    { destruct (utf8_lead c) as [[[| k] [lo' hi']] |]; [| apply IH | apply IH].
      destruct (IH 0 0%N 0%N ""%string) as [t ->]. by eexists. }
    destruct pending as [| k]; [exact Hstart |].
    destruct (in_range lo hi c); [| exact Hstart].
    destruct k as [| k]; [| apply IH].
    destruct (IH 0 0%N 0%N ""%string) as [t ->]. by eexists.
Qed.

Example decode_text_samples :
  decode_text ("a" +:+ String "013" "b") = Returned ("a" +:+ String "010" "b")
  /\ decode_text (String "013" (String "010" "b")) = Returned (String "010" "b")
  /\ decode_text (String "255" "") = Raised UnicodeDecodeError
  /\ decode_text (String "195" (String "169" "")) = Returned (String "195" (String "169" ""))
  /\ decode_text (String "195" "a") = Raised UnicodeDecodeError
  /\ decode_text (String "237" (String "160" (String "128" ""))) = Raised UnicodeDecodeError
  /\ decode_text_ignore (String "226" (String "130" "a")) = "a"%string
  /\ decode_text_ignore (String "195" (String "195" (String "169" "")))
     = String "195" (String "169" "").
Proof. repeat split; reflexivity. Qed.

(** [compress_expand_test] returns success exactly when the file produced
    by [expand(compress(s))], read as text, equals the input; a success
    carries a ratio. *)
Lemma compress_expand_test_outcome (env : Env) (input_data alphabet_path : string)
    (minW maxW : Z) (policy test_name : string) (w : World env) :
  let input_file := mktemp env ".txt" (files w) in
  let produced :=
    round_trip_output env
      ["java"; "LZWTool"; "--mode"; "compress"; "--minW"; str minW;
       "--maxW"; str maxW; "--policy"; policy; "--alphabet"; alphabet_path]
      input_data (<[input_file := input_data]> (files w))
      (input_file +:+ ".lzw") (input_file +:+ ".out") in
  let result :=
    fst (compress_expand_test input_data alphabet_path minW maxW policy test_name w) in
  (reads_as produced input_data /\ exists ratio, result = Returned (true, Some ratio))
  \/ (~ reads_as produced input_data /\ forall r, result <> Returned (true, r)).
Proof.
  intros input_file. cbv zeta.
  remember (fst (compress_expand_test input_data alphabet_path minW maxW policy
                   test_name w)) as result eqn:Hres.
  unfold compress_expand_test in Hres. unfold reads_as, round_trip_output.
  unfold bind at 1 in Hres. unfold named_temporary_file in Hres. fold input_file in Hres.
  rewrite try_finally_cleanup_run in Hres. cbn [fst] in Hres.
  unfold bind at 1 in Hres. rewrite (run_redirected_run env _ _ _ _ input_data) in Hres
    by (cbn [files]; apply lookup_insert_eq).
  cbn [files with_files console rng generated] in Hres.
  destruct (spawn env _ input_data _) as [c | e]; cbn [fst] in Hres;
    [| subst result; right; split; [intros (? & ? & _) | intros r]; discriminate].
  destruct (Z.eqb_spec (returncode c) 0) as [Hc | Hc]; cbn [negb] in Hres;
    [| unfold bind, log_fail, log, ret in Hres; cbn [fst] in Hres; subst result;
       right; split; [intros (? & ? & _) | intros r]; discriminate].
  unfold bind at 1 in Hres. rewrite (run_redirected_run env _ _ _ _ (stdout c)) in Hres
    by (cbn [files with_files]; apply lookup_insert_eq).
  cbn [files with_files console rng generated] in Hres.
  destruct (spawn env _ (stdout c) _) as [x | e]; cbn [fst] in Hres;
    [| subst result; right; split; [intros (? & ? & _) | intros r]; discriminate].
  destruct (Z.eqb_spec (returncode x) 0) as [Hx | Hx]; cbn [negb] in Hres;
    [| unfold bind, log_fail, log, ret in Hres; cbn [fst] in Hres; subst result;
       right; split; [intros (? & ? & _) | intros r]; discriminate].
  unfold bind at 1 in Hres.
  rewrite (read_text_run env _ _ (stdout x)) in Hres
    by (cbn [files with_files]; apply lookup_insert_eq).
  destruct (decode_text (stdout x)) as [output_data | e] eqn:Htext;
    [| subst result; right; split; [intros (? & [= <-] & ?); congruence | intros r];
       discriminate].
  destruct (String.eqb_spec input_data output_data) as [Heq | Hne].
  - unfold getsize, bind, read_file, ret, lift in Hres. cbn [files with_files] in Hres.
    rewrite lookup_insert_ne in Hres by (intros H; apply append_inj_r in H; discriminate).
    rewrite lookup_insert_eq in Hres.
    destruct (ratio_compress_expand_test_total
                (Z.of_nat (String.length (stdout c))) (len input_data)) as [q Hq].
    rewrite Hq in Hres. cbn [fst] in Hres. subst result.
    left. split; [exists (stdout x); by rewrite Heq | by eexists].
  - unfold bind, log_fail, log, ret in Hres. cbn [fst] in Hres. subst result. right.
    split; [intros (? & [= <-] & ?); congruence | intros r; discriminate].
Qed.

(** ** The command line model on the drivers' commands *)

Lemma parse_int_str (z : Z) : parse_int (str z) = Some z.
Proof.
  unfold parse_int, str. rewrite NilZero.isi.
  - simpl. by rewrite DecimalZ.of_to.
  - destruct z; simpl; try discriminate.
    intros [= H]. by apply DecimalPos.Unsigned.to_uint_nonnil in H.
  - destruct z; simpl; try discriminate.
    intros [= H]. by apply DecimalPos.Unsigned.to_uint_nonnil in H.
Qed.

Lemma LZWTool_compress (minW maxW : Z) (policy : string) (p : Policy)
    (alphabet_path stdin_data : string) (fs : gmap string string) (content : string)
    (al : list ascii) (bytes : list ascii) :
  (2 <= minW <= maxW)%Z ->
  parse_policy (Some policy) = inr p ->
  fs !! alphabet_path = Some content ->
  load_alphabet content = inr al ->
  compress {| alphabet := al; minW := Z.to_nat minW; maxW := Z.to_nat maxW; policy := p |}
           (list_ascii_of_string stdin_data) = inr bytes ->
  LZWTool ["--mode"; "compress"; "--minW"; str minW; "--maxW"; str maxW;
           "--policy"; policy; "--alphabet"; alphabet_path] stdin_data fs
  = {| returncode := 0; stdout := string_of_list_ascii bytes; stderr := "" |}.
Proof.
  intros Hw Hp Hfs Hal Hc. unfold LZWTool.
  cbn [parse_args set_option String.eqb Ascii.eqb Bool.eqb no_options
       opt_mode opt_minW opt_maxW opt_policy opt_alphabet].
  unfold run_mode. cbn [opt_mode String.eqb Ascii.eqb Bool.eqb].
  unfold parse_widths. cbn [opt_minW opt_maxW opt_policy opt_alphabet].
  rewrite !parse_int_str.
  destruct (Z.leb_spec 2 minW); [| lia]. destruct (Z.leb_spec minW maxW); [| lia].
  cbn [andb]. rewrite Hp, Hfs, Hal, Hc. reflexivity.
Qed.

Lemma LZWTool_expand (bytes symbols : list ascii) (fs : gmap string string) :
  expand bytes = inr symbols ->
  LZWTool ["--mode"; "expand"] (string_of_list_ascii bytes) fs
  = {| returncode := 0; stdout := string_of_list_ascii symbols; stderr := "" |}.
Proof.
  intros He. unfold LZWTool.
  cbn [parse_args set_option String.eqb Ascii.eqb Bool.eqb no_options
       opt_mode opt_minW opt_maxW opt_policy opt_alphabet].
  unfold run_mode. cbn [opt_mode String.eqb Ascii.eqb Bool.eqb].
  rewrite list_ascii_of_string_of_list_ascii, He. reflexivity.
Qed.

Lemma nodup_ascii_length (al : list ascii) : NoDup al -> length al <= 256.
Proof.
  intros Hnd.
  assert (Hsub : map nat_of_ascii al ⊆+ seq 0 256).
  { apply NoDup_submseteq.
    - apply NoDup_fmap_2; [| exact Hnd].
      intros a b Hab. rewrite <- (ascii_nat_embedding a), <- (ascii_nat_embedding b).
      by rewrite Hab.
    - intros n Hn. apply list_elem_of_fmap in Hn as [a [-> _]].
      apply elem_of_seq. pose proof (nat_ascii_bounded a). lia. }
  apply submseteq_length in Hsub. rewrite length_map, length_seq in Hsub. exact Hsub.
Qed.

Lemma load_alphabet_nodup (content : string) (al : list ascii) :
  load_alphabet content = inr al -> NoDup al /\ al <> [].
Proof.
  unfold load_alphabet. destruct (alphabet_lines _) as [[| a l] |]; try discriminate.
  destruct (bool_decide (NoDup (a :: l))) eqn:Hnd; [| discriminate].
  intros [= <-]. split; [by apply bool_decide_eq_true in Hnd | discriminate].
Qed.

Lemma parse_policy_known (policy : string) :
  policy ∈ ["freeze"; "reset"; "lru"; "lfu"] ->
  exists p, parse_policy (Some policy) = inr p.
Proof.
  intros Hin. repeat (apply elem_of_cons in Hin as [-> | Hin]; [by eexists |]).
  by apply elem_of_nil in Hin.
Qed.

Lemma valid_config_of_command (al : list ascii) (minW maxW : Z) (p : Policy) :
  NoDup al ->
  (2 <= minW <= maxW)%Z -> (maxW < 256)%Z ->
  length al + 2 <= 2 ^ Z.to_nat minW ->
  ValidConfig {| alphabet := al; minW := Z.to_nat minW; maxW := Z.to_nat maxW; policy := p |}.
Proof.
  rename minW into lo, maxW into hi.
  intros Hnd Hw Hmax Hfit. pose proof (nodup_ascii_length al Hnd).
  unfold ValidConfig, ValidWidths, firstCode. cbn [alphabet minW maxW policy].
  assert (markers p <= 2) by (destruct p; simpl; lia).
  repeat split; lia.
Qed.

(** The modelled tool compresses and expands back what the drivers give it. *)
Lemma round_trip_output_LZWTool (env : Env) (input_data alphabet_path : string)
    (minW maxW : Z) (policy : string) (fs : gmap string string)
    (compressed_file decompressed_file content : string) (al : list ascii) :
  runs_LZWTool env ->
  policy ∈ ["freeze"; "reset"; "lru"; "lfu"] ->
  fs !! alphabet_path = Some content ->
  alphabet_path <> compressed_file ->
  load_alphabet content = inr al ->
  over_alphabet al input_data ->
  (2 <= minW <= maxW)%Z -> (maxW < 256)%Z ->
  length al + 2 <= 2 ^ Z.to_nat minW ->
  round_trip_output env
    ["java"; "LZWTool"; "--mode"; "compress"; "--minW"; str minW;
     "--maxW"; str maxW; "--policy"; policy; "--alphabet"; alphabet_path]
    input_data fs compressed_file decompressed_file = Some input_data.
Proof.
  intros Htool Hpol Hfs Hne Hal Hover Hw Hmax Hfit.
  destruct (parse_policy_known policy Hpol) as [p Hp].
  destruct (load_alphabet_nodup content al Hal) as [Hnd _].
  destruct (valid_config_of_command al minW maxW p Hnd Hw Hmax Hfit) as (Hvw & Hm & Hl).
  destruct (expand_compress _ Hvw Hm Hl (list_ascii_of_string input_data) Hover)
    as (bytes & Hc & He).
  unfold round_trip_output. rewrite Htool.
  rewrite (LZWTool_compress minW maxW policy p alphabet_path input_data _ content al bytes);
    try done; [| by rewrite lookup_insert_ne].
  cbn [returncode stdout Z.eqb]. rewrite Htool.
  rewrite (LZWTool_expand bytes (list_ascii_of_string input_data)) by exact He.
  cbn [returncode stdout Z.eqb]. by rewrite string_of_list_ascii_of_string.
Qed.

Lemma try_except_ret_fst (env : Env) (A : Type) (body : Py env A) (f : PyExn -> A)
    (w : World env) :
  fst (try_except body (fun e => ret (f e)) w)
  = match fst (body w) with
    | Returned a => Returned a
    | Raised (SystemExit s) => Raised (SystemExit s)
    | Raised e => Returned (f e)
    end.
Proof.
  unfold try_except. destruct (body w) as [[a | e] w1]; [reflexivity |].
  by destruct e.
Qed.

Lemma ratio_run_test_total (c o : Z) : exists q, ratio_run_test c o = Returned q.
Proof.
  unfold ratio_run_test, truediv.
  destruct (Z.ltb_spec 0 o); [| by eexists].
  destruct (Z.eqb_spec o 0); [lia | by eexists].
Qed.

Lemma ratio_test_policy_total (c : Z) (s : string) :
  exists q, ratio_test_policy c s = Returned q.
Proof.
  unfold ratio_test_policy, truediv.
  destruct (Z.ltb_spec 0 (len s)); [| by eexists].
  destruct (Z.eqb_spec (len s) 0); [lia | by eexists].
Qed.

(** [run_test] returns success exactly when javac exits with code 0 and
    the file produced by [expand(compress(s))], read as text, equals the
    input. *)
Lemma run_test_outcome (env : Env) (test_name input_data policy : string)
    (minW maxW : Z) (w : World env) :
  let input_file := "test_input_" +:+ test_name +:+ ".txt" in
  let compressed_file := "test_compressed_" +:+ test_name +:+ ".bin" in
  let decompressed_file := "test_decompressed_" +:+ test_name +:+ ".txt" in
  let fs := <[input_file := input_data]> (files w) in
  let compiled :=
    exists j, spawn env argv_javac (sys_stdin env) fs = Returned j
              /\ returncode j = 0%Z in
  let produced :=
    round_trip_output env
      ["java"; "LZWTool"; "--mode"; "compress"; "--minW"; str minW;
       "--maxW"; str maxW; "--policy"; policy; "--alphabet"; "alphabet_ab.txt"]
      input_data fs compressed_file decompressed_file in
  let result := fst (run_test test_name input_data policy minW maxW w) in
  (compiled /\ reads_as produced input_data
   /\ exists ratio, result = Returned (true, Success ratio))
  \/ (~ (compiled /\ reads_as produced input_data)
      /\ forall m, result <> Returned (true, m)).
Proof.
  intros input_file compressed_file decompressed_file fs. cbv zeta.
  remember (fst (run_test test_name input_data policy minW maxW w)) as result eqn:Hres.
  unfold run_test in Hres. unfold reads_as, round_trip_output.
  fold input_file compressed_file decompressed_file in Hres.
  rewrite try_finally_cleanup_run in Hres. cbn [fst] in Hres.
  rewrite try_except_ret_fst in Hres.
  unfold bind at 1 in Hres. unfold write_file at 1 in Hres. fold fs in Hres.
  unfold bind at 1 in Hres. unfold subprocess_run at 1 in Hres. cbn [files] in Hres.
  destruct (spawn env argv_javac (sys_stdin env) fs) as [j | e].
  2:{ cbn [fst] in Hres. right. split; [intros [[j [? _]] _]; discriminate |].
      intros m. subst result. destruct e; discriminate. }
  destruct (Z.eqb_spec (returncode j) 0) as [Hj | Hj]; cbn [negb] in Hres.
  2:{ unfold ret in Hres. cbn [fst] in Hres. subst result. right.
      split; [intros [[j' [[= <-] ?]] _]; contradiction | intros m; discriminate]. }
  unfold bind at 1 in Hres. rewrite (run_redirected_run env _ _ _ _ input_data) in Hres
    by (cbn [files]; apply lookup_insert_eq).
  cbn [files with_files console rng generated] in Hres.
  destruct (spawn env _ input_data _) as [c | e]; cbn [fst] in Hres.
  2:{ right. split; [intros [_ (? & ? & _)]; discriminate |].
      intros m. subst result. destruct e; discriminate. }
  destruct (Z.eqb_spec (returncode c) 0) as [Hc | Hc]; cbn [negb] in Hres.
  2:{ unfold ret in Hres. cbn [fst] in Hres. subst result. right.
      split; [intros [_ (? & ? & _)]; discriminate | intros m; discriminate]. }
  unfold bind at 1 in Hres. rewrite (run_redirected_run env _ _ _ _ (stdout c)) in Hres
    by (cbn [files with_files]; apply lookup_insert_eq).
  cbn [files with_files console rng generated] in Hres.
  destruct (spawn env _ (stdout c) _) as [x | e]; cbn [fst] in Hres.
  2:{ right. split; [intros [_ (? & ? & _)]; discriminate |].
      intros m. subst result. destruct e; discriminate. }
  destruct (Z.eqb_spec (returncode x) 0) as [Hx | Hx]; cbn [negb] in Hres.
  2:{ unfold ret in Hres. cbn [fst] in Hres. subst result. right.
      split; [intros [_ (? & ? & _)]; discriminate | intros m; discriminate]. }
  unfold bind at 1 in Hres.
  rewrite (read_text_run env _ _ (stdout x)) in Hres
    by (cbn [files with_files]; apply lookup_insert_eq).
  destruct (decode_text (stdout x)) as [decompressed_data | e] eqn:Htext.
  2:{ cbn [fst] in Hres. right. split; [intros [_ (? & [= <-] & ?)]; congruence |].
      intros m. subst result. destruct e; discriminate. }
  destruct (String.eqb_spec input_data decompressed_data) as [Heq | Hne].
  - unfold getsize, bind, read_file, ret, lift in Hres. cbn [files with_files] in Hres.
    assert (Hcd : decompressed_file <> compressed_file).
    { unfold decompressed_file, compressed_file. intros H. simpl in H. discriminate. }
    rewrite lookup_insert_ne in Hres by exact Hcd.
    rewrite lookup_insert_eq in Hres.
    destruct (ratio_run_test_total (Z.of_nat (String.length (stdout c))) (len input_data))
      as [q Hq].
    rewrite Hq in Hres. cbn [fst] in Hres. subst result.
    left. split; [by exists j | split; [exists (stdout x); by rewrite Heq | by eexists]].
  - unfold ret in Hres. cbn [fst] in Hres. subst result. right.
    split; [intros [_ (? & [= <-] & ?)]; congruence | intros m; discriminate].
Qed.

(** ** The round-trip check (C1) *)

(** C1: [compress_expand_test] returns success if and only if the file
    produced by [expand(compress(s))], read as text as the driver reads it,
    is equal to the input [s], and so does [run_test] once javac has
    compiled the tool; and with the modelled tool, for every policy in
    {freeze, reset, lru, lfu} and every non-empty sequence over the declared
    alphabet that a text-mode read gives back as it is (valid UTF-8 without
    carriage return, as are the letters of the alphabets the drivers
    declare), the round-trip check passes: both drivers return success. *)
Theorem round_trip_check_passes (env : Env) (input_data alphabet_path : string)
    (minW maxW : Z) (policy test_name : string) (w : World env) :
  let input_file := mktemp env ".txt" (files w) in
  let produced :=
    round_trip_output env
      ["java"; "LZWTool"; "--mode"; "compress"; "--minW"; str minW;
       "--maxW"; str maxW; "--policy"; policy; "--alphabet"; alphabet_path]
      input_data (<[input_file := input_data]> (files w))
      (input_file +:+ ".lzw") (input_file +:+ ".out") in
  let fs_lru := <["test_input_" +:+ test_name +:+ ".txt" := input_data]> (files w) in
  let compiled :=
    exists j, spawn env argv_javac (sys_stdin env) fs_lru = Returned j
              /\ returncode j = 0%Z in
  let produced_lru :=
    round_trip_output env
      ["java"; "LZWTool"; "--mode"; "compress"; "--minW"; str minW;
       "--maxW"; str maxW; "--policy"; policy; "--alphabet"; "alphabet_ab.txt"]
      input_data fs_lru
      ("test_compressed_" +:+ test_name +:+ ".bin")
      ("test_decompressed_" +:+ test_name +:+ ".txt") in
  let checked :=
    fst (compress_expand_test input_data alphabet_path minW maxW policy test_name w) in
  let checked_lru := fst (run_test test_name input_data policy minW maxW w) in
  ((exists r, checked = Returned (true, r)) <-> reads_as produced input_data)
  /\ ((exists m, checked_lru = Returned (true, m))
      <-> compiled /\ reads_as produced_lru input_data)
  /\ (forall (content : string) (al : list ascii),
        runs_LZWTool env ->
        policy ∈ ["freeze"; "reset"; "lru"; "lfu"] ->
        input_data <> ""%string ->
        load_alphabet content = inr al ->
        over_alphabet al input_data ->
        decode_text input_data = Returned input_data ->
        (2 <= minW <= maxW)%Z -> (maxW < 256)%Z ->
        length al + 2 <= 2 ^ Z.to_nat minW ->
        (files w !! alphabet_path = Some content ->
         alphabet_path ∉ [input_file; input_file +:+ ".lzw"] ->
         exists ratio, checked = Returned (true, Some ratio))
        /\ (files w !! "alphabet_ab.txt" = Some content ->
            compiled ->
            exists ratio, checked_lru = Returned (true, Success ratio))).
Proof.
  intros input_file produced fs_lru compiled produced_lru checked checked_lru.
  pose proof (compress_expand_test_outcome env input_data alphabet_path minW maxW policy
                test_name w) as Hcet.
  pose proof (run_test_outcome env test_name input_data policy minW maxW w) as Hrt.
  cbv zeta in Hcet, Hrt.
  fold input_file in Hcet. fold produced in Hcet. fold checked in Hcet.
  fold fs_lru in Hrt. fold compiled in Hrt. fold produced_lru in Hrt.
  fold checked_lru in Hrt.
  split; [| split].
  - split.
    + intros [r Hr]. destruct Hcet as [[Hp _] | [_ Hbad]]; [exact Hp | by destruct (Hbad r)].
    + intros Hp. destruct Hcet as [[_ [q Hq]] | [Hbad _]]; [by eexists | contradiction].
  - split.
    + intros [m Hm].
      destruct Hrt as [(Hc & Hp & _) | [_ Hbad]]; [by split | by destruct (Hbad m)].
    + intros Hp. destruct Hrt as [(_ & _ & [q Hq]) | [Hbad _]]; [by eexists | contradiction].
  - intros content al Htool Hpol Hne Hal Hover Htext Hw Hmax Hfit. split.
    + intros Hfs Hdis.
      assert (Hp : reads_as produced input_data).
      { exists input_data. split; [| exact Htext].
        apply not_elem_of_cons in Hdis as [Hd1 Hdis].
        apply not_elem_of_cons in Hdis as [Hd2 _].
        apply (round_trip_output_LZWTool env input_data alphabet_path minW maxW policy _ _ _
                 content al); try done.
        by rewrite lookup_insert_ne. }
      destruct Hcet as [[_ Hok] | [Hbad _]]; [exact Hok | contradiction].
    + intros Hfs Hc.
      assert (Hp : reads_as produced_lru input_data).
      { exists input_data. split; [| exact Htext].
        apply (round_trip_output_LZWTool env input_data "alphabet_ab.txt" minW maxW policy
                 _ _ _ content al); try done.
        unfold fs_lru. rewrite lookup_insert_ne; [exact Hfs | discriminate]. }
      destruct Hrt as [(_ & _ & Hok) | [Hbad _]]; [exact Hok |].
      destruct Hbad. by split.
Qed.

Lemma runs_LZWTool_model : runs_LZWTool model_env.
Proof. intros args stdin_data fs. reflexivity. Defined.

Lemma load_ab_file : load_alphabet ab_file = inr ["a"%char; "b"%char].
Proof. vm_compute. reflexivity. Defined.

Lemma round_trip_check_passes_witness :
  (exists ratio,
     fst (compress_expand_test (env := model_env) "abbabbba" "alphabets/ab.txt" 2 4 "lfu"
            "sample" model_world) = Returned (true, Some ratio))
  /\ (exists ratio,
        fst (run_test (env := model_env) "sample" "abbabbba" "lfu" 2 4 model_world)
        = Returned (true, Success ratio)).
Proof.
  pose proof (round_trip_check_passes model_env "abbabbba" "alphabets/ab.txt" 2 4 "lfu"
              "sample" model_world) as H0.
  cbv zeta in H0.
  destruct H0 as (_ & _ & H).
  destruct (H ab_file ["a"%char; "b"%char]) as [H1 H2].
  - exact runs_LZWTool_model.
  - repeat (first [apply list_elem_of_here | apply list_elem_of_further]).
  - discriminate.
  - exact load_ab_file.
  - unfold over_alphabet; cbn [list_ascii_of_string]; repeat constructor.
  - apply (over_alphabet_plain ["a"%char; "b"%char]);
      [reflexivity | unfold over_alphabet; cbn [list_ascii_of_string]; repeat constructor].
  - lia.
  - lia.
  - vm_compute; lia.
  - split.
    + apply H1.
      * vm_compute; reflexivity.
      * (apply not_elem_of_cons; split; [vm_compute; discriminate |];
        apply not_elem_of_cons; split; [vm_compute; discriminate | apply not_elem_of_nil]).
    + apply H2.
      * vm_compute; reflexivity.
      * eexists; split; reflexivity.
Defined.

(** A carriage return is not read back: the modelled tool compresses the
    sequence a CR b over the alphabet {a, b, CR} and expands it back to
    itself, and the check fails all the same, as the text-mode read of the
    decompressed file turns the CR into LF. *)
Example carriage_return_not_read_back :
  let sequence := "a" +:+ String "013" "b" in
  let disk : gmap string string :=
    <["alphabets/abcr.txt" := "a" +:+ nl +:+ "b" +:+ nl +:+ String "013" nl]> ∅ in
  round_trip_output model_env
    ["java"; "LZWTool"; "--mode"; "compress"; "--minW"; "3"; "--maxW"; "5";
     "--policy"; "lru"; "--alphabet"; "alphabets/abcr.txt"]
    sequence disk "c" "d" = Some sequence
  /\ decode_text sequence = Returned ("a" +:+ nl +:+ "b")
  /\ fst (compress_expand_test (env := model_env) sequence "alphabets/abcr.txt" 3 5 "lru"
            "sample" (Build_World model_env disk [] 0 []))
     = Returned (false, None).
Proof. cbv zeta. split; [| split]; vm_compute; reflexivity. Qed.

(** ** The empty sequence (C2) *)

(** C2 (as stated, refuted): a tool that fails on the empty input under
    every policy passes [test_alphabet_suite]: the suite never runs the
    round trip on the empty sequence. *)
Lemma empty_sequence_not_checked :
  fst (test_alphabet_suite (env := no_empty_env) "ab" ["a"; "b"] "alphabets/ab.txt"
         no_empty_world) = Returned true
  /\ map (fun policy =>
            fst (compress_expand_test (env := no_empty_env) "" "alphabets/ab.txt" 2 4
                   policy "empty" no_empty_world))
         ["freeze"; "reset"; "lru"; "lfu"]
     = [Returned (false, None); Returned (false, None);
        Returned (false, None); Returned (false, None)].
Proof. split; vm_compute; reflexivity. Qed.

Lemma parse_policy_name (p : Policy) : parse_policy (Some (policy_name p)) = inr p.
Proof. by destruct p. Qed.

Lemma expand_header (cfg : Config) :
  minW cfg < 256 -> maxW cfg < 256 -> length (alphabet cfg) < 256 * 256 ->
  compress cfg [] = inr (header cfg) /\ expand (header cfg) = inr [].
Proof.
  intros Hmin Hmax Hlen. split.
  - unfold compress. cbn [encode flush codewords_bits flat_map pack close_channel length].
    by rewrite app_nil_r.
  - unfold expand. rewrite <- (app_nil_r (header cfg)).
    by rewrite read_header_header.
Qed.

(** On the modelled tool: for every policy it compresses the empty input
    with exit code 0 to a header-only stream, and expands that stream with
    exit code 0 to the empty output; with it [run_test] of test_lru.py
    returns success on the empty sequence. *)
Lemma empty_input_header_only (env : Env) (p : Policy) (alphabet_path : string)
    (minW maxW : Z) (content : string) (al : list ascii) (fs : gmap string string)
    (w : World env) :
  (2 <= minW <= maxW)%Z -> (maxW < 256)%Z ->
  fs !! alphabet_path = Some content ->
  load_alphabet content = inr al ->
  let cfg := {| alphabet := al; minW := Z.to_nat minW; maxW := Z.to_nat maxW;
                policy := p |} in
  let compressed :=
    LZWTool ["--mode"; "compress"; "--minW"; str minW; "--maxW"; str maxW;
             "--policy"; policy_name p; "--alphabet"; alphabet_path] "" fs in
  let expanded := LZWTool ["--mode"; "expand"] (stdout compressed) fs in
  (returncode compressed = 0%Z
   /\ stdout compressed = string_of_list_ascii (header cfg)
   /\ returncode expanded = 0%Z
   /\ stdout expanded = ""%string)
  /\ (runs_LZWTool env ->
      files w !! "alphabet_ab.txt" = Some content ->
      (exists j, spawn env argv_javac (sys_stdin env)
                   (<["test_input_empty.txt" := ""]> (files w)) = Returned j
                 /\ returncode j = 0%Z) ->
      exists ratio,
        fst (run_test "empty" "" (policy_name p) minW maxW w)
        = Returned (true, Success ratio)).
Proof.
  intros Hw Hmax Hfs Hal cfg compressed expanded.
  destruct (load_alphabet_nodup content al Hal) as [Hnd _].
  pose proof (nodup_ascii_length al Hnd) as Hlen.
  assert (Hheader : compress cfg [] = inr (header cfg) /\ expand (header cfg) = inr []).
  { apply expand_header;
      [change (Z.to_nat minW < 256) | change (Z.to_nat maxW < 256)
       | change (length al < 256 * 256)]; lia. }
  destruct Hheader as [Hc He].
  assert (Hcompressed : compressed
            = {| returncode := 0; stdout := string_of_list_ascii (header cfg);
                 stderr := "" |}).
  { unfold compressed.
    apply (LZWTool_compress minW maxW (policy_name p) p alphabet_path "" fs content al);
      try done. apply parse_policy_name. }
  assert (Hexpanded : expanded = {| returncode := 0; stdout := ""; stderr := "" |}).
  { unfold expanded. rewrite Hcompressed. cbn [stdout].
    by rewrite (LZWTool_expand (header cfg) []). }
  split.
  - rewrite Hexpanded, Hcompressed. by repeat split.
  - intros Htool Hab Hjavac.
    pose proof (run_test_outcome env "empty" "" (policy_name p) minW maxW w) as Hrt.
    cbv zeta in Hrt.
    destruct Hrt as [(_ & _ & Hok) | [Hbad _]]; [exact Hok |].
    destruct Hbad. split; [exact Hjavac |]. apply reads_as_empty.
    unfold round_trip_output. rewrite Htool.
    rewrite (LZWTool_compress minW maxW (policy_name p) p "alphabet_ab.txt" "" _
               content al (header cfg)); try done.
    + cbn [returncode stdout Z.eqb]. rewrite Htool.
      rewrite (LZWTool_expand (header cfg) []) by exact He. reflexivity.
    + apply parse_policy_name.
    + rewrite !lookup_insert_ne by discriminate. exact Hab.
Qed.

Lemma empty_input_header_only_model :
  let compressed :=
    LZWTool ["--mode"; "compress"; "--minW"; "2"; "--maxW"; "4";
             "--policy"; "reset"; "--alphabet"; "alphabets/ab.txt"] ""
      (files model_world) in
  returncode compressed = 0%Z
  /\ returncode (LZWTool ["--mode"; "expand"] (stdout compressed) (files model_world)) = 0%Z
  /\ stdout (LZWTool ["--mode"; "expand"] (stdout compressed) (files model_world))
     = ""%string
  /\ exists ratio,
       fst (run_test (env := model_env) "empty" "" "reset" 2 4 model_world)
       = Returned (true, Success ratio).
Proof.
  destruct (empty_input_header_only model_env ResetTable "alphabets/ab.txt" 2 4 ab_file
              ["a"%char; "b"%char] (files model_world) model_world)
    as ((H1 & _ & H2 & H3) & H4).
  - lia.
  - lia.
  - vm_compute; reflexivity.
  - exact load_ab_file.
  - cbv zeta. split; [exact H1 | split; [exact H2 | split; [exact H3 |]]].
    apply H4.
    + exact runs_LZWTool_model.
    + vm_compute; reflexivity.
    + eexists; split; reflexivity.
Qed.

(** C2 (amended): the round trip of the empty sequence is checked by
    [run_test] of test_lru.py only: the cases test_lru.py generates start
    with the empty sequence, and [run_test] returns success on it exactly
    when javac has compiled the tool and the file produced by
    [expand(compress(""))] is empty, for the one policy it is called with.
    [test_alphabet_suite] checks it for no policy: its loop passes over an
    empty sequence without running the tool. *)
Theorem empty_sequence_round_trip (env : Env) (policy : string) (minW maxW : Z)
    (w : World env) (alphabet_name alphabet_file seq_name : string)
    (rest : list (string * string)) (results : list SeqResult) :
  let fs := <["test_input_empty.txt" := ""]> (files w) in
  let compiled :=
    exists j, spawn env argv_javac (sys_stdin env) fs = Returned j
              /\ returncode j = 0%Z in
  let produced :=
    round_trip_output env
      ["java"; "LZWTool"; "--mode"; "compress"; "--minW"; str minW;
       "--maxW"; str maxW; "--policy"; policy; "--alphabet"; "alphabet_ab.txt"]
      "" fs "test_compressed_empty.bin" "test_decompressed_empty.txt" in
  suite_sequences (env := env) alphabet_name alphabet_file minW maxW policy
    ((seq_name, "") :: rest) results
  = suite_sequences alphabet_name alphabet_file minW maxW policy rest results
  /\ ((exists m, fst (run_test "empty" "" policy minW maxW w) = Returned (true, m))
      <-> compiled /\ produced = Some ""%string)
  /\ (exists cases,
        fst (generate_test_sequences_lru model_world) = Returned (("empty", "") :: cases)).
Proof.
  intros fs compiled produced.
  pose proof (run_test_outcome env "empty" "" policy minW maxW w) as Hrt.
  cbv zeta in Hrt.
  change ("test_input_" +:+ "empty" +:+ ".txt") with "test_input_empty.txt" in Hrt.
  change ("test_compressed_" +:+ "empty" +:+ ".bin") with "test_compressed_empty.bin" in Hrt.
  change ("test_decompressed_" +:+ "empty" +:+ ".txt")
    with "test_decompressed_empty.txt" in Hrt.
  fold fs in Hrt. fold compiled in Hrt. fold produced in Hrt.
  rewrite reads_as_empty in Hrt.
  split; [reflexivity | split].
  - split.
    + intros [m Hm].
      destruct Hrt as [(Hc & Hp & _) | [_ Hbad]]; [by split | by destruct (Hbad m)].
    + intros Hp. destruct Hrt as [(_ & _ & [q Hq]) | [Hbad _]]; [by eexists | contradiction].
  - eexists. vm_compute. reflexivity.
Qed.
(** ** Rejections (C3, C6) *)

Lemma compress_abc (lo hi : nat) (p : Policy) :
  compress {| alphabet := ["a"%char; "b"%char]; minW := lo; maxW := hi; policy := p |}
           (list_ascii_of_string "abc")
  = inl (SymbolNotInAlphabet "c").
Proof.
  unfold compress. cbn [list_ascii_of_string encode codeOf alphabet Ascii.eqb Bool.eqb fmap
                        option_fmap option_map].
  unfold lookupLongestPrefix. cbn [app lookupSequence init entries find fmap option_fmap
                                    option_map].
  destruct (insertSequence _ _ _) as [cb2 marker]. reflexivity.
Qed.

(** C3: compressing "abc" against the alphabet {a, b} fails before any
    stream is produced, for every policy and all widths: the encoder stops
    at the symbol c; the process of the drivers' seventh edge case exits
    with a nonzero code, writes nothing on stdout, and its diagnostic on
    stderr names the character c and contains the text the drivers look
    for. *)
Theorem symbol_outside_alphabet_rejected (lo hi : nat) (p : Policy)
    (fs : gmap string string) :
  let result :=
    LZWTool (tool_args argv_compress_ab) "abc" (<["alphabets/ab.txt" := ab_file]> fs) in
  compress {| alphabet := ["a"%char; "b"%char]; minW := lo; maxW := hi; policy := p |}
           (list_ascii_of_string "abc")
  = inl (SymbolNotInAlphabet "c")
  /\ returncode result <> 0%Z
  /\ stdout result = ""%string
  /\ stderr result = diagnostic (SymbolNotInAlphabet "c")
  /\ str_contains "'c'" (stderr result) = true
  /\ (failed result && str_contains "not in the alphabet" (stderr result)) = true.
Proof.
  cbv zeta. split; [apply compress_abc |].
  assert (H : LZWTool (tool_args argv_compress_ab) "abc"
                (<["alphabets/ab.txt" := ab_file]> fs)
              = {| returncode := 1; stdout := "";
                   stderr := diagnostic (SymbolNotInAlphabet "c") |}).
  { unfold LZWTool, tool_args, argv_compress_ab.
    cbn [drop parse_args set_option String.eqb Ascii.eqb Bool.eqb no_options
         opt_mode opt_minW opt_maxW opt_policy opt_alphabet].
    unfold run_mode. cbn [opt_mode String.eqb Ascii.eqb Bool.eqb opt_alphabet opt_policy].
    rewrite lookup_insert_eq.
    change (parse_widths _) with (@inr Error _ (3, 4)).
    change (load_alphabet ab_file) with (@inr Error _ ["a"%char; "b"%char]).
    cbn [parse_policy]. by rewrite compress_abc. }
  rewrite H. repeat split; try reflexivity. discriminate.
Qed.

Lemma rejected_error (e : Error) :
  rejected {| returncode := 1; stdout := ""; stderr := diagnostic e |}.
Proof.
  unfold rejected. cbn [returncode stdout stderr]. repeat split; try discriminate.
  destruct e; discriminate.
Qed.

Lemma LZWTool_missing_mode (stdin_data : string) (fs : gmap string string) :
  LZWTool (tool_args argv_missing_mode) stdin_data fs
  = {| returncode := 1; stdout := "";
       stderr := diagnostic (ArgumentError "Missing required argument: --mode") |}.
Proof. reflexivity. Qed.

Lemma LZWTool_invalid_mode (stdin_data : string) (fs : gmap string string) :
  LZWTool (tool_args argv_invalid_mode) stdin_data fs
  = {| returncode := 1; stdout := "";
       stderr := diagnostic (ArgumentError "Invalid mode: invalid") |}.
Proof. reflexivity. Qed.

Lemma LZWTool_missing_alphabet (stdin_data : string) (fs : gmap string string) :
  LZWTool (tool_args argv_missing_alphabet) stdin_data fs
  = {| returncode := 1; stdout := "";
       stderr := diagnostic (ArgumentError "Missing required argument: --alphabet") |}.
Proof. reflexivity. Qed.

Lemma LZWTool_nonexistent_alphabet (stdin_data : string) (fs : gmap string string) :
  LZWTool (tool_args argv_nonexistent_alphabet) stdin_data (delete "nonexistent.txt" fs)
  = {| returncode := 1; stdout := "";
       stderr := diagnostic (AlphabetLoadError "cannot read nonexistent.txt") |}.
Proof.
  unfold LZWTool, tool_args, argv_nonexistent_alphabet.
  cbn [drop parse_args set_option String.eqb Ascii.eqb Bool.eqb no_options
       opt_mode opt_minW opt_maxW opt_policy opt_alphabet].
  unfold run_mode. cbn [opt_mode String.eqb Ascii.eqb Bool.eqb opt_alphabet opt_policy].
  rewrite lookup_delete_eq.
  change (parse_widths _) with (@inr Error _ (3, 4)). reflexivity.
Qed.

Lemma LZWTool_minW_gt_maxW (stdin_data : string) (fs : gmap string string) :
  LZWTool (tool_args argv_minW_gt_maxW) stdin_data fs
  = {| returncode := 1; stdout := "";
       stderr := diagnostic
                   (ArgumentError "minW and maxW must satisfy 2 <= minW <= maxW") |}.
Proof. reflexivity. Qed.

Lemma LZWTool_unknown_argument (stdin_data : string) (fs : gmap string string) :
  LZWTool (tool_args argv_unknown_argument) stdin_data fs
  = {| returncode := 1; stdout := "";
       stderr := diagnostic (ArgumentError "Unknown argument: --unknown-arg") |}.
Proof. reflexivity. Qed.

(** C6: each malformed invocation of the drivers' edge cases (missing
    --mode, invalid --mode, missing --alphabet, an alphabet file that does
    not exist, minW greater than maxW, an unknown argument) ends in an
    error: nonzero exit code, a diagnostic on stderr, no stream on stdout;
    the outcome does not depend on the standard input, so no stream was
    processed; and the diagnostic of the unknown argument contains
    "Unknown argument". *)
Theorem malformed_invocations_rejected (stdin_data other_stdin : string)
    (fs : gmap string string) :
  let run := fun argv files => LZWTool (tool_args argv) stdin_data files in
  let rerun := fun argv files => LZWTool (tool_args argv) other_stdin files in
  let no_file := delete "nonexistent.txt" fs in
  (rejected (run argv_missing_mode fs)
   /\ rejected (run argv_invalid_mode fs)
   /\ rejected (run argv_missing_alphabet fs)
   /\ rejected (run argv_nonexistent_alphabet no_file)
   /\ rejected (run argv_minW_gt_maxW fs)
   /\ rejected (run argv_unknown_argument fs))
  /\ (run argv_missing_mode fs = rerun argv_missing_mode fs
      /\ run argv_invalid_mode fs = rerun argv_invalid_mode fs
      /\ run argv_missing_alphabet fs = rerun argv_missing_alphabet fs
      /\ run argv_nonexistent_alphabet no_file = rerun argv_nonexistent_alphabet no_file
      /\ run argv_minW_gt_maxW fs = rerun argv_minW_gt_maxW fs
      /\ run argv_unknown_argument fs = rerun argv_unknown_argument fs)
  /\ str_contains "Unknown argument" (stderr (run argv_unknown_argument fs)) = true.
Proof.
  cbv beta zeta.
  rewrite !LZWTool_missing_mode, !LZWTool_invalid_mode, !LZWTool_missing_alphabet,
    !LZWTool_nonexistent_alphabet, !LZWTool_minW_gt_maxW, !LZWTool_unknown_argument.
  repeat split; try apply rejected_error; reflexivity.
Qed.

(** ** The concrete scenario (C4) *)

(** C4: for the alphabet {a, b}, minW 3, maxW 4 and policy freeze, the
    modelled tool compresses the 240 characters of "aabbaabbaabb" * 20 to a
    stream that expands to exactly that input; the whole stream, header
    included, is shorter than 240 codewords of the minimum width (and than
    the 240 input bytes).  [compress_expand_test] on that scenario returns
    success with 40 bytes for 240, and [test_policy], which runs its own
    widths 9 and 12, returns success with 56. *)
Theorem concrete_scenario :
  let input := list_ascii_of_string default_input in
  length input = 240
  /\ (exists bytes,
        compress scenario input = inr bytes
        /\ expand bytes = inr input
        /\ 8 * length bytes < 240 * minW scenario
        /\ length bytes < 240)
  /\ fst (compress_expand_test (env := model_env) default_input "alphabets/ab.txt" 3 4
            "freeze" "scenario" model_world) = Returned (true, Some (40 # 240))
  /\ fst (test_policy (env := model_env) "freeze" default_input model_world)
     = Returned (true, Success (5600 # 240)).
Proof.
  cbv zeta. split; [reflexivity |]. split.
  - eexists. split; [vm_compute; reflexivity |].
    split; [vm_compute; reflexivity |]. split; vm_compute; lia.
  - split; vm_compute; reflexivity.
Qed.

(** ** The divergence check (C5) *)

(** C5 (as stated, refuted): a tool for which lru and lfu produce the same
    compressed sizes passes [test_alphabet_suite]; the divergence check only
    leaves a warning on the console. *)
Lemma coinciding_sizes_only_warn :
  let run := test_alphabet_suite (env := policy_blind_env) "ab" ["a"; "b"]
               "alphabets/ab.txt" policy_blind_world in
  fst run = Returned true
  /\ warnings (console (snd run))
     = ["  random_very_long: LRU and LFU have same ratio (might be coincidence)"].
Proof. vm_compute. split; reflexivity. Qed.

(** C5 (amended): the divergence check of [test_alphabet_suite] only
    reports: when the lru and lfu ratios of the sequence are both present
    and nonzero it logs a pass line if they differ and a warning if they
    coincide, otherwise it logs nothing; it always returns normally and
    changes nothing but the console.  The verdict of
    verify_policies_differ.py likewise only prints one line. *)
Theorem divergence_check_only_reports (env : Env)
    (results : list (string * list SeqResult)) (seq_name : string)
    (ratios : list (string * Q)) (w : World env) :
  let lru := ratio_of results "lru" seq_name in
  let lfu := ratio_of results "lfu" seq_name in
  let checked := check_lru_lfu_differ results seq_name w in
  let verdict := report_verdict ratios w in
  fst checked = Returned tt
  /\ files (snd checked) = files w
  /\ rng (snd checked) = rng w
  /\ console (snd checked)
     = console w ++
       (if truthy lru && truthy lfu then
          if ratio_ne lru lfu
          then [(PASS, "  " +:+ seq_name +:+ ": LRU ratio, LFU ratio (DIFFERENT)")]
          else [(WARN, "  " +:+ seq_name
                       +:+ ": LRU and LFU have same ratio (might be coincidence)")]
        else [])
  /\ fst verdict = Returned tt
  /\ files (snd verdict) = files w
  /\ exists line, console (snd verdict) = console w ++ [(PLAIN, line)].
Proof.
  cbv zeta. unfold check_lru_lfu_differ, report_verdict.
  destruct (truthy (ratio_of results "lru" seq_name)
            && truthy (ratio_of results "lfu" seq_name));
    [destruct (ratio_ne _ _) |];
    (destruct (distinct_ratios (map snd ratios) =? 4);
     cbn [fst snd log_pass log_warn print log ret files rng console];
     rewrite ?app_nil_r; repeat split; by eexists).
Qed.

(** ** Temporary files (C8) *)

(** C8: when [compress_expand_test], [run_test] or [test_policy] is over,
    whatever its outcome (success, mismatch, a failed compression or
    decompression, an exception), none of its three temporary files (input,
    compressed, decompressed) exists on disk. *)
Theorem temporary_files_removed (env : Env) (input_data alphabet_path : string)
    (minW maxW : Z) (policy test_name : string) (w : World env) :
  let after_cet :=
    files (snd (compress_expand_test input_data alphabet_path minW maxW policy
                  test_name w)) in
  let input_file := mktemp env ".txt" (files w) in
  let after_run_test := files (snd (run_test test_name input_data policy minW maxW w)) in
  let after_test_policy := files (snd (test_policy policy input_data w)) in
  (after_cet !! input_file = None
   /\ after_cet !! (input_file +:+ ".lzw") = None
   /\ after_cet !! (input_file +:+ ".out") = None)
  /\ (after_run_test !! ("test_input_" +:+ test_name +:+ ".txt") = None
      /\ after_run_test !! ("test_compressed_" +:+ test_name +:+ ".bin") = None
      /\ after_run_test !! ("test_decompressed_" +:+ test_name +:+ ".txt") = None)
  /\ (after_test_policy !! ("test_" +:+ policy +:+ "_input.txt") = None
      /\ after_test_policy !! ("test_" +:+ policy +:+ "_compressed.bin") = None
      /\ after_test_policy !! ("test_" +:+ policy +:+ "_decompressed.txt") = None).
Proof.
  cbv zeta. split; [| split].
  - unfold compress_expand_test. unfold bind at 1 2 3. unfold named_temporary_file.
    repeat split; apply try_finally_cleanup_files; set_solver.
  - unfold run_test. repeat split; apply try_finally_cleanup_files; set_solver.
  - unfold test_policy. repeat split; apply try_finally_cleanup_files; set_solver.
Qed.

(** ** Bit widths and ratios (C7, C9) *)

Lemma bit_length_nonneg (x : Z) : (0 <= bit_length x)%Z.
Proof.
  unfold bit_length. destruct (x =? 0)%Z; [lia |].
  pose proof (Z.log2_nonneg (Z.abs x)). lia.
Qed.

(** For [x >= 0], [x < 2 ^ bit_length x]. *)
Lemma bit_length_bound (x : Z) : (0 <= x)%Z -> (x < 2 ^ bit_length x)%Z.
Proof.
  intros Hx. unfold bit_length.
  destruct (Z.eqb_spec x 0) as [-> | Hne]; [reflexivity |].
  rewrite Z.abs_eq by lia.
  replace (Z.log2 x + 1)%Z with (Z.succ (Z.log2 x)) by lia.
  apply Z.log2_spec. lia.
Qed.

Lemma pick_bitwidths_eq (n : Z) :
  pick_bitwidths n = (Z.max 2 (bit_length (n - 1)), Z.max 2 (bit_length (n - 1)) + 2)%Z.
Proof. reflexivity. Qed.

(** C7 (as stated, refuted): for an alphabet of three symbols the chosen
    minimum width is 2, and [2 ^ 2 = 4] is smaller than the [3 + 2] codes the
    three symbols and the two markers need. *)
Lemma pick_bitwidths_three_symbols :
  pick_bitwidths 3 = (2, 4)%Z /\ (2 ^ fst (pick_bitwidths 3) < 3 + 2)%Z.
Proof. split; reflexivity. Qed.

(** C7 (amended): for every alphabet size [n >= 1] the widths chosen by
    [pick_bitwidths] satisfy [2 <= minW <= maxW = minW + 2]; [2 ^ minW] holds
    the [n] symbol codes, [2 ^ maxW] holds the symbol codes and both markers,
    and for the alphabet sizes the suites use (2, 5 and 6) already
    [2 ^ minW] holds the symbol codes and both markers. *)
Theorem pick_bitwidths_bounds (n : Z) :
  (1 <= n)%Z ->
  let minW := fst (pick_bitwidths n) in
  let maxW := snd (pick_bitwidths n) in
  (2 <= minW)%Z /\ (minW <= maxW)%Z /\ maxW = (minW + 2)%Z /\
  (n <= 2 ^ minW)%Z /\ (n + 2 <= 2 ^ maxW)%Z /\
  (n = 2%Z \/ n = 5%Z \/ n = 6%Z -> (n + 2 <= 2 ^ minW)%Z).
Proof.
  intros Hn. rewrite pick_bitwidths_eq. cbn [fst snd].
  set (b := bit_length (n - 1)).
  assert (Hb : (n - 1 < 2 ^ b)%Z) by (apply bit_length_bound; lia).
  assert (Hb0 : (0 <= b)%Z) by apply bit_length_nonneg.
  assert (Hmono : (2 ^ b <= 2 ^ Z.max 2 b)%Z)
    by (apply Z.pow_le_mono_r; lia).
  assert (H4 : (2 ^ 2 <= 2 ^ Z.max 2 b)%Z)
    by (apply Z.pow_le_mono_r; lia).
  change (2 ^ 2)%Z with 4%Z in H4.
  repeat split; try lia.
  - rewrite Z.pow_add_r by lia. change (2 ^ 2)%Z with 4%Z. lia.
  - intros [-> | [-> | ->]]; subst b; vm_compute; discriminate.
Qed.

Lemma pick_bitwidths_bounds_witness :
  (1 <= 6)%Z /\
  let minW := fst (pick_bitwidths 6) in
  let maxW := snd (pick_bitwidths 6) in
  (2 <= minW)%Z /\ (minW <= maxW)%Z /\ maxW = (minW + 2)%Z /\
  (6 <= 2 ^ minW)%Z /\ (6 + 2 <= 2 ^ maxW)%Z /\
  (6%Z = 2%Z \/ 6%Z = 5%Z \/ 6%Z = 6%Z -> (6 + 2 <= 2 ^ minW)%Z).
Proof. split; [lia | apply (pick_bitwidths_bounds 6); lia]. Defined.

(** C9: the ratio expressions of [compress_expand_test], [run_test] and
    [test_policy] never divide by zero: for every compressed size and every
    input they return a number, and for the empty input that number is 0. *)
Theorem ratio_total (compressed_size : Z) (input_data : string) :
  let original_size := len input_data in
  (exists q, ratio_compress_expand_test compressed_size original_size = Returned q) /\
  (exists q, ratio_run_test compressed_size original_size = Returned q) /\
  (exists q, ratio_test_policy compressed_size input_data = Returned q) /\
  (ratio_compress_expand_test compressed_size (len "") = Returned 0%Q /\
   ratio_run_test compressed_size (len "") = Returned 0%Q /\
   ratio_test_policy compressed_size "" = Returned 0%Q).
Proof.
  cbv zeta. repeat split; try reflexivity.
  - apply ratio_compress_expand_test_total.
  - apply ratio_run_test_total.
  - apply ratio_test_policy_total.
Qed.


(** ** Seeded runs generate the same sequences (C10) *)

Section FrameRules.
Variable env : Env.

Lemma frame_ret {A : Type} (a : A) : Frame (env := env) (ret a).
Proof. by intros w. Qed.

Lemma frame_raise {A : Type} (e : PyExn) : Frame (env := env) (A := A) (raise e).
Proof. by intros w. Qed.

Lemma frame_lift {A : Type} (o : Outcome A) : Frame (env := env) (lift o).
Proof. by intros w. Qed.

Lemma frame_bind {A B : Type} (m : Py env A) (k : A -> Py env B) :
  Frame m -> (forall a, Frame (k a)) -> Frame (bind m k).
Proof.
  intros Hm Hk w. unfold bind. specialize (Hm w).
  destruct (m w) as [[a | e] w1]; cbn [snd] in *; [| exact Hm].
  destruct (Hk a w1) as [H1 H2]. destruct Hm as [H3 H4]. split; congruence.
Qed.

Lemma frame_try_finally {A : Type} (body : Py env A) (handler : Py env unit) :
  Frame body -> Frame handler -> Frame (try_finally body handler).
Proof.
  intros Hb Hh w. unfold try_finally. specialize (Hb w).
  destruct (body w) as [r w1]. cbn [snd] in Hb. specialize (Hh w1).
  destruct (handler w1) as [[[] | e] w2]; cbn [snd] in *;
    destruct Hb, Hh; split; congruence.
Qed.

Lemma frame_try_except {A : Type} (body : Py env A) (handler : PyExn -> Py env A) :
  Frame body -> (forall e, Frame (handler e)) -> Frame (try_except body handler).
Proof.
  intros Hb Hh w. unfold try_except. specialize (Hb w).
  destruct (body w) as [[a | e] w1]; cbn [snd] in *; [exact Hb |].
  destruct e; try exact Hb;
    match goal with |- context [handler ?e w1] => destruct (Hh e w1) end;
    destruct Hb; split; congruence.
Qed.

Lemma frame_log (lvl : Level) (msg : string) : Frame (env := env) (log lvl msg).
Proof. by intros w. Qed.

Lemma frame_write_file (path content : string) :
  Frame (env := env) (write_file path content).
Proof. by intros w. Qed.

Lemma frame_read_file (path : string) : Frame (env := env) (read_file path).
Proof. intros w. unfold read_file. by destruct (files w !! path). Qed.

Lemma frame_path_exists (path : string) : Frame (env := env) (path_exists path).
Proof. by intros w. Qed.

Lemma frame_os_remove (path : string) : Frame (env := env) (os_remove path).
Proof. intros w. unfold os_remove. by destruct (files w !! path). Qed.

Lemma frame_named_temporary_file (suffix content : string) :
  Frame (env := env) (named_temporary_file suffix content).
Proof. by intros w. Qed.

Lemma frame_subprocess_run (argv : list string) (stdin_data : string) :
  Frame (env := env) (subprocess_run argv stdin_data).
Proof. by intros w. Qed.
End FrameRules.

(** Proves [Frame] of a block built from framed blocks. *)
Ltac frame :=
  repeat first
    [ apply frame_ret | apply frame_raise | apply frame_lift
    | apply frame_log | apply frame_write_file | apply frame_read_file
    | apply frame_path_exists | apply frame_os_remove
    | apply frame_named_temporary_file | apply frame_subprocess_run
    | match goal with H : _ |- _ => apply H end
    | apply frame_bind; [| intros ?]
    | apply frame_try_finally
    | apply frame_try_except; [| intros ?]
    | match goal with
      | |- Frame (if ?b then _ else _) => destruct b
      | |- Frame (match ?x with _ => _ end) => destruct x
      | |- Frame (let '(_, _) := ?x in _) => destruct x
      end ].

Section FrameDrivers.
Variable env : Env.

Lemma frame_getsize (path : string) : Frame (env := env) (getsize path).
Proof. unfold getsize. frame. Qed.

Lemma frame_run_redirected (argv : list string) (i o : string) :
  Frame (env := env) (run_redirected argv i o).
Proof. unfold run_redirected. frame. Qed.

Lemma frame_cleanup (paths : list string) : Frame (env := env) (cleanup paths).
Proof. induction paths as [| p paths IH]; cbn [cleanup]; frame. Qed.

Lemma frame_compress_expand_test (input_data alphabet_path : string) (minW maxW : Z)
    (policy test_name : string) :
  Frame (env := env)
    (compress_expand_test input_data alphabet_path minW maxW policy test_name).
Proof.
  unfold compress_expand_test, log_fail.
  pose proof frame_getsize. pose proof frame_run_redirected. pose proof frame_cleanup.
  frame.
Qed.

Lemma frame_suite_sequences (alphabet_name alphabet_file : string) (minW maxW : Z)
    (policy : string) (sequences : list (string * string)) :
  forall policy_results,
    Frame (env := env)
      (suite_sequences alphabet_name alphabet_file minW maxW policy sequences
         policy_results).
Proof.
  pose proof frame_compress_expand_test.
  induction sequences as [| [seq_name seq_data] rest IH]; intros policy_results;
    cbn [suite_sequences]; unfold log_pass, log_fail; frame.
Qed.

Lemma frame_suite_policies (alphabet_name alphabet_file : string) (minW maxW : Z)
    (sequences : list (string * string)) (policies : list string) :
  forall results,
    Frame (env := env)
      (suite_policies alphabet_name alphabet_file minW maxW sequences policies results).
Proof.
  pose proof frame_suite_sequences.
  induction policies as [| policy rest IH]; intros results;
    cbn [suite_policies]; unfold log_test; frame.
Qed.

Lemma frame_check_lru_lfu_differ (results : list (string * list SeqResult))
    (seq_name : string) :
  Frame (env := env) (check_lru_lfu_differ results seq_name).
Proof. unfold check_lru_lfu_differ, log_pass, log_warn. frame. Qed.

Lemma frame_compile_java : Frame (env := env) compile_java.
Proof. unfold compile_java, log_test, log_pass, log_fail. frame. Qed.

Lemma frame_test_alphabet_validation : Frame (env := env) test_alphabet_validation.
Proof.
  unfold test_alphabet_validation, log_test, log_pass, log_fail, log_warn, print. frame.
Qed.

Lemma frame_rejection_test (title : string) (argv : list string)
    (input : option string) (accepted : CompletedProcess -> bool)
    (pass_msg fail_msg : string) :
  Frame (env := env) (rejection_test title argv input accepted pass_msg fail_msg).
Proof. unfold rejection_test, log_test, log_pass, log_fail. frame. Qed.

Lemma frame_test_edge_cases : Frame (env := env) test_edge_cases.
Proof.
  pose proof frame_rejection_test.
  unfold test_edge_cases, log_test, log_pass, log_fail. frame.
Qed.

Lemma frame_real_file_policies (filepath content : string) (policies : list string) :
  Frame (env := env) (real_file_policies filepath content policies).
Proof.
  pose proof frame_compress_expand_test.
  induction policies as [| policy rest IH]; cbn [real_file_policies];
    unfold log_pass, log_fail; frame.
Qed.

Lemma frame_real_files (test_files : list (string * string)) :
  Frame (env := env) (real_files test_files).
Proof.
  pose proof frame_real_file_policies.
  induction test_files as [| [filepath description] rest IH]; cbn [real_files];
    unfold log_test, log_warn; frame.
Qed.

Lemma frame_test_real_files : Frame (env := env) test_real_files.
Proof. pose proof frame_real_files. unfold test_real_files, log_test. frame. Qed.

Lemma frame_compress_test (input_data alphabet_path : string) (minW maxW : Z)
    (policy : string) :
  Frame (env := env) (compress_test input_data alphabet_path minW maxW policy).
Proof.
  pose proof frame_getsize. pose proof frame_run_redirected. pose proof frame_cleanup.
  unfold compress_test, print. frame.
Qed.

Lemma frame_policy_ratios (random_data alphabet_file : string) (minW maxW length : Z)
    (policies : list string) :
  forall results,
    Frame (env := env)
      (policy_ratios random_data alphabet_file minW maxW length policies results).
Proof.
  pose proof frame_compress_test.
  induction policies as [| policy rest IH]; intros results;
    cbn [policy_ratios]; unfold print; frame.
Qed.

Lemma frame_report_verdict (results : list (string * Q)) :
  Frame (env := env) (report_verdict results).
Proof. unfold report_verdict, print. frame. Qed.
End FrameDrivers.


Section Generators.
Variable env : Env.

Lemma rngonly_ret {A : Type} (a : A) : RngOnly (env := env) (ret a).
Proof. intros w w' H. repeat split; [exact H |]. exists []. by rewrite !app_nil_r. Qed.

Lemma rngonly_raise {A : Type} (e : PyExn) : RngOnly (env := env) (A := A) (raise e).
Proof. intros w w' H. repeat split; [exact H |]. exists []. by rewrite !app_nil_r. Qed.

Lemma rngonly_bind {A B : Type} (m : Py env A) (k : A -> Py env B) :
  RngOnly m -> (forall a, RngOnly (k a)) -> RngOnly (bind m k).
Proof.
  intros Hm Hk w w' H. unfold bind. destruct (Hm w w' H) as (Ho & Hr & d & Hd & Hd').
  destruct (m w) as [[a | e] w1], (m w') as [[a' | e'] w1']; cbn [fst snd] in *;
    try discriminate.
  - injection Ho as <-. destruct (Hk a w1 w1' Hr) as (Ho2 & Hr2 & d2 & Hd2 & Hd2').
    repeat split; [exact Ho2 | exact Hr2 |].
    exists (d ++ d2). rewrite Hd2, Hd2', Hd, Hd'. by rewrite !app_assoc.
  - repeat split; [by injection Ho as -> | exact Hr |]. by exists d.
Qed.

Lemma rngonly_choice {A : Type} (seq : list A) : RngOnly (env := env) (choice seq).
Proof.
  intros w w' H. unfold choice. rewrite H.
  destruct (randbelow env (length seq) (rng w')) as [i r].
  destruct (seq !! i); cbn [fst snd rng generated].
  - repeat split. exists []. by rewrite !app_nil_r.
  - repeat split; [exact H |]. exists []. by rewrite !app_nil_r.
Qed.

Lemma rngonly_record_generated (seqs : list (string * string)) :
  RngOnly (env := env) (record_generated seqs).
Proof. intros w w' H. repeat split; [exact H |]. by exists [seqs]. Qed.

Lemma rngonly_random_string (chars : list string) (n : nat) :
  RngOnly (env := env) (random_string chars n).
Proof.
  induction n as [| n IH]; cbn [random_string]; [apply rngonly_ret |].
  apply rngonly_bind; [apply rngonly_choice | intros c].
  apply rngonly_bind; [exact IH | intros rest]. apply rngonly_ret.
Qed.

Lemma rngonly_generate_test_sequences (alphabet : list string) :
  RngOnly (env := env) (generate_test_sequences alphabet).
Proof.
  unfold generate_test_sequences.
  destruct (alphabet !! 0); [| apply rngonly_raise].
  destruct (last alphabet); [| apply rngonly_raise].
  repeat (apply rngonly_bind; [apply rngonly_random_string | intros ?]).
  apply rngonly_bind; [apply rngonly_record_generated | intros ?]. apply rngonly_ret.
Qed.

Lemma rngonly_generate_test_sequences_lru :
  RngOnly (env := env) generate_test_sequences_lru.
Proof.
  unfold generate_test_sequences_lru.
  repeat (apply rngonly_bind; [apply rngonly_random_string | intros ?]).
  apply rngonly_bind; [apply rngonly_record_generated | intros ?]. apply rngonly_ret.
Qed.
End Generators.








Section Triples.
Variable env : Env.
Variable exc : World env -> Prop.

Lemma triple_bind {A B : Type} (pre : World env -> Prop) (m : Py env A)
    (mid : A -> World env -> Prop) (k : A -> Py env B)
    (post : B -> World env -> Prop) :
  triple pre m mid exc -> (forall a, triple (mid a) (k a) post exc) ->
  triple pre (bind m k) post exc.
Proof.
  intros Hm Hk w Hw. unfold bind. specialize (Hm w Hw).
  destruct (m w) as [[a | e] w1]; [by apply Hk | exact Hm].
Qed.

Lemma triple_frame {A : Type} (c : World env) (m : Py env A) :
  Frame m -> (forall w, Sync c w -> exc w) ->
  triple (Sync c) m (fun _ => Sync c) exc.
Proof.
  intros Hm Hexc w [Hr Hg]. destruct (Hm w) as [Hr' Hg'].
  destruct (m w) as [[a | e] w1]; cbn [snd] in *; [| apply Hexc]; split; congruence.
Qed.

Lemma triple_generator (c : World env) (g : Py env (list (string * string))) :
  RngOnly g -> (forall w, Sync (snd (g c)) w -> exc w) ->
  triple (Sync c) g (fun _ => Sync (snd (g c))) exc.
Proof.
  intros Hg Hexc w [Hr Hgen]. destruct (Hg w c Hr) as (_ & Hr' & d & Hd & Hd').
  assert (Hs : Sync (snd (g c)) (snd (g w))).
  { split; [exact Hr' |]. rewrite Hd, Hd'. by rewrite Hgen. }
  destruct (g w) as [[a | e] w1]; cbn [snd] in *; [exact Hs | by apply Hexc].
Qed.

Lemma triple_post {A : Type} (pre : World env -> Prop) (m : Py env A)
    (post post' : A -> World env -> Prop) :
  triple pre m post exc -> (forall a w, post a w -> post' a w) ->
  triple pre m post' exc.
Proof.
  intros Hm Hp w Hw. specialize (Hm w Hw).
  destruct (m w) as [[a | e] w1]; [by apply Hp | exact Hm].
Qed.
End Triples.

Lemma replay_appends (env : Env) (generators : list (Py env (list (string * string))))
    (w : World env) :
  Forall RngOnly generators -> generated w `prefix_of` generated (replay generators w).
Proof.
  intros Hg. revert w. induction Hg as [| g rest Hg _ IH]; intros w; [done |].
  cbn [replay]. destruct (Hg w w eq_refl) as (_ & _ & d & Hd & _).
  etrans; [| apply IH]. rewrite Hd. by apply prefix_app_r.
Qed.

Section SeededRuns.
Variable env : Env.
Variable exc : World env -> Prop.

Lemma triple_test_alphabet_suite (c : World env) (alphabet_name : string)
    (alphabet_chars : list string) (alphabet_file : string) :
  let c' := snd (generate_test_sequences alphabet_chars c) in
  (forall w, Sync c w -> exc w) -> (forall w, Sync c' w -> exc w) ->
  triple (Sync c) (test_alphabet_suite alphabet_name alphabet_chars alphabet_file)
    (fun _ => Sync c') exc.
Proof.
  intros c' Hc Hc'. unfold test_alphabet_suite.
  do 3 (eapply triple_bind; [apply triple_frame; [apply frame_log | exact Hc] | intros ?; cbv beta]).
  destruct (pick_bitwidths _) as [minW maxW].
  eapply triple_bind; [apply triple_frame; [apply frame_log | exact Hc] | intros ?; cbv beta].
  eapply triple_bind;
    [apply triple_generator; [apply rngonly_generate_test_sequences | exact Hc'] |].
  intros sequences. cbv beta. fold c'.
  eapply triple_bind;
    [apply triple_frame; [apply frame_suite_policies | exact Hc'] | intros r; cbv beta].
  apply triple_frame; [| exact Hc'].
  pose proof (frame_check_lru_lfu_differ env). unfold log_test. frame.
Qed.

Lemma verify_data_state (c : World env) (name : string) (chars : list string) :
  snd (verify_data name chars c)
  = match random_string chars (100 * 100) c with
    | (Returned data, c1) => snd (record_generated [(name, data)] c1)
    | (Raised _, c1) => c1
    end.
Proof.
  unfold verify_data, bind.
  by destruct (random_string chars (100 * 100) c) as [[data | e] c1].
Qed.

Lemma triple_verify_config (c : World env) (name : string) (chars : list string)
    (alphabet_file : string) (minW maxW : Z) :
  let c' := snd (verify_data name chars c) in
  (forall w, Sync c w -> exc w) -> (forall w, Sync c' w -> exc w) ->
  triple (Sync c) (verify_config name chars alphabet_file minW maxW (100 * 100))
    (fun _ => Sync c') exc.
Proof.
  intros c' Hc Hc'. unfold c' in *. clear c'. rewrite verify_data_state in Hc' |- *.
  unfold verify_config.
  do 2 (eapply triple_bind; [apply triple_frame; [apply frame_log | exact Hc] |
                             intros ?; cbv beta]).
  intros w [Hr Hg]. unfold bind at 1.
  destruct (rngonly_random_string env chars (100 * 100) w c Hr) as (Ho & Hr1 & d & Hd & Hd').
  destruct (random_string chars (100 * 100) w) as [[data | e] w1],
           (random_string chars (100 * 100) c) as [[data' | e'] c1];
    cbn [fst snd] in *; try discriminate.
  - injection Ho as <-.
    assert (Hs : Sync (snd (record_generated [(name, data)] c1))
                      (snd (record_generated [(name, data)] w1))).
    { split; cbn [snd record_generated rng generated]; [exact Hr1 |].
      rewrite Hd, Hd'. by rewrite Hg. }
    assert (Hrest : triple (Sync (snd (record_generated [(name, data)] c1)))
              (results <- policy_ratios data alphabet_file minW maxW
                            (Z.of_nat (100 * 100)) ["freeze"; "reset"; "lru"; "lfu"] [] ;;
               report_verdict results)
              (fun _ => Sync (snd (record_generated [(name, data)] c1))) exc).
    { apply triple_frame; [| exact Hc'].
      pose proof (frame_policy_ratios env). pose proof (frame_report_verdict env). frame. }
    exact (Hrest _ Hs).
  - apply Hc'. split; [exact Hr1 |]. rewrite Hd, Hd'. by rewrite Hg.
Qed.
End SeededRuns.

Lemma triple_run (env : Env) (A : Type) (pre : World env -> Prop) (m : Py env A)
    (post exc : World env -> Prop) (w w' : World env) (o : Outcome A) :
  triple pre m (fun _ => post) exc -> pre w -> m w = (o, w') ->
  match o with
  | Returned _ => post w'
  | Raised _ => exc w'
  end.
Proof. intros Hm Hw Hrun. specialize (Hm w Hw). rewrite Hrun in Hm. by destruct o. Qed.

(** What a run of comprehensive_test.py generates is an initial part of
    [seeded_sequences], and all of it when the run returns. *)
Lemma main_generated (env : Env) (w : World env) :
  generated w = [] ->
  match fst (main w) with
  | Returned _ => generated (snd (main w)) = seeded_sequences env
  | Raised _ => generated (snd (main w)) `prefix_of` seeded_sequences env
  end.
Proof.
  intros Hw. destruct (main w) as [o w'] eqn:Hmain. cbn [fst snd].
  unfold main in Hmain.
  unfold bind at 1 in Hmain. cbn [print log] in Hmain.
  unfold bind at 1 in Hmain. cbn [print log] in Hmain.
  unfold bind at 1 in Hmain. cbn [seed] in Hmain.
  set (exc := fun v : World env => generated v `prefix_of` seeded_sequences env).
  set (g1 := generate_test_sequences (env := env) ["a"; "b"]).
  set (g2 := generate_test_sequences (env := env) ["A"; "B"; "R"; "C"; "D"]).
  set (g3 := generate_test_sequences (env := env) ["T"; "O"; "B"; "E"; "R"; "N"]).
  set (c0 := seeded env). set (c1 := snd (g1 c0)). set (c2 := snd (g2 c1)).
  set (c3 := snd (g3 c2)).
  assert (Hg : Forall RngOnly [g1; g2; g3]).
  { repeat (apply Forall_cons_2; [apply rngonly_generate_test_sequences |]).
    apply Forall_nil_2. }
  assert (H3 : forall v, Sync c3 v -> exc v).
  { intros v [_ Hv]. unfold exc. by rewrite Hv. }
  assert (H2 : forall v, Sync c2 v -> exc v).
  { intros v [_ Hv]. unfold exc. rewrite Hv.
    apply (replay_appends env [g3] c2). by inversion Hg as [| ? ? _ [| ? ? _ ?]]. }
  assert (H1 : forall v, Sync c1 v -> exc v).
  { intros v [_ Hv]. unfold exc. rewrite Hv.
    apply (replay_appends env [g2; g3] c1). by inversion Hg. }
  assert (H0 : forall v, Sync c0 v -> exc v).
  { intros v [_ Hv]. unfold exc. rewrite Hv. apply (replay_appends env [g1; g2; g3] c0 Hg). }
  pose proof (fun Ht Hp => triple_run env _ (Sync c0) _
    (fun v => generated v = seeded_sequences env) exc _ _ _ Ht Hp Hmain) as Hrun.
  apply Hrun; [| by split].
  apply (triple_post env exc _ _ (fun _ => Sync c3)); [| by intros _ v [_ Hv]].
  eapply triple_bind; [apply triple_frame; [apply frame_compile_java | exact H0] |].
  intros ?; cbv beta.
  eapply triple_bind; [apply triple_frame; [apply frame_test_alphabet_validation | exact H0] |].
  intros v; cbv beta.
  eapply triple_bind; [apply triple_frame; [apply frame_test_edge_cases | exact H0] |].
  intros e; cbv beta.
  eapply triple_bind; [apply (triple_test_alphabet_suite env exc c0); [exact H0 | exact H1] |].
  intros s1; cbv beta. fold g1. fold c1.
  eapply triple_bind; [apply (triple_test_alphabet_suite env exc c1); [exact H1 | exact H2] |].
  intros s2; cbv beta. fold g2. fold c2.
  eapply triple_bind; [apply (triple_test_alphabet_suite env exc c2); [exact H2 | exact H3] |].
  intros s3; cbv beta. fold g3. fold c3.
  apply triple_frame; [| exact H3].
  pose proof (frame_test_real_files env). unfold print. frame.
Qed.

(** What a run of verify_policies_differ.py generates is an initial part
    of [seeded_data], and all of it when the run returns. *)
Lemma verify_generated (env : Env) (w : World env) :
  generated w = [] ->
  match fst (verify_policies_differ w) with
  | Returned _ => generated (snd (verify_policies_differ w)) = seeded_data env
  | Raised _ => generated (snd (verify_policies_differ w)) `prefix_of` seeded_data env
  end.
Proof.
  intros Hw. destruct (verify_policies_differ w) as [o w'] eqn:Hmain. cbn [fst snd].
  unfold verify_policies_differ in Hmain.
  unfold bind at 1 in Hmain. cbn [print log] in Hmain.
  unfold bind at 1 in Hmain. cbn [seed] in Hmain.
  set (exc := fun v : World env => generated v `prefix_of` seeded_data env).
  set (g1 := verify_data (env := env) "ab" ["a"; "b"]).
  set (g2 := verify_data (env := env) "abracadabra" ["A"; "B"; "R"; "C"; "D"]).
  set (g3 := verify_data (env := env) "tobeornot" ["T"; "O"; "B"; "E"; "R"; "N"]).
  set (c0 := seeded env). set (c1 := snd (g1 c0)). set (c2 := snd (g2 c1)).
  set (c3 := snd (g3 c2)).
  assert (Hv : forall name chars, RngOnly (verify_data (env := env) name chars)).
  { intros name chars. unfold verify_data.
    apply rngonly_bind; [apply rngonly_random_string | intros ?].
    apply rngonly_bind; [apply rngonly_record_generated | intros ?]. apply rngonly_ret. }
  assert (Hg : Forall RngOnly [g1; g2; g3]).
  { repeat (apply Forall_cons_2; [apply Hv |]). apply Forall_nil_2. }
  assert (H3 : forall v, Sync c3 v -> exc v).
  { intros v [_ Hgen]. unfold exc. by rewrite Hgen. }
  assert (H2 : forall v, Sync c2 v -> exc v).
  { intros v [_ Hgen]. unfold exc. rewrite Hgen.
    apply (replay_appends env [g3] c2). by inversion Hg as [| ? ? _ [| ? ? _ ?]]. }
  assert (H1 : forall v, Sync c1 v -> exc v).
  { intros v [_ Hgen]. unfold exc. rewrite Hgen.
    apply (replay_appends env [g2; g3] c1). by inversion Hg. }
  assert (H0 : forall v, Sync c0 v -> exc v).
  { intros v [_ Hgen]. unfold exc. rewrite Hgen.
    apply (replay_appends env [g1; g2; g3] c0 Hg). }
  pose proof (fun Ht Hp => triple_run env _ (Sync c0) _
    (fun v => generated v = seeded_data env) exc _ _ _ Ht Hp Hmain) as Hrun.
  apply Hrun; [| by split].
  apply (triple_post env exc _ _ (fun _ => Sync c3)); [| by intros _ v [_ Hgen]].
  eapply triple_bind; [apply (triple_verify_config env exc c0); [exact H0 | exact H1] |].
  intros ?; cbv beta. fold g1. fold c1.
  eapply triple_bind; [apply (triple_verify_config env exc c1); [exact H1 | exact H2] |].
  intros ?; cbv beta. fold g2. fold c2.
  eapply triple_bind; [apply (triple_verify_config env exc c2); [exact H2 | exact H3] |].
  intros ?; cbv beta. fold g3. fold c3.
  apply triple_frame; [apply frame_log | exact H3].
Qed.

Lemma prefix_of_outcome (A : Type) (o : Outcome A) (g full : list (list (string * string))) :
  match o with
  | Returned _ => g = full
  | Raised _ => g `prefix_of` full
  end -> g `prefix_of` full.
Proof. destruct o; [by intros -> | done]. Qed.


(** C10: the sequences of comprehensive_test.py and of
    verify_policies_differ.py are deterministic: whatever the files, the
    console and the state of the random generator at the start, a run
    generates an initial part of one fixed list, fixed by [random.seed(42)],
    and the whole list when it returns; so two runs generate identical
    sequences as far as both get.  test_lru.py sets no seed: two runs from
    different generator states can generate different sequences. *)
Theorem seeded_sequences_deterministic (env : Env) (fs1 fs2 : gmap string string)
    (lines1 lines2 : list (Level * string)) (r1 r2 : Rng env) :
  let w1 := fresh env fs1 lines1 r1 in
  let w2 := fresh env fs2 lines2 r2 in
  let g1 := generated (snd (main w1)) in
  let g2 := generated (snd (main w2)) in
  let d1 := generated (snd (verify_policies_differ w1)) in
  let d2 := generated (snd (verify_policies_differ w2)) in
  (g1 `prefix_of` seeded_sequences env /\ g2 `prefix_of` seeded_sequences env
   /\ (g1 `prefix_of` g2 \/ g2 `prefix_of` g1)
   /\ (fst (main w1) = Returned tt -> fst (main w2) = Returned tt -> g1 = g2))
  /\ (d1 `prefix_of` seeded_data env /\ d2 `prefix_of` seeded_data env
      /\ (d1 `prefix_of` d2 \/ d2 `prefix_of` d1)
      /\ (fst (verify_policies_differ w1) = Returned tt ->
          fst (verify_policies_differ w2) = Returned tt -> d1 = d2))
  /\ fst (generate_test_sequences_lru (fresh model_env ∅ [] 0))
     <> fst (generate_test_sequences_lru (fresh model_env ∅ [] 1)).
Proof.
  intros w1 w2 g1 g2 d1 d2.
  pose proof (main_generated env w1 eq_refl) as Hm1.
  pose proof (main_generated env w2 eq_refl) as Hm2.
  pose proof (verify_generated env w1 eq_refl) as Hv1.
  pose proof (verify_generated env w2 eq_refl) as Hv2.
  fold g1 in Hm1. fold g2 in Hm2. fold d1 in Hv1. fold d2 in Hv2.
  pose proof (prefix_of_outcome _ _ _ _ Hm1) as Hp1.
  pose proof (prefix_of_outcome _ _ _ _ Hm2) as Hp2.
  pose proof (prefix_of_outcome _ _ _ _ Hv1) as Hq1.
  pose proof (prefix_of_outcome _ _ _ _ Hv2) as Hq2.
  split; [| split].
  - split; [exact Hp1 |]. split; [exact Hp2 |]. split.
    + exact (prefix_weak_total _ _ _ Hp1 Hp2).
    + intros E1 E2. rewrite E1 in Hm1. rewrite E2 in Hm2. congruence.
  - split; [exact Hq1 |]. split; [exact Hq2 |]. split.
    + exact (prefix_weak_total _ _ _ Hq1 Hq2).
    + intros E1 E2. rewrite E1 in Hv1. rewrite E2 in Hv2. congruence.
  - vm_compute. discriminate.
Qed.
(** ** More on [pick_bitwidths] *)

(** For an alphabet size [n], a length and so not negative,
    [pick_bitwidths] picks as minimum width the least width, from 2 on,
    whose codes cover the alphabet: the width it picks is at least 2 and
    [n <= 2 ^ minW], no width from 2 on below it covers the alphabet, the
    maximum width is two more, and a larger alphabet never gets a smaller
    width. *)
Theorem pick_bitwidths_least (n : Z) :
  (0 <= n)%Z ->
  let minW := fst (pick_bitwidths n) in
  (2 <= minW)%Z
  /\ (n <= 2 ^ minW)%Z
  /\ (forall w, (2 <= w)%Z -> (n <= 2 ^ w)%Z -> (minW <= w)%Z)
  /\ (forall w, (2 <= w < minW)%Z -> (2 ^ w < n)%Z)
  /\ snd (pick_bitwidths n) = (minW + 2)%Z
  /\ (forall m, (n <= m)%Z -> (minW <= fst (pick_bitwidths m))%Z).
Proof.
  intros Hn. cbv zeta. rewrite pick_bitwidths_eq. cbn [fst snd].
  assert (Hzero : bit_length (0 - 1) = 1%Z) by reflexivity.
  assert (Hone : bit_length (1 - 1) = 0%Z) by reflexivity.
  assert (Hbl : forall k, (2 <= k)%Z -> bit_length (k - 1) = (Z.log2 (k - 1) + 1)%Z).
  { intros k Hk. unfold bit_length. destruct (Z.eqb_spec (k - 1) 0) as [H0 | H0]; [lia |].
    by rewrite Z.abs_eq by lia. }
  assert (Hpos : forall k, (0 <= k)%Z -> (0 <= bit_length (k - 1))%Z).
  { intros k Hk. destruct (Z.eq_dec k 0%Z) as [-> | Hk0]; [lia |].
    destruct (Z.eq_dec k 1%Z) as [-> | Hk1]; [lia |].
    rewrite Hbl by lia. pose proof (Z.log2_nonneg (k - 1)). lia. }
  assert (Hleast : forall w, (2 <= w)%Z -> (n <= 2 ^ w)%Z ->
                             (Z.max 2 (bit_length (n - 1)) <= w)%Z).
  { intros w Hw Hfit. apply Z.max_lub; [exact Hw |].
    destruct (Z.eq_dec n 0%Z) as [-> | Hn0]; [lia |].
    destruct (Z.eq_dec n 1%Z) as [-> | Hn1]; [lia |].
    rewrite Hbl by lia.
    assert (Z.log2 (n - 1) < w)%Z; [| lia].
    apply Z.log2_lt_pow2; lia. }
  split; [lia |]. split; [| split; [exact Hleast | split; [| split; [reflexivity |]]]].
  - assert (Hfit : (n <= 2 ^ bit_length (n - 1))%Z).
    { destruct (Z.eq_dec n 0%Z) as [-> | Hn0]; [rewrite Hzero; lia |].
      destruct (Z.eq_dec n 1%Z) as [-> | Hn1]; [rewrite Hone; lia |].
      rewrite Hbl by lia.
      pose proof (Z.log2_spec (n - 1)) as Hs.
      replace (Z.succ (Z.log2 (n - 1))) with (Z.log2 (n - 1) + 1)%Z in Hs by lia. lia. }
    etrans; [exact Hfit |]. apply Z.pow_le_mono_r; [lia |]. apply Z.le_max_r.
  - intros w [Hw Hlt]. destruct (Z.lt_ge_cases (2 ^ w) n) as [Hlt' | Hge]; [exact Hlt' |].
    specialize (Hleast w Hw Hge). lia.
  - intros m Hm. rewrite pick_bitwidths_eq. cbn [fst].
    destruct (Z.eq_dec n 0%Z) as [-> | Hn0]; [rewrite Hzero; lia |].
    apply Z.max_le_compat_l.
    destruct (Z.eq_dec n 1%Z) as [-> | Hn1]; [rewrite Hone; apply Hpos; lia |].
    rewrite !Hbl by lia.
    assert (Z.log2 (n - 1) <= Z.log2 (m - 1))%Z by (apply Z.log2_le_mono; lia). lia.
Qed.

Lemma pick_bitwidths_least_witness :
  (0 <= 6)%Z
  /\ (2 <= fst (pick_bitwidths 6))%Z
  /\ (6 <= 2 ^ fst (pick_bitwidths 6))%Z
  /\ (forall w, (2 <= w)%Z -> (6 <= 2 ^ w)%Z -> (fst (pick_bitwidths 6) <= w)%Z)
  /\ (forall w, (2 <= w < fst (pick_bitwidths 6))%Z -> (2 ^ w < 6)%Z)
  /\ snd (pick_bitwidths 6) = (fst (pick_bitwidths 6) + 2)%Z
  /\ (forall m, (6 <= m)%Z -> (fst (pick_bitwidths 6) <= fst (pick_bitwidths m))%Z).
Proof. split; [lia | apply (pick_bitwidths_least 6); lia]. Defined.


Lemma append_assoc (s t u : string) : ((s +:+ t) +:+ u)%string = (s +:+ (t +:+ u))%string.
Proof.
  induction s as [| c s IH]; [reflexivity |].
  change (String c ((s +:+ t) +:+ u) = String c (s +:+ (t +:+ u))). by rewrite IH.
Qed.

Lemma append_empty_r (s : string) : (s +:+ "")%string = s.
Proof.
  induction s as [| c s IH]; [reflexivity |].
  change (String c (s +:+ "") = String c s). by rewrite IH.
Qed.

Lemma join_app (xs ys : list string) : join (xs ++ ys) = join xs +:+ join ys.
Proof.
  induction xs as [| x xs IH]; [reflexivity |].
  cbn [join fold_right app]. fold (join (xs ++ ys)). fold (join xs).
  rewrite IH. by rewrite append_assoc.
Qed.

Lemma made_of_empty (chars : list string) : made_of chars "".
Proof. exists []. split; [constructor | reflexivity]. Qed.

Lemma made_of_entry (chars : list string) (c : string) : c ∈ chars -> made_of chars c.
Proof.
  intros Hc. exists [c]. split; [by repeat constructor |].
  cbn. by rewrite append_empty_r.
Qed.

Lemma made_of_append (chars : list string) (s t : string) :
  made_of chars s -> made_of chars t -> made_of chars (s +:+ t).
Proof.
  intros (ps & Hps & ->) (pt & Hpt & ->). exists (ps ++ pt).
  split; [by apply Forall_app | by rewrite join_app].
Qed.

Lemma made_of_str_mul (chars : list string) (s : string) (n : nat) :
  made_of chars s -> made_of chars (str_mul s n).
Proof.
  intros Hs. induction n as [| n IH]; [apply made_of_empty |].
  cbn [str_mul]. by apply made_of_append.
Qed.

Lemma made_of_join (chars : list string) (parts : list string) :
  Forall (made_of chars) parts -> made_of chars (join parts).
Proof.
  induction 1 as [| p parts Hp _ IH]; [apply made_of_empty |].
  cbn [join fold_right]. by apply made_of_append.
Qed.

(** What a draw leaves of the state. *)
Lemma choice_run (env : Env) (A : Type) (seq : list A) (w : World env) (x : A)
    (w' : World env) :
  choice seq w = (Returned x, w') ->
  x ∈ seq /\ files w' = files w /\ console w' = console w /\ generated w' = generated w.
Proof.
  unfold choice. destruct (randbelow env (length seq) (rng w)) as [i r].
  destruct (seq !! i) as [y |] eqn:Hi; [| discriminate].
  intros [= <- <-]. split; [by eapply list_elem_of_lookup_2 | done].
Qed.

Lemma random_string_run (env : Env) (chars : list string) (n : nat) (w : World env)
    (s : string) (w' : World env) :
  random_string chars n w = (Returned s, w') ->
  made_of chars s
  /\ (Forall (fun c => String.length c = 1) chars -> String.length s = n)
  /\ files w' = files w /\ console w' = console w /\ generated w' = generated w.
Proof.
  revert w s w'. induction n as [| n IH]; intros w s w'.
  - intros [= <- <-]. split; [apply made_of_empty | done].
  - cbn [random_string]. unfold bind at 1.
    destruct (choice chars w) as [[c | e] w1] eqn:Hc; [| discriminate].
    apply choice_run in Hc as (Hin & Hf1 & Hc1 & Hg1).
    unfold bind at 1.
    destruct (random_string chars n w1) as [[rest | e] w2] eqn:Hr; [| discriminate].
    apply IH in Hr as (Hm & Hlen & Hf2 & Hc2 & Hg2).
    intros [= <- <-]. split; [| split; [| repeat split; congruence]].
    + apply made_of_append; [by apply made_of_entry | exact Hm].
    + intros Hone. rewrite length_append, (Hlen Hone).
      rewrite Forall_forall in Hone. by rewrite (Hone c Hin).
Qed.

Lemma random_string_returns (env : Env) (chars : list string) (n : nat) (w : World env) :
  InRange env -> chars <> [] -> exists s w', random_string chars n w = (Returned s, w').
Proof.
  intros Hrange Hne. revert w. induction n as [| n IH]; intros w; [by eexists _, _ |].
  cbn [random_string]. unfold bind at 1. unfold choice.
  pose proof (Hrange (length chars) (rng w)) as Hlt.
  destruct (randbelow env (length chars) (rng w)) as [i r]. cbn [fst] in Hlt.
  destruct (lookup_lt_is_Some_2 chars i) as [c Hc].
  { apply Hlt. destruct chars; [done | cbn; lia]. }
  rewrite Hc. unfold bind at 1.
  match goal with |- context [random_string chars n ?v] => destruct (IH v) as (s & w' & ->) end.
  by eexists _, _.
Qed.

Lemma length_str_mul (s : string) (n : nat) :
  String.length (str_mul s n) = n * String.length s.
Proof.
  induction n as [| n IH]; [reflexivity |].
  cbn [str_mul]. rewrite length_append, IH. lia.
Qed.

Lemma random_string_length (env : Env) (chars : list string) (n : nat) (w : World env)
    (s : string) (w' : World env) :
  Forall (fun c => c <> ""%string) chars ->
  random_string chars n w = (Returned s, w') -> n <= String.length s.
Proof.
  intros Hne. revert w s w'. induction n as [| n IH]; intros w s w'; [lia |].
  cbn [random_string]. unfold bind at 1.
  destruct (choice chars w) as [[c | e] w1] eqn:Hc; [| discriminate].
  apply choice_run in Hc as (Hin & _).
  unfold bind at 1.
  destruct (random_string chars n w1) as [[rest | e] w2] eqn:Hr; [| discriminate].
  apply IH in Hr. intros [= <- <-]. rewrite length_append.
  rewrite Forall_forall in Hne. specialize (Hne c Hin). destruct c; [done | cbn; lia].
Qed.

Lemma generate_test_sequences_run (env : Env) (chars : list string) (w : World env)
    (seqs : list (string * string)) (w' : World env) :
  generate_test_sequences chars w = (Returned seqs, w') ->
  exists c0 clast w1 w2 w3 w4 rs rm rl rv,
    chars !! 0 = Some c0 /\ last chars = Some clast
    /\ random_string chars 20 w = (Returned rs, w1)
    /\ random_string chars 100 w1 = (Returned rm, w2)
    /\ random_string chars 500 w2 = (Returned rl, w3)
    /\ random_string chars (100 * 100) w3 = (Returned rv, w4)
    /\ seqs = sequences_of chars c0 clast rs rm rl rv
    /\ files w' = files w /\ console w' = console w
    /\ generated w' = generated w ++ [seqs].
Proof.
  unfold generate_test_sequences, sequences_of. cbv zeta.
  destruct (2 <=? length chars) eqn:E2, (3 <=? length chars) eqn:E3.
  all: destruct (chars !! 0) as [c0 |] eqn:H0; [| discriminate].
  all: destruct (last chars) as [clast |] eqn:Hl; [| discriminate].
  all: unfold bind at 1;
    destruct (random_string chars 20 w) as [[rs | e] w1] eqn:H1; [| discriminate].
  all: unfold bind at 1;
    destruct (random_string chars 100 w1) as [[rm | e] w2] eqn:H2; [| discriminate].
  all: unfold bind at 1;
    destruct (random_string chars 500 w2) as [[rl | e] w3] eqn:H3; [| discriminate].
  all: unfold bind at 1;
    destruct (random_string chars (100 * 100) w3) as [[rv | e] w4] eqn:H4;
    [| discriminate].
  all: unfold bind, record_generated, ret; intros H; apply pair_equal_spec in H as [Hs Hw];
    apply (f_equal (fun o => match o with Returned l => l | Raised _ => [] end)) in Hs;
    subst seqs w'.
  all: exists c0, clast, w1, w2, w3, w4, rs, rm, rl, rv.
  all: pose proof (random_string_run _ _ _ _ _ _ H1) as (_ & _ & Hf1 & Hc1 & Hg1).
  all: pose proof (random_string_run _ _ _ _ _ _ H2) as (_ & _ & Hf2 & Hc2 & Hg2).
  all: pose proof (random_string_run _ _ _ _ _ _ H3) as (_ & _ & Hf3 & Hc3 & Hg3).
  all: pose proof (random_string_run _ _ _ _ _ _ H4) as (_ & _ & Hf4 & Hc4 & Hg4).
  all: cbn [files console generated].
  all: rewrite ?app_nil_r, <- ?app_assoc.
  all: repeat split; try done; try congruence.
Qed.

Lemma item_elem_of (chars : list string) (i : nat) : i < length chars -> item chars i ∈ chars.
Proof.
  intros Hi. unfold item. destruct (lookup_lt_is_Some_2 chars i Hi) as [c Hc].
  rewrite Hc. by eapply list_elem_of_lookup_2.
Qed.

Lemma last_elem_of (chars : list string) (c : string) : last chars = Some c -> c ∈ chars.
Proof.
  intros Hl. apply last_Some in Hl as [l' ->]. apply elem_of_app. right. by left.
Qed.

Lemma made_of_incremental (chars : list string) (indices : list nat) :
  0 < length chars ->
  made_of chars (join (map (fun i => item chars (i mod length chars)) indices)).
Proof.
  intros Hn. apply made_of_join. apply Forall_forall. intros s Hs.
  apply list_elem_of_fmap in Hs as (i & -> & _).
  apply made_of_entry, item_elem_of. apply Nat.mod_upper_bound. lia.
Qed.

Ltac made_of_parts :=
  repeat first
    [ apply made_of_incremental; assumption
    | apply made_of_empty
    | apply made_of_entry; assumption
    | apply made_of_str_mul
    | apply made_of_append ].

Lemma generate_test_sequences_returns (env : Env) (chars : list string) (w : World env) :
  InRange env -> chars <> [] ->
  exists seqs, fst (generate_test_sequences chars w) = Returned seqs.
Proof.
  intros Hrange Hne. unfold generate_test_sequences.
  destruct chars as [| c0 rest]; [done |]. cbn [lookup list_lookup].
  destruct (last (c0 :: rest)) as [clast |] eqn:Hl;
    [| by apply last_None in Hl]. cbv zeta.
  unfold bind at 1.
  destruct (random_string_returns env (c0 :: rest) 20 w Hrange Hne) as (rs & w1 & ->).
  unfold bind at 1.
  destruct (random_string_returns env (c0 :: rest) 100 w1 Hrange Hne) as (rm & w2 & ->).
  unfold bind at 1.
  destruct (random_string_returns env (c0 :: rest) 500 w2 Hrange Hne) as (rl & w3 & ->).
  unfold bind at 1.
  destruct (random_string_returns env (c0 :: rest) (100 * 100) w3 Hrange Hne)
    as (rv & w4 & ->).
  unfold bind, record_generated, ret. cbn [fst]. by eexists.
Qed.

Lemma model_env_in_range : InRange model_env.
Proof. intros n r Hn. cbn. apply Nat.mod_upper_bound. lia. Qed.

Lemma model_generates :
  exists seqs,
    fst (generate_test_sequences (env := model_env) ["a"; "b"] model_world) = Returned seqs.
Proof. by apply generate_test_sequences_returns; [apply model_env_in_range |]. Qed.

(** ** The sequences of [generate_test_sequences] *)

(** Every sequence [generate_test_sequences] returns is put together from
    entries of the alphabet it was given. *)
Theorem generate_test_sequences_over_alphabet (env : Env) (chars : list string)
    (w : World env) (seqs : list (string * string)) :
  fst (generate_test_sequences chars w) = Returned seqs ->
  Forall (fun e => made_of chars (snd e)) seqs.
Proof.
  destruct (generate_test_sequences chars w) as [o w'] eqn:Hrun. cbn [fst]. intros ->.
  apply generate_test_sequences_run in Hrun
    as (c0 & clast & w1 & w2 & w3 & w4 & rs & rm & rl & rv
        & H0 & Hl & H1 & H2 & H3 & H4 & -> & _).
  assert (Hc0 : c0 ∈ chars) by (by eapply list_elem_of_lookup_2).
  assert (Hcl : clast ∈ chars) by (by apply last_elem_of).
  apply random_string_run in H1 as (Hrs & _).
  apply random_string_run in H2 as (Hrm & _).
  apply random_string_run in H3 as (Hrl & _).
  apply random_string_run in H4 as (Hrv & _).
  assert (Hn : 0 < length chars) by (destruct chars; [done | cbn; lia]).
  unfold sequences_of. cbv zeta.
  destruct (Nat.leb_spec 2 (length chars)) as [Hn2 | Hn2];
    destruct (Nat.leb_spec 3 (length chars)) as [Hn3 | Hn3]; try lia.
  all: try (assert (Hc1 : item chars 1 ∈ chars) by (apply item_elem_of; lia)).
  all: try (assert (Hc2 : item chars 2 ∈ chars) by (apply item_elem_of; lia)).
  all: cbn [app].
  all: repeat (apply Forall_cons_2; [cbn [snd]; try assumption; made_of_parts |]).
  all: apply Forall_nil_2.
Qed.

Lemma generate_test_sequences_over_alphabet_witness :
  exists seqs,
    fst (generate_test_sequences (env := model_env) ["a"; "b"] model_world) = Returned seqs
    /\ Forall (fun e => made_of ["a"; "b"] (snd e)) seqs.
Proof.
  destruct model_generates as [seqs Hrun]. exists seqs. split; [exact Hrun |].
  exact (generate_test_sequences_over_alphabet model_env ["a"; "b"] model_world seqs Hrun).
Defined.

(** The names of the sequences [generate_test_sequences] returns are fixed
    by the size of the alphabet and pairwise distinct, so that the list
    holds what the dict of the source holds: 11 sequences for one symbol,
    19 for two, 21 for three or more. *)
Theorem generate_test_sequences_names (env : Env) (chars : list string)
    (w : World env) (seqs : list (string * string)) :
  fst (generate_test_sequences chars w) = Returned seqs ->
  map fst seqs = sequence_names (length chars)
  /\ NoDup (map fst seqs)
  /\ length seqs
     = (if 3 <=? length chars then 21 else if 2 <=? length chars then 19 else 11).
Proof.
  destruct (generate_test_sequences chars w) as [o w'] eqn:Hrun. cbn [fst]. intros ->.
  apply generate_test_sequences_run in Hrun
    as (c0 & clast & w1 & w2 & w3 & w4 & rs & rm & rl & rv & _ & _ & _ & _ & _ & _ & -> & _).
  unfold sequences_of, sequence_names. cbv zeta.
  destruct (Nat.leb_spec 2 (length chars)) as [Hn2 | Hn2];
    destruct (Nat.leb_spec 3 (length chars)) as [Hn3 | Hn3]; try lia.
  all: cbn [app map fst length].
  all: split; [reflexivity | split; [| reflexivity]].
  all: apply (bool_decide_unpack _); vm_compute; reflexivity.
Qed.

Lemma generate_test_sequences_names_witness :
  exists seqs,
    fst (generate_test_sequences (env := model_env) ["a"; "b"] model_world) = Returned seqs
    /\ map fst seqs = sequence_names 2 /\ NoDup (map fst seqs) /\ length seqs = 19.
Proof.
  destruct model_generates as [seqs Hrun]. exists seqs. split; [exact Hrun |].
  exact (generate_test_sequences_names model_env ["a"; "b"] model_world seqs Hrun).
Defined.

(** [generate_test_sequences] fails on an empty alphabet, with
    [IndexError] from [chars[0]] and before anything is drawn; on any other
    alphabet it returns. *)
Theorem generate_test_sequences_empty_alphabet (env : Env) (chars : list string)
    (w : World env) :
  InRange env ->
  (chars = [] -> generate_test_sequences chars w = (Raised IndexError, w))
  /\ (chars <> [] -> exists seqs, fst (generate_test_sequences chars w) = Returned seqs).
Proof.
  intros Hrange. split; [by intros -> |]. intros Hne.
  by apply generate_test_sequences_returns.
Qed.

Lemma generate_test_sequences_empty_alphabet_witness :
  InRange model_env
  /\ generate_test_sequences (env := model_env) [] model_world
     = (Raised IndexError, model_world)
  /\ exists seqs,
       fst (generate_test_sequences (env := model_env) ["a"; "b"] model_world)
       = Returned seqs.
Proof.
  split; [exact model_env_in_range |]. split.
  - by apply (generate_test_sequences_empty_alphabet model_env [] model_world
                model_env_in_range).
  - by apply (generate_test_sequences_empty_alphabet model_env ["a"; "b"] model_world
                model_env_in_range).
Defined.

Lemma length_join_items (chars : list string) (indices : list nat) :
  Forall (fun c => String.length c = 1) chars -> 0 < length chars ->
  String.length (join (map (fun i => item chars (i mod length chars)) indices))
  = length indices.
Proof.
  intros Hone Hn. induction indices as [| i indices IH]; [reflexivity |].
  cbn [map join fold_right length].
  fold (join (map (fun i => item chars (i mod length chars)) indices)).
  rewrite length_append, IH. rewrite Forall_forall in Hone.
  rewrite (Hone (item chars (i mod length chars))); [reflexivity |].
  apply item_elem_of, Nat.mod_upper_bound. lia.
Qed.

(** Over an alphabet of single characters the sizes of the sequences are
    fixed, from 1 to 10000 symbols, and exactly one sequence is empty, the
    one named "empty". *)
Theorem generate_test_sequences_sizes (env : Env) (chars : list string)
    (w : World env) (seqs : list (string * string)) :
  Forall (fun c => String.length c = 1) chars ->
  fst (generate_test_sequences chars w) = Returned seqs ->
  map (fun e => String.length (snd e)) seqs = sequence_sizes (length chars)
  /\ List.filter (fun e => String.eqb (snd e) "") seqs = [("empty", ""%string)].
Proof.
  intros Hone.
  destruct (generate_test_sequences chars w) as [o w'] eqn:Hrun. cbn [fst]. intros ->.
  apply generate_test_sequences_run in Hrun
    as (c0 & clast & w1 & w2 & w3 & w4 & rs & rm & rl & rv
        & H0 & Hl & H1 & H2 & H3 & H4 & -> & _).
  assert (Hn : 0 < length chars) by (destruct chars; [done | cbn; lia]).
  assert (Hc0 : String.length c0 = 1).
  { rewrite Forall_forall in Hone. apply Hone. by eapply list_elem_of_lookup_2. }
  assert (Hcl : String.length clast = 1).
  { rewrite Forall_forall in Hone. by apply Hone, last_elem_of. }
  apply random_string_run in H1 as (_ & Hrs & _). specialize (Hrs Hone).
  apply random_string_run in H2 as (_ & Hrm & _). specialize (Hrm Hone).
  apply random_string_run in H3 as (_ & Hrl & _). specialize (Hrl Hone).
  apply random_string_run in H4 as (_ & Hrv & _). specialize (Hrv Hone).
  assert (Hsizes : map (fun e => String.length (snd e))
                     (sequences_of chars c0 clast rs rm rl rv)
                   = sequence_sizes (length chars)).
  { unfold sequences_of, sequence_sizes. cbv zeta.
    destruct (Nat.leb_spec 2 (length chars)) as [Hn2 | Hn2];
      destruct (Nat.leb_spec 3 (length chars)) as [Hn3 | Hn3]; try lia.
    all: try (assert (Hc1 : String.length (item chars 1) = 1)
                by (rewrite Forall_forall in Hone; apply Hone, item_elem_of; lia)).
    all: try (assert (Hc2 : String.length (item chars 2) = 1)
                by (rewrite Forall_forall in Hone; apply Hone, item_elem_of; lia)).
    all: cbn [app map snd].
    all: rewrite ?length_join_items by assumption.
    all: rewrite ?length_str_mul, ?length_append, ?length_str_mul.
    all: rewrite ?Hc0, ?Hcl, ?Hrs, ?Hrm, ?Hrl, ?Hrv, ?Hc1, ?Hc2.
    all: reflexivity. }
  split; [exact Hsizes |].
  assert (Hall : forall l : list (string * string),
            Forall (fun n => 0 < n) (map (fun e => String.length (snd e)) l) ->
            List.filter (fun e => String.eqb (snd e) "") l = []).
  { induction l as [| [name data] l IH]; [reflexivity |].
    cbn [map snd List.filter]. intros Hpos. apply Forall_cons in Hpos as [Hd Hpos].
    destruct data; [cbn in Hd; lia |]. cbn [String.eqb]. by apply IH. }
  unfold sequences_of, sequence_sizes in *. cbv zeta in *. cbn [app] in *.
  match goal with
  | |- List.filter _ (_ :: ?t) = _ => remember t as rest eqn:Hrest in *
  end.
  clear Hrest.
  cbn [List.filter snd String.eqb]. f_equal. apply Hall.
  destruct (2 <=? length chars), (3 <=? length chars); cbn [app map snd] in Hsizes.
  all: apply (f_equal (fun l => match l with [] => [] | _ :: t => t end)) in Hsizes;
    rewrite Hsizes.
  all: repeat (apply Forall_cons_2; [lia |]); apply Forall_nil_2.
Qed.

Lemma generate_test_sequences_sizes_witness :
  exists seqs,
    fst (generate_test_sequences (env := model_env) ["a"; "b"] model_world) = Returned seqs
    /\ map (fun e => String.length (snd e)) seqs = sequence_sizes 2
    /\ List.filter (fun e => String.eqb (snd e) "") seqs = [("empty", "")].
Proof.
  destruct model_generates as [seqs Hrun]. exists seqs. split; [exact Hrun |].
  apply (generate_test_sequences_sizes model_env ["a"; "b"] model_world seqs);
    [by repeat constructor | exact Hrun].
Defined.

(** ** The test cases of test_lru.py *)

Lemma made_of_character (chars : list string) (c : ascii) (s : string) :
  String c "" ∈ chars -> made_of chars s -> made_of chars (String c s).
Proof.
  intros Hc Hs. change (String c s) with (String c "" +:+ s).
  apply made_of_append; [by apply made_of_entry | exact Hs].
Qed.

(** Every test case of test_lru.py is a string of a and b, of a fixed
    size; the names are pairwise distinct, so that the list holds what the
    dict of the source holds. *)
Theorem generate_test_sequences_lru_cases (env : Env) (w : World env)
    (test_cases : list (string * string)) :
  fst (generate_test_sequences_lru w) = Returned test_cases ->
  map (fun e => (fst e, String.length (snd e))) test_cases = lru_cases
  /\ NoDup (map fst test_cases)
  /\ Forall (fun e => made_of ["a"; "b"] (snd e)) test_cases.
Proof.
  destruct (generate_test_sequences_lru w) as [o w'] eqn:Hrun. cbn [fst]. intros ->.
  unfold generate_test_sequences_lru in Hrun.
  assert (Hone : Forall (fun c => String.length c = 1) ab_chars) by (by repeat constructor).
  unfold bind at 1 in Hrun.
  destruct (random_string ab_chars 20 w) as [[s1 | e] w1] eqn:H1; [| discriminate].
  unfold bind at 1 in Hrun.
  destruct (random_string ab_chars 100 w1) as [[s2 | e] w2] eqn:H2; [| discriminate].
  unfold bind at 1 in Hrun.
  destruct (random_string ab_chars 500 w2) as [[s3 | e] w3] eqn:H3; [| discriminate].
  unfold bind at 1 in Hrun.
  destruct (random_string ab_chars 1000 w3) as [[s4 | e] w4] eqn:H4; [| discriminate].
  unfold bind at 1 in Hrun.
  destruct (random_string ab_chars 2000 w4) as [[s5 | e] w5] eqn:H5; [| discriminate].
  apply random_string_run in H1 as (M1 & L1 & _). specialize (L1 Hone).
  apply random_string_run in H2 as (M2 & L2 & _). specialize (L2 Hone).
  apply random_string_run in H3 as (M3 & L3 & _). specialize (L3 Hone).
  apply random_string_run in H4 as (M4 & L4 & _). specialize (L4 Hone).
  apply random_string_run in H5 as (M5 & L5 & _). specialize (L5 Hone).
  cbv zeta in Hrun. unfold bind, record_generated, ret in Hrun.
  apply pair_equal_spec in Hrun as [Hcases _].
  apply (f_equal (fun o => match o with Returned l => l | Raised _ => [] end)) in Hcases.
  subst test_cases. split; [| split].
  - cbn [map fst snd]. unfold lru_cases.
    rewrite ?length_append, ?length_str_mul, L1, L2, L3, L4, L5. reflexivity.
  - cbn [map fst]. apply (bool_decide_unpack _). vm_compute. reflexivity.
  - assert (Ha : String "a" "" ∈ ["a"; "b"]) by (repeat first [apply list_elem_of_here | apply list_elem_of_further]).
    assert (Hb : String "b" "" ∈ ["a"; "b"]) by (repeat first [apply list_elem_of_here | apply list_elem_of_further]).
    repeat (apply Forall_cons_2;
            [cbn [snd]; try assumption;
             repeat first
               [ apply made_of_empty
               | apply made_of_str_mul
               | apply made_of_append
               | apply made_of_character; [assumption |] ]
            |]).
    apply Forall_nil_2.
Qed.

Lemma generate_test_sequences_lru_returns (env : Env) (w : World env) :
  InRange env -> exists test_cases, fst (generate_test_sequences_lru w) = Returned test_cases.
Proof.
  intros Hrange. unfold generate_test_sequences_lru.
  assert (Hne : ab_chars <> []) by discriminate.
  unfold bind at 1.
  destruct (random_string_returns env ab_chars 20 w Hrange Hne) as (s1 & w1 & ->).
  unfold bind at 1.
  destruct (random_string_returns env ab_chars 100 w1 Hrange Hne) as (s2 & w2 & ->).
  unfold bind at 1.
  destruct (random_string_returns env ab_chars 500 w2 Hrange Hne) as (s3 & w3 & ->).
  unfold bind at 1.
  destruct (random_string_returns env ab_chars 1000 w3 Hrange Hne) as (s4 & w4 & ->).
  unfold bind at 1.
  destruct (random_string_returns env ab_chars 2000 w4 Hrange Hne) as (s5 & w5 & ->).
  unfold bind, record_generated, ret. cbn [fst]. by eexists.
Qed.

Lemma generate_test_sequences_lru_cases_witness :
  exists test_cases,
    fst (generate_test_sequences_lru model_world) = Returned test_cases
    /\ map (fun e => (fst e, String.length (snd e))) test_cases = lru_cases
    /\ NoDup (map fst test_cases)
    /\ Forall (fun e => made_of ["a"; "b"] (snd e)) test_cases.
Proof.
  destruct (generate_test_sequences_lru_returns model_env model_world model_env_in_range)
    as [test_cases Hrun].
  exists test_cases. split; [exact Hrun |].
  exact (generate_test_sequences_lru_cases model_env model_world test_cases Hrun).
Defined.


(** ** Files the round-trip drivers leave alone *)

Section TouchesRules.
Variable env : Env.
Variable paths : list string.

Lemma touches_ret {A : Type} (a : A) : Touches (env := env) paths (ret a).
Proof. by intros w k _. Qed.

Lemma touches_raise {A : Type} (e : PyExn) : Touches (env := env) (A := A) paths (raise e).
Proof. by intros w k _. Qed.

Lemma touches_lift {A : Type} (o : Outcome A) : Touches (env := env) paths (lift o).
Proof. by intros w k _. Qed.

Lemma touches_bind {A B : Type} (m : Py env A) (k : A -> Py env B) :
  Touches paths m -> (forall a, Touches paths (k a)) -> Touches paths (bind m k).
Proof.
  intros Hm Hk w p Hp. unfold bind. specialize (Hm w p Hp).
  destruct (m w) as [[a | e] w1]; cbn [snd] in *; [| exact Hm].
  by rewrite (Hk a w1 p Hp).
Qed.

Lemma touches_try_finally {A : Type} (body : Py env A) (handler : Py env unit) :
  Touches paths body -> Touches paths handler -> Touches paths (try_finally body handler).
Proof.
  intros Hb Hh w p Hp. unfold try_finally. specialize (Hb w p Hp).
  destruct (body w) as [r w1]. cbn [snd] in Hb. specialize (Hh w1 p Hp).
  destruct (handler w1) as [[[] | e] w2]; cbn [snd] in *; congruence.
Qed.

Lemma touches_try_except {A : Type} (body : Py env A) (handler : PyExn -> Py env A) :
  Touches paths body -> (forall e, Touches paths (handler e)) ->
  Touches paths (try_except body handler).
Proof.
  intros Hb Hh w p Hp. unfold try_except. specialize (Hb w p Hp).
  destruct (body w) as [[a | e] w1]; cbn [snd] in *; [exact Hb |].
  destruct e; try exact Hb;
    match goal with |- context [handler ?e w1] => rewrite (Hh e w1 p Hp) end;
    exact Hb.
Qed.

Lemma touches_log (lvl : Level) (msg : string) : Touches (env := env) paths (log lvl msg).
Proof. by intros w k _. Qed.

Lemma touches_read_file (path : string) : Touches (env := env) paths (read_file path).
Proof. intros w k _. unfold read_file. by destruct (files w !! path). Qed.

Lemma touches_path_exists (path : string) : Touches (env := env) paths (path_exists path).
Proof. by intros w k _. Qed.

Lemma touches_subprocess_run (argv : list string) (stdin_data : string) :
  Touches (env := env) paths (subprocess_run argv stdin_data).
Proof. by intros w k _. Qed.

Lemma touches_write_file (path content : string) :
  path ∈ paths -> Touches (env := env) paths (write_file path content).
Proof.
  intros Hin w k Hk. cbn. apply lookup_insert_ne. intros ->. contradiction.
Qed.

Lemma touches_os_remove (path : string) :
  path ∈ paths -> Touches (env := env) paths (os_remove path).
Proof.
  intros Hin w k Hk. unfold os_remove. destruct (files w !! path); [| reflexivity].
  cbn. apply lookup_delete_ne. intros ->. contradiction.
Qed.
End TouchesRules.

(** Membership in a list that is written out. *)
Ltac listed := solve [repeat first [apply list_elem_of_here | apply list_elem_of_further]].

(** Proves [Touches] of a block built from blocks that touch [paths] only. *)
Ltac touches :=
  repeat first
    [ apply touches_ret | apply touches_raise | apply touches_lift
    | apply touches_log | apply touches_read_file | apply touches_path_exists
    | apply touches_subprocess_run
    | apply touches_write_file; listed
    | apply touches_os_remove; listed
    | match goal with H : _ |- _ => apply H; try listed end
    | apply touches_bind; [| intros ?]
    | apply touches_try_finally
    | apply touches_try_except; [| intros ?]
    | match goal with
      | |- Touches _ (if ?b then _ else _) => destruct b
      | |- Touches _ (match ?x with _ => _ end) => destruct x
      | |- Touches _ (let '(_, _) := ?x in _) => destruct x
      end ].

Section TouchesDrivers.
Variable env : Env.
Variable paths : list string.

Lemma touches_getsize (path : string) : Touches (env := env) paths (getsize path).
Proof. unfold getsize. touches. Qed.

Lemma touches_run_redirected (argv : list string) (i o : string) :
  o ∈ paths -> Touches (env := env) paths (run_redirected argv i o).
Proof.
  intros Ho. unfold run_redirected.
  pose proof (touches_write_file env paths o) as Hw.
  apply touches_bind; [apply touches_read_file | intros ?].
  apply touches_bind; [by apply Hw | intros ?].
  apply touches_bind; [apply touches_subprocess_run | intros ?].
  apply touches_bind; [by apply Hw | intros ?]. apply touches_ret.
Qed.
End TouchesDrivers.

Lemma fold_delete_lookup_ne (paths : list string) (fs : gmap string string) (k : string) :
  k ∉ paths -> fold_left (fun fs p => delete p fs) paths fs !! k = fs !! k.
Proof.
  revert fs. induction paths as [| p paths IH]; intros fs Hk; [reflexivity |].
  apply not_elem_of_cons in Hk as [Hkp Hk]. cbn [fold_left].
  rewrite (IH _ Hk). by apply lookup_delete_ne.
Qed.

(** After [try: body finally: cleanup(paths)], for a body that touches
    [paths] only, the files are those from before without [paths]. *)
Lemma try_finally_cleanup_frame (env : Env) (A : Type) (body : Py env A)
    (paths : list string) (w : World env) :
  Touches paths body ->
  files (snd (try_finally body (cleanup paths) w))
  = fold_left (fun fs p => delete p fs) paths (files w).
Proof.
  intros Hbody. apply map_eq. intros k.
  destruct (decide (k ∈ paths)) as [Hk | Hk].
  - rewrite (try_finally_cleanup_files env A body paths w k Hk).
    by rewrite fold_delete_lookup.
  - rewrite try_finally_cleanup_run. cbn [snd with_files files].
    rewrite !fold_delete_lookup_ne by exact Hk. by apply Hbody.
Qed.

(** [compress_expand_test] and [compress_test] leave on disk what was
    there, without the files that carry the names of their temporary files
    (the name [tempfile] picks, and that name with ".lzw" and ".out"
    appended): any other file is untouched. *)
Theorem compress_expand_test_restores_files (env : Env)
    (input_data alphabet_path : string) (minW maxW : Z) (policy test_name : string)
    (w : World env) :
  let input_file := mktemp env ".txt" (files w) in
  let after_cet :=
    files (snd (compress_expand_test input_data alphabet_path minW maxW policy
                  test_name w)) in
  let after_compress_test :=
    files (snd (compress_test input_data alphabet_path minW maxW policy w)) in
  after_cet
  = delete (input_file +:+ ".out") (delete (input_file +:+ ".lzw")
      (delete input_file (files w)))
  /\ after_compress_test = delete (input_file +:+ ".lzw") (delete input_file (files w))
  /\ (files w !! input_file = None -> files w !! (input_file +:+ ".lzw") = None ->
      (files w !! (input_file +:+ ".out") = None -> after_cet = files w)
      /\ after_compress_test = files w).
Proof.
  intros input_file. cbv zeta.
  assert (H1 : files (snd (compress_expand_test input_data alphabet_path minW maxW policy
                             test_name w))
               = delete (input_file +:+ ".out") (delete (input_file +:+ ".lzw")
                   (delete input_file (files w)))).
  { unfold compress_expand_test. unfold bind at 1. unfold named_temporary_file.
    fold input_file. rewrite try_finally_cleanup_frame.
    - cbn [fold_left files]. by rewrite delete_insert_eq.
    - pose proof (touches_getsize env) as Hg.
      pose proof (touches_run_redirected env) as Hr.
      unfold log_fail. touches. }
  assert (H2 : files (snd (compress_test input_data alphabet_path minW maxW policy w))
               = delete (input_file +:+ ".lzw") (delete input_file (files w))).
  { unfold compress_test. unfold bind at 1. unfold named_temporary_file.
    fold input_file. rewrite try_finally_cleanup_frame.
    - cbn [fold_left files]. by rewrite delete_insert_eq.
    - pose proof (touches_getsize env) as Hg.
      pose proof (touches_run_redirected env) as Hr.
      unfold print. touches. }
  split; [exact H1 | split; [exact H2 |]].
  intros Hi Hc. split.
  - intros Hd. rewrite H1, (delete_id (files w) _ Hi), (delete_id (files w) _ Hc).
    by apply delete_id.
  - rewrite H2, (delete_id (files w) _ Hi). by apply delete_id.
Qed.

(** ** Exceptions of the round-trip drivers *)



(** [compress_expand_test] and [compress_test] catch nothing: an exception
    of the compressor's [subprocess.run] comes out of them (their temporary
    files are removed all the same), and nothing is logged. *)
Theorem compress_expand_test_propagates (env : Env) (input_data alphabet_path : string)
    (minW maxW : Z) (policy test_name : string) (w : World env) (e : PyExn) :
  let input_file := mktemp env ".txt" (files w) in
  let cet := compress_expand_test input_data alphabet_path minW maxW policy test_name w in
  let ct := compress_test input_data alphabet_path minW maxW policy w in
  spawn env
    ["java"; "LZWTool"; "--mode"; "compress"; "--minW"; str minW;
     "--maxW"; str maxW; "--policy"; policy; "--alphabet"; alphabet_path]
    input_data (<[input_file +:+ ".lzw" := ""]> (<[input_file := input_data]> (files w)))
  = Raised e ->
  (fst cet = Raised e /\ console (snd cet) = console w)
  /\ (fst ct = Raised e /\ console (snd ct) = console w).
Proof.
  intros input_file cet ct Hspawn. split.
  - subst cet.
    destruct (compress_expand_test input_data alphabet_path minW maxW policy test_name w)
      as [o w'] eqn:Hrun. cbn [fst snd].
    unfold compress_expand_test in Hrun. unfold bind at 1 in Hrun.
    unfold named_temporary_file in Hrun.
    rewrite try_finally_cleanup_run in Hrun. fold input_file in Hrun.
    match type of Hrun with
    | context [fst (?b ?v)] => destruct (b v) as [o1 w1] eqn:Hb
    end.
    unfold bind at 1 in Hb.
    rewrite (run_redirected_run env _ _ _ _ input_data) in Hb
      by (cbn [files]; apply lookup_insert_eq).
    cbn [files] in Hb. rewrite Hspawn in Hb.
    injection Hb as <- <-. by injection Hrun as <- <-.
  - subst ct.
    destruct (compress_test input_data alphabet_path minW maxW policy w)
      as [o w'] eqn:Hrun. cbn [fst snd].
    unfold compress_test in Hrun. unfold bind at 1 in Hrun.
    unfold named_temporary_file in Hrun.
    rewrite try_finally_cleanup_run in Hrun. fold input_file in Hrun.
    match type of Hrun with
    | context [fst (?b ?v)] => destruct (b v) as [o1 w1] eqn:Hb
    end.
    unfold bind at 1 in Hb.
    rewrite (run_redirected_run env _ _ _ _ input_data) in Hb
      by (cbn [files]; apply lookup_insert_eq).
    cbn [files] in Hb. rewrite Hspawn in Hb.
    injection Hb as <- <-. by injection Hrun as <- <-.
Qed.

Lemma compress_expand_test_propagates_witness :
  fst (compress_expand_test (env := no_java_env) "ab" "alphabets/ab.txt" 2 4 "lru" "t"
         (Build_World no_java_env ∅ [] 0 []))
  = Raised (FileNotFoundError "java")
  /\ fst (compress_test (env := no_java_env) "ab" "alphabets/ab.txt" 2 4 "lru"
            (Build_World no_java_env ∅ [] 0 []))
     = Raised (FileNotFoundError "java").
Proof.
  destruct (compress_expand_test_propagates no_java_env "ab" "alphabets/ab.txt" 2 4 "lru"
              "t" (Build_World no_java_env ∅ [] 0 []) (FileNotFoundError "java")
              eq_refl) as [[H1 _] [H2 _]].
  split; [exact H1 | exact H2].
Defined.


(** ** What the tests log *)

Lemma failures_app (xs ys : list (Level * string)) :
  failures (xs ++ ys) = failures xs ++ failures ys.
Proof. apply List.filter_app. Qed.

Section Logs.
Context {env : Env}.
Implicit Types w : World env.

Lemma quiet_refl w w' : console w' = console w -> quiet w w'.
Proof. intros H. exists []. by rewrite app_nil_r. Qed.

Lemma quiet_trans w1 w2 w3 : quiet w1 w2 -> quiet w2 w3 -> quiet w1 w3.
Proof.
  intros (a & Ha & Hqa) (b & Hb & Hqb). exists (a ++ b). split.
  - by rewrite Hb, Ha, app_assoc.
  - by rewrite failures_app, Hqa, Hqb.
Qed.

Lemma quiet_failing w1 w2 w3 : quiet w1 w2 -> failing w2 w3 -> failing w1 w3.
Proof.
  intros (a & Ha & Hqa) (b & Hb & Hqb). exists (a ++ b). split.
  - by rewrite Hb, Ha, app_assoc.
  - by rewrite failures_app, Hqa.
Qed.

Lemma failing_quiet w1 w2 w3 : failing w1 w2 -> quiet w2 w3 -> failing w1 w3.
Proof.
  intros (a & Ha & Hqa) (b & Hb & Hqb). exists (a ++ b). split.
  - by rewrite Hb, Ha, app_assoc.
  - rewrite failures_app, Hqb, app_nil_r. exact Hqa.
Qed.

Lemma failing_failing w1 w2 w3 : failing w1 w2 -> failing w2 w3 -> failing w1 w3.
Proof.
  intros (a & Ha & Hqa) (b & Hb & Hqb). exists (a ++ b). split.
  - by rewrite Hb, Ha, app_assoc.
  - rewrite failures_app. intros H. apply app_eq_nil in H as [H _]. contradiction.
Qed.

Lemma failing_grows w1 w2 w3 : failing w1 w2 -> grows w2 w3 -> failing w1 w3.
Proof.
  intros (a & Ha & Hqa) (b & Hb). exists (a ++ b). split.
  - by rewrite Hb, Ha, app_assoc.
  - rewrite failures_app. intros H. apply app_eq_nil in H as [H _]. contradiction.
Qed.

Lemma grows_trans w1 w2 w3 : grows w1 w2 -> grows w2 w3 -> grows w1 w3.
Proof.
  intros (a & Ha) (b & Hb). exists (a ++ b). by rewrite Hb, Ha, app_assoc.
Qed.

Lemma quiet_grows w w' : quiet w w' -> grows w w'.
Proof. intros (a & Ha & _). by exists a. Qed.

Lemma failing_to_grows w w' : failing w w' -> grows w w'.
Proof. intros (a & Ha & _). by exists a. Qed.

Lemma quiet_log w (lvl : Level) (msg : string) :
  is_fail (lvl, msg) = false -> quiet w (snd (log lvl msg w)).
Proof.
  intros H. exists [(lvl, msg)]. split; [reflexivity |].
  unfold failures. cbn [List.filter]. by rewrite H.
Qed.

Lemma failing_log_fail w (msg : string) : failing w (snd (log FAIL msg w)).
Proof. exists [(FAIL, msg)]. split; [reflexivity | discriminate]. Qed.

Lemma quiet_with_files w w' (fs : gmap string string) :
  quiet w w' -> quiet w (with_files w' fs).
Proof. intros (a & Ha & Hq). by exists a. Qed.

Lemma failing_with_files w w' (fs : gmap string string) :
  failing w w' -> failing w (with_files w' fs).
Proof. intros (a & Ha & Hq). by exists a. Qed.
End Logs.

(** The body of [compress_expand_test] after the input file is written. *)
Lemma compress_expand_test_log (env : Env) (input_data alphabet_path : string)
    (minW maxW : Z) (policy test_name : string) (w : World env) :
  match compress_expand_test input_data alphabet_path minW maxW policy test_name w with
  | (Returned (true, ratio), w') => is_Some ratio /\ console w' = console w
  | (Returned (false, ratio), w') =>
      ratio = None
      /\ exists added, console w' = console w ++ added
                       /\ added <> [] /\ failures added = added
  | (Raised _, w') => console w' = console w
  end.
Proof.
  destruct (compress_expand_test input_data alphabet_path minW maxW policy test_name w)
    as [o w'] eqn:Hrun.
  unfold compress_expand_test in Hrun. unfold bind at 1 in Hrun.
  unfold named_temporary_file in Hrun.
  rewrite try_finally_cleanup_run in Hrun.
  set (input_file := mktemp env ".txt" (files w)) in *.
  match type of Hrun with
  | context [fst (?b ?v)] => destruct (b v) as [o1 w1] eqn:Hb
  end.
  cbn [fst snd] in Hrun. injection Hrun as <- <-.
  unfold bind at 1 in Hb.
  rewrite (run_redirected_run env _ _ _ _ input_data) in Hb
    by (cbn [files]; apply lookup_insert_eq).
  cbn [files with_files console rng generated] in Hb.
  destruct (spawn env _ input_data _) as [c | e];
    [| by injection Hb as <- <-].
  destruct (Z.eqb_spec (returncode c) 0) as [Hc | Hc]; cbn [negb] in Hb.
  2:{ unfold bind, log_fail, log, ret in Hb. injection Hb as <- <-.
      split; [reflexivity |]. by eexists [_]. }
  unfold bind at 1 in Hb.
  rewrite (run_redirected_run env _ _ _ _ (stdout c)) in Hb
    by (cbn [files with_files]; apply lookup_insert_eq).
  cbn [files with_files console rng generated] in Hb.
  destruct (spawn env _ (stdout c) _) as [x | e];
    [| by injection Hb as <- <-].
  destruct (Z.eqb_spec (returncode x) 0) as [Hx | Hx]; cbn [negb] in Hb.
  2:{ unfold bind, log_fail, log, ret in Hb. injection Hb as <- <-.
      split; [reflexivity |]. by eexists [_]. }
  unfold bind at 1 in Hb.
  rewrite (read_text_run env _ _ (stdout x)) in Hb
    by (cbn [files with_files]; apply lookup_insert_eq).
  destruct (decode_text (stdout x)) as [output_data | e]; [| by injection Hb as <- <-].
  destruct (String.eqb_spec input_data output_data) as [Heq | Hne].
  - unfold getsize, bind, read_file, ret, lift in Hb. cbn [files with_files] in Hb.
    rewrite lookup_insert_ne in Hb by (intros H; apply append_inj_r in H; discriminate).
    rewrite lookup_insert_eq in Hb.
    destruct (ratio_compress_expand_test_total
                (Z.of_nat (String.length (stdout c))) (len input_data)) as [q Hq].
    rewrite Hq in Hb. injection Hb as <- <-. by split; [eexists |].
  - unfold bind, log_fail, log, ret in Hb. injection Hb as <- <-.
    split; [reflexivity |]. eexists [_; _]. cbn [console].
    rewrite <- app_assoc. by cbn.
Qed.

(** ** The result of [compress_expand_test] *)

(** [compress_expand_test] returns [(True, ratio)] with a ratio and
    without logging anything, or [(False, None)] after logging [FAIL]
    lines only, one at least; when it raises it has logged nothing. *)
Theorem compress_expand_test_result (env : Env) (input_data alphabet_path : string)
    (minW maxW : Z) (policy test_name : string) (w : World env) :
  let run := compress_expand_test input_data alphabet_path minW maxW policy test_name w in
  match fst run with
  | Returned (success, ratio) =>
      if success then is_Some ratio /\ console (snd run) = console w
      else ratio = None
           /\ exists added, console (snd run) = console w ++ added
                            /\ added <> [] /\ failures added = added
  | Raised _ => console (snd run) = console w
  end.
Proof.
  cbv zeta.
  pose proof (compress_expand_test_log env input_data alphabet_path minW maxW policy
                test_name w) as H.
  destruct (compress_expand_test input_data alphabet_path minW maxW policy test_name w)
    as [[[[] r] | e] w']; exact H.
Qed.

Section Reporting.
Context {env : Env}.

Lemma reports_ret {A : Type} (passed : A -> bool) (a : A) :
  passed a = true -> Reports (env := env) passed (ret a).
Proof. intros H w. cbn. rewrite H. by apply quiet_refl. Qed.

Lemma reports_bind {A B : Type} (passed : B -> bool) (m : Py env A) (k : A -> Py env B) :
  Reports (fun _ => true) m -> (forall a, Reports passed (k a)) ->
  Reports passed (bind m k).
Proof.
  intros Hm Hk w. unfold bind. specialize (Hm w).
  destruct (m w) as [[a | e] w1]; [| exact I].
  specialize (Hk a w1). destruct (k a w1) as [[b | e] w2]; [| exact I].
  destruct (passed b); [by eapply quiet_trans | by eapply quiet_failing].
Qed.

Lemma reports_log (lvl : Level) (msg : string) :
  is_fail (lvl, msg) = false -> Reports (env := env) (fun _ => true) (log lvl msg).
Proof. intros H w. by apply quiet_log. Qed.

Lemma reports_log_fail {A : Type} (passed : A -> bool) (msg : string) (a : A) :
  passed a = false -> Reports (env := env) passed (log_fail msg ;;; ret a).
Proof. intros H w. cbn. rewrite H. apply failing_log_fail. Qed.

Lemma reports_compress_expand_test (input_data alphabet_path : string) (minW maxW : Z)
    (policy test_name : string) :
  Reports (env := env) fst
    (compress_expand_test input_data alphabet_path minW maxW policy test_name).
Proof.
  intros w.
  pose proof (compress_expand_test_log env input_data alphabet_path minW maxW policy
                test_name w) as H.
  destruct (compress_expand_test input_data alphabet_path minW maxW policy test_name w)
    as [[[[] r] | e] w']; cbn [fst]; [| | exact I].
  - apply quiet_refl, H.
  - destruct H as (_ & added & Hc & Hne & Hf). exists added. split; [exact Hc |].
    by rewrite Hf.
Qed.

Lemma rejects_ret {A : Type} (passed : A -> bool) (a : A) :
  passed a = false -> Rejects (env := env) passed (ret a).
Proof. intros H w. cbn. split; [exact H | by exists []; rewrite app_nil_r]. Qed.

Lemma rejects_log {A : Type} (passed : A -> bool) (lvl : Level) (msg : string)
    (m : Py env A) :
  Rejects passed m -> Rejects passed (log lvl msg ;;; m).
Proof.
  intros Hm w. unfold bind. cbn [log].
  match goal with |- context [m ?v] => specialize (Hm v); destruct (m v) as [[a | e] w1] end;
    [| exact I].
  destruct Hm as [Hp Hg]. split; [exact Hp |].
  eapply grows_trans; [| exact Hg]. by exists [(lvl, msg)].
Qed.

(** A test and what follows it: when the test passed the rest reports,
    when it failed the rest only logs and gives a result that counts as
    failed. *)
Lemma reports_test {A B : Type} (pa : A -> bool) (pb : B -> bool) (m : Py env A)
    (k : A -> Py env B) :
  Reports pa m ->
  (forall a, pa a = true -> Reports pb (k a)) ->
  (forall a, pa a = false -> Rejects pb (k a)) ->
  Reports pb (bind m k).
Proof.
  intros Hm Hpass Hfail w. unfold bind. specialize (Hm w).
  destruct (m w) as [[a | e] w1]; [| exact I].
  destruct (pa a) eqn:Ha.
  - specialize (Hpass a Ha w1). destruct (k a w1) as [[b | e] w2]; [| exact I].
    destruct (pb b); [by eapply quiet_trans | by eapply quiet_failing].
  - specialize (Hfail a Ha w1). destruct (k a w1) as [[b | e] w2]; [| exact I].
    destruct Hfail as [-> Hg]. by eapply failing_grows.
Qed.

Lemma reports_suite_sequences (alphabet_name alphabet_file : string) (minW maxW : Z)
    (policy : string) (sequences : list (string * string)) :
  forall policy_results,
    Reports (env := env) is_some
      (suite_sequences alphabet_name alphabet_file minW maxW policy sequences
         policy_results).
Proof.
  induction sequences as [| [seq_name seq_data] rest IH]; intros policy_results;
    cbn [suite_sequences]; [by apply reports_ret |].
  destruct (String.eqb seq_data ""); [apply IH |].
  apply (reports_test fst); [apply reports_compress_expand_test | |].
  - intros [ok ratio] Hok. cbn [fst] in Hok. subst ok.
    apply reports_bind; [by apply reports_log | intros _; apply IH].
  - intros [ok ratio] Hok. cbn [fst] in Hok. subst ok.
    by apply rejects_log, rejects_ret.
Qed.

Lemma reports_suite_policies (alphabet_name alphabet_file : string) (minW maxW : Z)
    (sequences : list (string * string)) (policies : list string) :
  forall results,
    Reports (env := env) is_some
      (suite_policies alphabet_name alphabet_file minW maxW sequences policies results).
Proof.
  induction policies as [| policy rest IH]; intros results;
    cbn [suite_policies]; [by apply reports_ret |].
  apply reports_bind; [by apply reports_log | intros _].
  intros w. unfold bind.
  pose proof (reports_suite_sequences alphabet_name alphabet_file minW maxW policy
                sequences [] w) as Hs.
  destruct (suite_sequences _ _ _ _ _ _ _ w) as [[[r |] | e] w1]; cbn [is_some] in Hs;
    [| exact Hs | exact I].
  specialize (IH (results ++ [(policy, r)]) w1).
  destruct (suite_policies _ _ _ _ _ _ _ w1) as [[b | e] w2]; [| exact I].
  destruct (is_some b); [by eapply quiet_trans | by eapply quiet_failing].
Qed.

Lemma generate_test_sequences_console (chars : list string) (w : World env) :
  console (snd (generate_test_sequences chars w)) = console w.
Proof.
  unfold generate_test_sequences.
  destruct (chars !! 0) as [c0 |]; [| reflexivity].
  destruct (last chars) as [clast |]; [| reflexivity].
  cbv zeta.
  assert (Hr : forall n (v : World env),
            console (snd (random_string chars n v)) = console v).
  { induction n as [| n IH]; intros v; [reflexivity |].
    cbn [random_string]. unfold bind at 1. unfold choice.
    destruct (randbelow env (length chars) (rng v)) as [i r].
    destruct (chars !! i); [| reflexivity]. unfold bind at 1.
    match goal with |- context [random_string chars n ?u] => specialize (IH u) end.
    destruct (random_string chars n _) as [[rest | e] v1]; exact IH. }
  unfold bind at 1. pose proof (Hr 20 w) as H1.
  destruct (random_string chars 20 w) as [[s1 | e] w1]; [| exact H1]. cbn [snd] in H1.
  unfold bind at 1. pose proof (Hr 100 w1) as H2.
  destruct (random_string chars 100 w1) as [[s2 | e] w2]; [| cbn in *; congruence].
  cbn [snd] in H2.
  unfold bind at 1. pose proof (Hr 500 w2) as H3.
  destruct (random_string chars 500 w2) as [[s3 | e] w3]; [| cbn in *; congruence].
  cbn [snd] in H3.
  unfold bind at 1. pose proof (Hr (100 * 100) w3) as H4.
  destruct (random_string chars (100 * 100) w3) as [[s4 | e] w4]; [| cbn in *; congruence].
  cbn [snd] in H4. cbn. congruence.
Qed.

Lemma reports_check_lru_lfu_differ (results : list (string * list SeqResult))
    (seq_name : string) :
  Reports (env := env) (fun _ => true) (check_lru_lfu_differ results seq_name).
Proof.
  unfold check_lru_lfu_differ.
  destruct (truthy _ && truthy _); [| by apply reports_ret].
  destruct (ratio_ne _ _); by apply reports_log.
Qed.

Lemma reports_test_alphabet_suite (alphabet_name : string) (alphabet_chars : list string)
    (alphabet_file : string) :
  Reports (env := env) id (test_alphabet_suite alphabet_name alphabet_chars alphabet_file).
Proof.
  unfold test_alphabet_suite.
  destruct (pick_bitwidths (Z.of_nat (length alphabet_chars))) as [minW maxW].
  do 4 (apply reports_bind; [by apply reports_log | intros _]).
  apply reports_bind.
  { intros w. pose proof (generate_test_sequences_console alphabet_chars w) as H.
    destruct (generate_test_sequences alphabet_chars w) as [[s | e] w1]; [| exact I].
    by apply quiet_refl. }
  intros sequences.
  apply (reports_test is_some); [apply reports_suite_policies | |].
  - intros [results |] Hr; [| discriminate].
    apply reports_bind; [by apply reports_log | intros _].
    apply reports_bind; [apply reports_check_lru_lfu_differ | intros _].
    by apply reports_ret.
  - intros [results |] Hr; [discriminate |]. by apply rejects_ret.
Qed.
End Reporting.

Section Counting.
Context {env : Env}.

Lemma rejects_bind {A B : Type} (pb : B -> bool) (m : Py env A) (k : A -> Py env B) :
  Reports (fun _ => true) m -> (forall a, Rejects pb (k a)) -> Rejects pb (bind m k).
Proof.
  intros Hm Hk w. unfold bind. specialize (Hm w).
  destruct (m w) as [[a | e] w1]; [| exact I].
  specialize (Hk a w1). destruct (k a w1) as [[b | e] w2]; [| exact I].
  destruct Hk as [Hb Hg]. split; [exact Hb |].
  eapply grows_trans; [by apply quiet_grows | exact Hg].
Qed.

Lemma reports_tally (m : Py env Z) (k : Z -> Py env bool) :
  Tally m -> Reports id (k 1%Z) -> Rejects id (k 0%Z) -> Reports id (bind m k).
Proof.
  intros Hm H1 H0 w. unfold bind. specialize (Hm w).
  destruct (m w) as [[p | e] w1]; [| exact I].
  destruct Hm as [[-> Hq] | [-> Hf]].
  - specialize (H1 w1). destruct (k 1%Z w1) as [[b | e] w2]; [| exact I].
    destruct (id b); [by eapply quiet_trans | by eapply quiet_failing].
  - specialize (H0 w1). destruct (k 0%Z w1) as [[b | e] w2]; [| exact I].
    destruct H0 as [-> Hg]. by eapply failing_grows.
Qed.

Lemma rejects_tally (m : Py env Z) (k : Z -> Py env bool) :
  Tally m -> (forall p, p = 1%Z \/ p = 0%Z -> Rejects id (k p)) -> Rejects id (bind m k).
Proof.
  intros Hm Hk w. unfold bind. specialize (Hm w).
  destruct (m w) as [[p | e] w1]; [| exact I].
  assert (Hp : p = 1%Z \/ p = 0%Z) by (destruct Hm as [[? _] | [? _]]; auto).
  specialize (Hk p Hp w1). destruct (k p w1) as [[b | e] w2]; [| exact I].
  destruct Hk as [Hb Hg]. split; [exact Hb |].
  eapply grows_trans; [| exact Hg].
  destruct Hm as [[_ H] | [_ H]]; [by apply quiet_grows | by apply failing_to_grows].
Qed.

Lemma tally_verdict (passed : bool) (pass_msg fail_msg : string) :
  Tally (env := env)
    (if passed then log_pass pass_msg ;;; ret 1%Z else log_fail fail_msg ;;; ret 0%Z).
Proof.
  intros w. destruct passed; cbn.
  - left. split; [reflexivity |]. by apply (quiet_log w PASS).
  - right. split; [reflexivity |]. apply failing_log_fail.
Qed.

Lemma tally_bind {A : Type} (m : Py env A) (k : A -> Py env Z) :
  Reports (fun _ => true) m -> (forall a, Tally (k a)) -> Tally (bind m k).
Proof.
  intros Hm Hk w. unfold bind. specialize (Hm w).
  destruct (m w) as [[a | e] w1]; [| exact I].
  specialize (Hk a w1). destruct (k a w1) as [[p | e] w2]; [| exact I].
  destruct Hk as [[-> H] | [-> H]]; [left | right]; split; try reflexivity.
  - by eapply quiet_trans.
  - by eapply quiet_failing.
Qed.

Lemma tally_try_finally (body : Py env Z) (handler : Py env unit) :
  Tally body -> (forall w, console (snd (handler w)) = console w) ->
  Tally (try_finally body handler).
Proof.
  intros Hb Hh w. unfold try_finally. specialize (Hb w).
  destruct (body w) as [r w1]. specialize (Hh w1).
  destruct (handler w1) as [[[] | e] w2]; [| exact I]. cbn [snd] in Hh.
  destruct r as [p | e]; [| exact I].
  destruct Hb as [[-> (a & Ha & Hq)] | [-> (a & Ha & Hq)]]; [left | right];
    (split; [reflexivity |]); exists a; (split; [congruence | exact Hq]).
Qed.

Lemma reports_quiet_step {A : Type} (m : Py env A) :
  (forall w, console (snd (m w)) = console w) -> Reports (fun _ => true) m.
Proof.
  intros H w. specialize (H w). destruct (m w) as [[a | e] w1]; [| exact I].
  by apply quiet_refl.
Qed.

Lemma reports_read_file (path : string) :
  Reports (env := env) (fun _ => true) (read_file path).
Proof.
  apply reports_quiet_step. intros w. unfold read_file. by destruct (files w !! path).
Qed.

Lemma reports_read_text_ignore (path : string) :
  Reports (env := env) (fun _ => true) (read_text_ignore path).
Proof.
  unfold read_text_ignore.
  apply reports_bind; [apply reports_read_file | intros content]. by apply reports_ret.
Qed.

Lemma reports_subprocess_run (argv : list string) (stdin_data : string) :
  Reports (env := env) (fun _ => true) (subprocess_run argv stdin_data).
Proof. by apply reports_quiet_step. Qed.

Lemma reports_path_exists (path : string) :
  Reports (env := env) (fun _ => true) (path_exists path).
Proof. by apply reports_quiet_step. Qed.

Lemma reports_named_temporary_file (suffix content : string) :
  Reports (env := env) (fun _ => true) (named_temporary_file suffix content).
Proof. by apply reports_quiet_step. Qed.

Lemma tally_rejection_test (title : string) (argv : list string) (input : option string)
    (accepted : CompletedProcess -> bool) (pass_msg fail_msg : string) :
  Tally (env := env) (rejection_test title argv input accepted pass_msg fail_msg).
Proof.
  unfold rejection_test.
  apply tally_bind; [by apply reports_log | intros _].
  apply tally_bind; [apply reports_subprocess_run | intros result].
  apply tally_verdict.
Qed.

Lemma reports_test_edge_cases : Reports (env := env) id test_edge_cases.
Proof.
  unfold test_edge_cases.
  assert (Hremove : forall path (w : World env),
            console (snd (os_remove path w)) = console w).
  { intros path w. unfold os_remove. by destruct (files w !! path). }
  do 3 (apply reports_bind; [by apply reports_log | intros _]).
  repeat first
    [ apply reports_tally; [apply tally_rejection_test | |]
    | apply rejects_tally; [apply tally_rejection_test | intros ? ?]
    | apply reports_bind; [by apply reports_log | intros _]
    | apply rejects_bind; [by apply reports_log | intros _]
    | apply reports_bind; [apply reports_named_temporary_file | intros ?]
    | apply rejects_bind; [apply reports_named_temporary_file | intros ?]
    | apply reports_tally;
        [apply tally_try_finally; [| by apply Hremove];
         apply tally_bind; [apply reports_read_file | intros ?];
         apply tally_bind; [apply reports_subprocess_run | intros ?];
         apply tally_verdict | |]
    | apply rejects_tally;
        [apply tally_try_finally; [| by apply Hremove];
         apply tally_bind; [apply reports_read_file | intros ?];
         apply tally_bind; [apply reports_subprocess_run | intros ?];
         apply tally_verdict | intros ? ?]
    | apply reports_bind; [apply reports_subprocess_run | intros ?]
    | apply rejects_bind; [apply reports_subprocess_run | intros ?]
    | apply reports_tally; [apply tally_verdict | |]
    | apply rejects_tally; [apply tally_verdict | intros ? ?] ].
  all: cbv zeta.
  all: try (apply reports_bind; [by apply reports_log | intros _]).
  all: try (apply rejects_bind; [by apply reports_log | intros _]).
  all: try (apply reports_ret; reflexivity).
  all: apply rejects_ret; unfold id; apply Z.eqb_neq; lia.
Qed.
End Counting.

Section ReportingMain.
Context {env : Env}.

Lemma reports_real_file_policies (filepath content : string) (policies : list string) :
  Reports (env := env) id (real_file_policies filepath content policies).
Proof.
  induction policies as [| policy rest IH]; cbn [real_file_policies];
    [by apply reports_ret |].
  apply (reports_test fst); [apply reports_compress_expand_test | |].
  - intros [ok ratio] Hok. cbn [fst] in Hok. subst ok.
    apply reports_bind; [by apply reports_log | intros _; apply IH].
  - intros [ok ratio] Hok. cbn [fst] in Hok. subst ok.
    by apply rejects_log, rejects_ret.
Qed.

Lemma reports_real_files (test_files : list (string * string)) :
  Reports (env := env) id (real_files test_files).
Proof.
  induction test_files as [| [filepath description] rest IH]; cbn [real_files];
    [by apply reports_ret |].
  apply reports_bind; [apply reports_path_exists | intros present].
  destruct present; cbn [negb].
  - apply reports_bind; [by apply reports_log | intros _].
    apply reports_bind; [apply reports_read_text_ignore | intros content].
    apply reports_bind; [by apply reports_log | intros _].
    apply (reports_test id); [apply reports_real_file_policies | |].
    + intros ok Hok. unfold id in Hok. subst ok. apply IH.
    + intros ok Hok. unfold id in Hok. subst ok. by apply rejects_ret.
  - apply reports_bind; [by apply reports_log | intros _]. apply IH.
Qed.

Lemma reports_test_real_files : Reports (env := env) id test_real_files.
Proof.
  unfold test_real_files.
  do 3 (apply reports_bind; [by apply reports_log | intros _]).
  apply reports_real_files.
Qed.

Lemma reports_test_alphabet_validation :
  Reports (env := env) not_false test_alphabet_validation.
Proof.
  unfold test_alphabet_validation. cbv zeta.
  apply reports_bind; [by apply reports_log | intros _].
  apply reports_bind; [apply reports_path_exists | intros present].
  destruct present; cbn [negb].
  - apply reports_bind; [apply reports_read_file | intros data].
    apply reports_bind; [apply reports_subprocess_run | intros result].
    destruct (negb (returncode result =? 0)%Z && _).
    + apply reports_bind; [by apply reports_log | intros _].
      by apply reports_ret.
    + intros w. unfold bind, log_fail, log, print, ret.
      destruct (negb (stderr result =? "")%string); cbn.
      * eexists [(FAIL, _); (PLAIN, _)]. by rewrite <- app_assoc.
      * by eexists [(FAIL, _)].
  - apply reports_bind; [by apply reports_log | intros _].
    by apply reports_ret.
Qed.

Lemma reports_compile_java : Reports (env := env) (fun _ => true) compile_java.
Proof.
  unfold compile_java.
  apply reports_bind; [by apply reports_log | intros _].
  apply reports_bind; [apply reports_subprocess_run | intros result].
  destruct (negb (returncode result =? 0)%Z).
  - intros w. by cbn.
  - by apply reports_log.
Qed.
End ReportingMain.

Lemma bind_returned (env : Env) (A B : Type) (m : Py env A) (k : A -> Py env B)
    (w w' : World env) (b : B) :
  bind m k w = (Returned b, w') ->
  exists a w1, m w = (Returned a, w1) /\ k a w1 = (Returned b, w').
Proof.
  unfold bind. destruct (m w) as [[a | e] w1]; [| discriminate]. intros H. by exists a, w1.
Qed.

Lemma reports_returned (env : Env) (A : Type) (passed : A -> bool) (m : Py env A)
    (w w' : World env) (a : A) :
  Reports passed m -> m w = (Returned a, w') ->
  if passed a then quiet w w' else failing w w'.
Proof. intros Hm Hrun. specialize (Hm w). by rewrite Hrun in Hm. Qed.

Lemma test_alphabet_validation_ran (env : Env) (w w' : World env) (b : bool) :
  test_alphabet_validation w = (Returned (Some b), w') ->
  is_Some (files w !! "TestFiles/frosty.jpg").
Proof.
  unfold test_alphabet_validation. cbv zeta. unfold bind at 1. cbn [log_test log].
  unfold bind at 1. unfold path_exists at 1. cbn [files].
  destruct (decide (is_Some (files w !! "TestFiles/frosty.jpg"))) as [H | H]; [done |].
  rewrite bool_decide_eq_false_2 by exact H. cbn. discriminate.
Qed.

(** What a run of [main] that returns has done. *)
Lemma main_returned (env : Env) (w w' : World env) :
  main w = (Returned tt, w') ->
  is_Some (files w !! "TestFiles/frosty.jpg")
  /\ exists added,
       console w' = console w ++ added ++ [(PLAIN, "ALL TESTS PASSED"%string)]
       /\ failures added = [].
Proof.
  unfold main. intros H.
  apply bind_returned in H as ([] & w1 & H1 & H).
  apply bind_returned in H as ([] & w2 & H2 & H).
  apply bind_returned in H as ([] & w3 & H3 & H).
  apply bind_returned in H as ([] & w4 & H4 & H).
  apply bind_returned in H as (v & w5 & H5 & H).
  apply bind_returned in H as (e & w6 & H6 & H).
  apply bind_returned in H as (s1 & w7 & H7 & H).
  apply bind_returned in H as (s2 & w8 & H8 & H).
  apply bind_returned in H as (s3 & w9 & H9 & H).
  apply bind_returned in H as (f & w10 & H10 & H).
  cbv zeta in H.
  destruct v as [[|] |], e, s1, s2, s3, f; cbn in H; try discriminate.
  injection H as <-.
  assert (Q1 : quiet w w1) by (injection H1 as <-; by apply (quiet_log w PLAIN)).
  assert (Q2 : quiet w1 w2) by (injection H2 as <-; by apply (quiet_log w1 PLAIN)).
  assert (Q3 : quiet w2 w3) by (injection H3 as <-; by apply quiet_refl).
  pose proof (reports_returned _ _ _ _ _ _ _ reports_compile_java H4) as Q4.
  pose proof (reports_returned _ _ _ _ _ _ _ reports_test_alphabet_validation H5) as Q5.
  pose proof (reports_returned _ _ _ _ _ _ _ reports_test_edge_cases H6) as Q6.
  pose proof (reports_returned _ _ _ _ _ _ _ (reports_test_alphabet_suite _ _ _) H7) as Q7.
  pose proof (reports_returned _ _ _ _ _ _ _ (reports_test_alphabet_suite _ _ _) H8) as Q8.
  pose proof (reports_returned _ _ _ _ _ _ _ (reports_test_alphabet_suite _ _ _) H9) as Q9.
  pose proof (reports_returned _ _ _ _ _ _ _ reports_test_real_files H10) as Q10.
  cbn in Q4, Q5, Q6, Q7, Q8, Q9, Q10.
  split.
  - apply test_alphabet_validation_ran in H5.
    assert (Hfiles : files w4 = files w); [| by rewrite <- Hfiles].
    injection H1 as <-. injection H2 as <-. injection H3 as <-.
    unfold compile_java, bind, log_test, log_pass, log_fail, log, subprocess_run, raise
      in H4.
    cbn [files] in H4.
    destruct (spawn env _ _ _) as [r | x]; [| discriminate].
    destruct (negb (returncode r =? 0)%Z); [discriminate |]. by injection H4 as <-.
  - assert (Q : quiet w w10)
      by (repeat (eapply quiet_trans; [eassumption |]); by apply quiet_refl).
    destruct Q as (added & Hadded & Hquiet). exists added. cbn [console].
    split; [by rewrite Hadded, app_assoc | exact Hquiet].
Qed.

(** ** What the test functions report *)

(** The test functions of comprehensive_test.py report what they return:
    [test_alphabet_suite], [test_edge_cases] and [test_real_files] return
    [True] only when they logged no [FAIL] line and [False] only after
    logging one; [test_alphabet_validation] logs a [FAIL] line exactly when
    it returns [False] (not when it skips the test and returns [None]). *)
Theorem test_functions_report_failures (env : Env) (alphabet_name : string)
    (alphabet_chars : list string) (alphabet_file : string) :
  Reports (env := env) id (test_alphabet_suite alphabet_name alphabet_chars alphabet_file)
  /\ Reports (env := env) id test_edge_cases
  /\ Reports (env := env) id test_real_files
  /\ Reports (env := env) not_false test_alphabet_validation.
Proof.
  split; [apply reports_test_alphabet_suite |].
  split; [apply reports_test_edge_cases |].
  split; [apply reports_test_real_files | apply reports_test_alphabet_validation].
Qed.

(** When [main] returns, that is without [sys.exit(1)], it has printed
    that all tests passed, and no [FAIL] line was logged before. *)
Theorem main_returns_without_failures (env : Env) (w : World env) :
  fst (main w) = Returned tt ->
  exists added,
    console (snd (main w)) = console w ++ added ++ [(PLAIN, "ALL TESTS PASSED"%string)]
    /\ failures added = [].
Proof.
  destruct (main w) as [o w'] eqn:Hrun. cbn [fst snd]. intros ->.
  by destruct (main_returned env w w' Hrun) as (_ & H).
Qed.

Lemma main_returns_without_failures_witness :
  fst (main suite_world) = Returned tt
  /\ exists added,
       console (snd (main suite_world))
       = console suite_world ++ added ++ [(PLAIN, "ALL TESTS PASSED"%string)]
       /\ failures added = [].
Proof.
  assert (H : fst (main suite_world) = Returned tt) by (vm_compute; reflexivity).
  split; [exact H |].
  exact (main_returns_without_failures echo_env suite_world H).
Defined.

(** Without the file TestFiles/frosty.jpg [main] never returns: the
    validation test is skipped, its [None] counts as a failed test, and the
    run ends in [sys.exit(1)] unless an exception ends it before. *)
Theorem main_fails_without_jpg (env : Env) (w : World env) :
  files w !! "TestFiles/frosty.jpg" = None ->
  exists e, fst (main w) = Raised e.
Proof.
  intros Hjpg. destruct (main w) as [[[] | e] w'] eqn:Hrun; [| by eexists].
  destruct (main_returned env w w' Hrun) as ([content Hc] & _). congruence.
Qed.

Lemma main_fails_without_jpg_witness :
  files model_world !! "TestFiles/frosty.jpg" = None
  /\ exists e, fst (main model_world) = Raised e.
Proof.
  split; [vm_compute; reflexivity |].
  apply (main_fails_without_jpg model_env model_world). vm_compute. reflexivity.
Defined.

(** When javac fails, [main] ends in [sys.exit(1)] right after logging the
    failure: the [FAIL] line is the last line and the only one of its kind,
    no file is written, no sequence generated and no test run. *)
Theorem main_stops_when_compilation_fails (env : Env) (w : World env)
    (result : CompletedProcess) :
  spawn env ["javac"; "LZWTool.java"; "BinaryStdIn.java"; "BinaryStdOut.java"; "TSTmod.java"]
    (sys_stdin env) (files w) = Returned result ->
  returncode result <> 0%Z ->
  fst (main w) = Raised (SystemExit 1)
  /\ files (snd (main w)) = files w
  /\ generated (snd (main w)) = generated w
  /\ exists added,
       console (snd (main w))
       = console w ++ added ++ [(FAIL, ("Compilation failed: " +:+ stderr result)%string)]
       /\ failures added = [].
Proof.
  intros Hspawn Hcode.
  destruct (main w) as [o w'] eqn:Hrun. cbn [fst snd].
  unfold main in Hrun. unfold bind at 1 in Hrun. cbn [print log] in Hrun.
  unfold bind at 1 in Hrun. cbn [print log] in Hrun.
  unfold bind at 1 in Hrun. cbn [seed] in Hrun.
  unfold bind at 1 in Hrun. unfold compile_java in Hrun.
  unfold bind at 1 in Hrun. cbn [log_test log] in Hrun.
  unfold bind at 1 in Hrun. unfold subprocess_run in Hrun. cbn [files] in Hrun.
  rewrite Hspawn in Hrun.
  apply Z.eqb_neq in Hcode. rewrite Hcode in Hrun. cbn in Hrun.
  injection Hrun as <- <-. cbn. repeat split.
  eexists [_; _; _]. split; [by rewrite <- !app_assoc | reflexivity].
Qed.

Lemma main_stops_when_compilation_fails_witness :
  fst (main (Build_World failing_env ∅ [] 0 [])) = Raised (SystemExit 1)
  /\ generated (snd (main (Build_World failing_env ∅ [] 0 []))) = [].
Proof.
  destruct (main_stops_when_compilation_fails failing_env (Build_World failing_env ∅ [] 0 [])
              {| returncode := 1; stdout := ""; stderr := "error" |} eq_refl)
    as (H1 & _ & H2 & _); [discriminate |].
  split; [exact H1 | exact H2].
Defined.

Lemma real_files_missing (env : Env) (filepath description : string)
    (rest : list (string * string)) (w : World env) :
  files w !! filepath = None ->
  real_files ((filepath, description) :: rest) w
  = real_files rest (snd (log_warn ("File not found: " +:+ filepath) w)).
Proof.
  intros Hmissing. cbn [real_files]. unfold bind at 1. unfold path_exists.
  rewrite bool_decide_eq_false_2 by (rewrite Hmissing; by intros [? ?]).
  cbn [negb]. unfold bind. reflexivity.
Qed.

(** When neither text file of [test_real_files] is on disk, the function
    returns [True] after two warnings, without running the tool. *)
Theorem test_real_files_skips_missing_files (env : Env) (w : World env) :
  files w !! "TestFiles/code.txt" = None ->
  files w !! "TestFiles/medium.txt" = None ->
  fst (test_real_files w) = Returned true
  /\ files (snd (test_real_files w)) = files w
  /\ warnings (console (snd (test_real_files w)))
     = warnings (console w)
       ++ ["File not found: TestFiles/code.txt"; "File not found: TestFiles/medium.txt"]%string.
Proof.
  intros Hcode Hmedium.
  destruct (test_real_files w) as [o w'] eqn:Hrun. cbn [fst snd].
  unfold test_real_files in Hrun.
  unfold bind at 1 in Hrun. cbn [log_test log] in Hrun.
  unfold bind at 1 in Hrun. cbn [log_test log] in Hrun.
  unfold bind at 1 in Hrun. cbn [log_test log] in Hrun.
  rewrite real_files_missing in Hrun by exact Hcode.
  rewrite real_files_missing in Hrun by exact Hmedium.
  cbn [real_files ret log_warn log snd files console] in Hrun.
  injection Hrun as <- <-. cbn [files console]. repeat split.
  unfold warnings. rewrite <- !app_assoc. rewrite List.filter_app, map_app. reflexivity.
Qed.

Lemma test_real_files_skips_missing_files_witness :
  fst (test_real_files model_world) = Returned true
  /\ warnings (console (snd (test_real_files model_world)))
     = ["File not found: TestFiles/code.txt"; "File not found: TestFiles/medium.txt"]%string.
Proof.
  destruct (test_real_files_skips_missing_files model_env model_world)
    as (H1 & _ & H2); [vm_compute; reflexivity | vm_compute; reflexivity |].
  split; [exact H1 | exact H2].
Defined.


(** ** The scripts test_lru.py and test_all_policies.py *)

Lemma run_cases_tally (env : Env) (test_cases : list (string * string)) :
  forall (passed failed passed' failed' : Z) (w : World env),
    fst (run_cases test_cases passed failed w) = Returned (passed', failed') ->
    (passed <= passed')%Z /\ (failed <= failed')%Z
    /\ (passed' + failed' = passed + failed + Z.of_nat (length test_cases))%Z.
Proof.
  induction test_cases as [| [test_name input_data] rest IH];
    intros passed failed passed' failed' w; cbn [run_cases].
  - cbn. intros [= <- <-]. lia.
  - unfold bind at 1. cbn [print log]. unfold bind at 1.
    destruct (run_test test_name input_data "lru" 9 12 _) as [[[success message] | e] w2];
      [| discriminate].
    destruct success; unfold bind at 1; cbn [print log]; intros H;
      apply IH in H; cbn [length]; lia.
Qed.

(** [run_all_tests] counts every test once: the pair its loop returns
    adds the number of test cases to the counts it started with, and
    neither count goes down. *)
Theorem run_cases_counts (env : Env) (test_cases : list (string * string))
    (passed failed passed' failed' : Z) (w : World env) :
  fst (run_cases test_cases passed failed w) = Returned (passed', failed') ->
  (passed <= passed')%Z /\ (failed <= failed')%Z
  /\ (passed' + failed' = passed + failed + Z.of_nat (length test_cases))%Z.
Proof. apply run_cases_tally. Qed.

Lemma run_cases_counts_witness :
  fst (run_cases (env := model_env) [("one", "ab"); ("two", "abc")]%string 0 0 model_world)
  = Returned (1, 1)%Z
  /\ ((0 <= 1)%Z /\ (0 <= 1)%Z /\ (1 + 1 = 0 + 0 + Z.of_nat 2)%Z).
Proof.
  assert (H : fst (run_cases (env := model_env) [("one", "ab"); ("two", "abc")]%string 0 0
                     model_world) = Returned (1, 1)%Z) by (vm_compute; reflexivity).
  split; [exact H |].
  exact (run_cases_counts model_env [("one", "ab"); ("two", "abc")]%string 0 0 1 1
           model_world H).
Defined.

Lemma generate_test_sequences_lru_length (env : Env) (w w' : World env)
    (test_cases : list (string * string)) :
  generate_test_sequences_lru w = (Returned test_cases, w') ->
  length test_cases = 22 /\ files w' = files w.
Proof.
  unfold generate_test_sequences_lru. intros H.
  assert (Hr : forall n (v v' : World env) s,
            random_string ab_chars n v = (Returned s, v') -> files v' = files v).
  { induction n as [| n IH]; intros v v' s; [by intros [= _ <-] |].
    cbn [random_string]. intros Hs.
    apply bind_returned in Hs as (c & v1 & Hc & Hs).
    apply bind_returned in Hs as (rest & v2 & Hrest & Hs).
    injection Hs as _ <-. apply IH in Hrest. rewrite Hrest.
    unfold choice in Hc. destruct (randbelow env _ _) as [i r].
    destruct (ab_chars !! i); [| discriminate]. by injection Hc as _ <-. }
  apply bind_returned in H as (s1 & w1 & H1 & H). apply Hr in H1.
  apply bind_returned in H as (s2 & w2 & H2 & H). apply Hr in H2.
  apply bind_returned in H as (s3 & w3 & H3 & H). apply Hr in H3.
  apply bind_returned in H as (s4 & w4 & H4 & H). apply Hr in H4.
  apply bind_returned in H as (s5 & w5 & H5 & H). apply Hr in H5.
  cbv zeta in H. apply bind_returned in H as ([] & w6 & H6 & H).
  injection H as <- <-. injection H6 as <-. cbn [files length].
  split; [reflexivity | congruence].
Qed.

Lemma tested_length (env : Env) (A : Type) (test : A -> Py env (bool * Message))
    (announce : A -> string) (items : list A) (w w' : World env) (results : list bool) :
  tested test announce items w results w' -> length results = length items.
Proof. induction 1; cbn [length]; congruence. Qed.

Lemma none_failed (results : list bool) :
  (Z.of_nat (length (List.filter negb results)) =? 0)%Z = forallb id results.
Proof.
  induction results as [| [] results IH]; [reflexivity | exact IH |].
  cbn [List.filter negb length forallb id andb]. apply Z.eqb_neq. lia.
Qed.

(** The loop of [run_all_tests] runs [run_test] on every case in turn and
    counts the successes and the failures. *)
Lemma run_cases_tested (env : Env) (test_cases : list (string * string)) :
  forall (passed failed passed' failed' : Z) (w w' : World env),
    run_cases test_cases passed failed w = (Returned (passed', failed'), w') ->
    exists results,
      tested (fun c => run_test (fst c) (snd c) "lru" 9 12)
        (fun c => nl +:+ "Testing: " +:+ fst c +:+ " (length: " +:+ str (len (snd c))
                  +:+ ")")
        test_cases w results w'
      /\ passed' = (passed + Z.of_nat (length (List.filter id results)))%Z
      /\ failed' = (failed + Z.of_nat (length (List.filter negb results)))%Z.
Proof.
  induction test_cases as [| [test_name input_data] rest IH];
    intros passed failed passed' failed' w w'; cbn [run_cases].
  - intros [= <- <- <-]. exists []. split; [constructor | cbn; lia].
  - intros H. apply bind_returned in H as ([] & w1 & H1 & H). injection H1 as <-.
    apply bind_returned in H as ([success message] & w2 & H2 & H).
    destruct success.
    + apply bind_returned in H as ([] & w3 & H3 & H). injection H3 as <-.
      apply IH in H as (results & Ht & -> & ->). exists (true :: results).
      split; [by eapply tested_cons; [exact H2 |] |].
      cbn [List.filter id negb length]. lia.
    + apply bind_returned in H as ([] & w3 & H3 & H). injection H3 as <-.
      apply IH in H as (results & Ht & -> & ->). exists (false :: results).
      split; [by eapply tested_cons; [exact H2 |] |].
      cbn [List.filter id negb length]. lia.
Qed.

(** When [run_all_tests] returns, it has run [run_test] on each of the 22
    generated cases, in their order, with the policy lru and the widths 9
    and 12; it has printed the numbers of the tests that passed and that
    failed, it returns whether none failed, and the alphabet file it wrote
    is removed. *)
Theorem run_all_tests_totals (env : Env) (w : World env) (success : bool) :
  fst (run_all_tests w) = Returned success ->
  exists (test_cases : list (string * string)) (results : list bool) (w1 w2 : World env),
    generate_test_sequences_lru
      (script_start "LRU Policy Test Suite for LZW Compression" w)
    = (Returned test_cases, w1)
    /\ tested (fun c => run_test (fst c) (snd c) "lru" 9 12)
         (fun c => nl +:+ "Testing: " +:+ fst c +:+ " (length: " +:+ str (len (snd c))
                   +:+ ")")
         test_cases w1 results w2
    /\ length results = 22
    /\ success = forallb id results
    /\ (PLAIN,
        "Test Results: " +:+ str (Z.of_nat (length (List.filter id results)))
        +:+ " passed, " +:+ str (Z.of_nat (length (List.filter negb results)))
        +:+ " failed out of " +:+ str 22 +:+ " total")
       ∈ console (snd (run_all_tests w))
    /\ files (snd (run_all_tests w)) = delete "alphabet_ab.txt" (files w2).
Proof.
  destruct (run_all_tests w) as [o w'] eqn:Hrun. cbn [fst snd]. intros ->.
  unfold run_all_tests in Hrun.
  apply bind_returned in Hrun as ([] & w1 & H1 & Hrun).
  apply bind_returned in Hrun as ([] & w2 & H2 & Hrun).
  apply bind_returned in Hrun as ([] & w3 & H3 & Hrun).
  apply bind_returned in Hrun as ([] & w4 & H4 & Hrun).
  apply bind_returned in Hrun as (test_cases & w5 & H5 & Hrun).
  apply bind_returned in Hrun as ([passed failed] & w6 & H6 & Hrun).
  apply bind_returned in Hrun as ([] & w7 & H7 & Hrun).
  apply bind_returned in Hrun as (present & w8 & H8 & Hrun).
  apply bind_returned in Hrun as ([] & w9 & H9 & Hrun).
  injection Hrun as <- <-.
  injection H1 as <-. injection H2 as <-. injection H3 as <-. injection H4 as <-.
  match type of H5 with
  | generate_test_sequences_lru ?s = _ =>
      replace s with (script_start "LRU Policy Test Suite for LZW Compression" w) in H5
        by (unfold script_start; f_equal; by rewrite <- !app_assoc)
  end.
  pose proof (generate_test_sequences_lru_length env _ _ _ H5) as [Hlen _].
  apply run_cases_tested in H6 as (results & Ht & Hp & Hf).
  pose proof (tested_length _ _ _ _ _ _ _ _ Ht) as Hres. rewrite Hlen in Hres.
  assert (Hsum : (Z.of_nat (length (List.filter id results))
                  + Z.of_nat (length (List.filter negb results)) = 22)%Z).
  { rewrite <- Nat2Z.inj_add.
    replace (length (List.filter id results) + length (List.filter negb results))
      with (length results); [by rewrite Hres |].
    clear. induction results as [| [] results IH]; cbn [List.filter id negb length]; lia. }
  rewrite Z.add_0_l in Hp, Hf. subst passed failed. rewrite Hsum in H7.
  injection H7 as <-. injection H8 as <- <-. cbn [files console] in *.
  assert (Hafter : console w9
                   = console w6 ++ [(PLAIN,
                       "Test Results: "
                       +:+ str (Z.of_nat (length (List.filter id results)))
                       +:+ " passed, "
                       +:+ str (Z.of_nat (length (List.filter negb results)))
                       +:+ " failed out of " +:+ str 22 +:+ " total")]
                   /\ files w9 = delete "alphabet_ab.txt" (files w6)).
  { destruct (decide (is_Some (files w6 !! "alphabet_ab.txt"))) as [Hp | Hp].
    - rewrite bool_decide_eq_true_2 in H9 by exact Hp. unfold os_remove in H9.
      cbn [files] in H9. destruct Hp as [c Hc]. rewrite Hc in H9.
      by injection H9 as <-.
    - rewrite bool_decide_eq_false_2 in H9 by exact Hp. injection H9 as <-.
      cbn [files console]. split; [reflexivity |].
      symmetry. apply delete_id. by apply eq_None_not_Some. }
  destruct Hafter as [Hc Hfs].
  exists test_cases, results, w5, w6.
  split; [exact H5 | split; [exact Ht | split; [exact Hres |]]].
  split; [by rewrite none_failed | split; [| exact Hfs]].
  rewrite Hc. apply elem_of_app. right. by left.
Qed.

Lemma print_summary_run (env : Env) (results : list (string * bool)) (w : World env) :
  test_all_policies.print_summary results w
  = (Returned tt,
     {| files := files w;
        console :=
          console w ++
          map (fun e : string * bool => (PLAIN, "  " +:+ fst e +:+ ": "
                                +:+ (if snd e then "✓ PASSED" else "✗ FAILED"))%string) results;
        rng := rng w; generated := generated w |}).
Proof.
  revert w. induction results as [| [policy success] rest IH]; intros w.
  - cbn. rewrite app_nil_r. by destruct w.
  - cbn [test_all_policies.print_summary]. cbv zeta. unfold bind. cbn [print log].
    rewrite IH. cbn [files console rng generated map fst snd].
    by rewrite <- app_assoc.
Qed.

(** One round of the loop of [main] over the policies. *)
Lemma test_policy_step (env : Env) (policy : string) (rest : list string)
    (results results' : list (string * bool)) (w w' : World env) :
  test_all_policies.test_policies (policy :: rest) results w = (Returned results', w') ->
  exists (success : bool) (message : Message) (w1 : World env),
    test_policy policy default_input (snd (print (nl +:+ "Testing policy: " +:+ policy) w))
    = (Returned (success, message), w1)
    /\ test_all_policies.test_policies rest (dict_set results policy success)
         (snd (print (if success then "  passed" else "  failed") w1))
       = (Returned results', w').
Proof.
  cbn [test_all_policies.test_policies]. intros H.
  apply bind_returned in H as ([] & w1 & H1 & H). injection H1 as <-.
  apply bind_returned in H as ([success message] & w2 & H2 & H).
  cbv zeta in H. apply bind_returned in H as ([] & w3 & H3 & H).
  exists success, message, w2. split; [exact H2 |].
  by destruct success; injection H3 as <-.
Qed.

(** When [main] of test_all_policies.py returns, it has run [test_policy]
    on freeze, reset and lru (not lfu), in this order and on the default
    input; it returns whether all three passed, after printing one summary
    line for each, and the alphabet file it wrote is removed. *)
Theorem test_all_policies_summary (env : Env) (w : World env) (success : bool) :
  fst (test_all_policies.main w) = Returned success ->
  exists (results : list bool) (w1 : World env),
    tested (fun policy => test_policy policy default_input)
      (fun policy => nl +:+ "Testing policy: " +:+ policy)
      ["freeze"; "reset"; "lru"]%string (script_start "Testing All Policies" w) results w1
    /\ length results = 3
    /\ success = forallb id results
    /\ console (snd (test_all_policies.main w))
       = console w1
         ++ [(PLAIN, nl +:+ str_mul "=" 70); (PLAIN, "Summary:"%string)]
         ++ map (fun e : string * bool => (PLAIN, "  " +:+ fst e +:+ ": "
                                  +:+ (if snd e then "✓ PASSED" else "✗ FAILED"))%string)
              (zip ["freeze"; "reset"; "lru"]%string results)
         ++ [(PLAIN, str_mul "=" 70)]
    /\ files (snd (test_all_policies.main w)) = delete "alphabet_ab.txt" (files w1).
Proof.
  destruct (test_all_policies.main w) as [o w'] eqn:Hrun. cbn [fst snd]. intros ->.
  unfold test_all_policies.main in Hrun.
  apply bind_returned in Hrun as ([] & w1 & H1 & Hrun).
  apply bind_returned in Hrun as ([] & w2 & H2 & Hrun).
  apply bind_returned in Hrun as ([] & w3 & H3 & Hrun).
  apply bind_returned in Hrun as ([] & w4 & H4 & Hrun).
  apply bind_returned in Hrun as (results & w5 & H5 & Hrun).
  apply bind_returned in Hrun as (present & w6 & H6 & Hrun).
  apply bind_returned in Hrun as ([] & w7 & H7 & Hrun).
  apply bind_returned in Hrun as ([] & w8 & H8 & Hrun).
  apply bind_returned in Hrun as ([] & w9 & H9 & Hrun).
  apply bind_returned in Hrun as ([] & w10 & H10 & Hrun).
  apply bind_returned in Hrun as ([] & w11 & H11 & Hrun).
  injection Hrun as <- <-.
  injection H1 as <-. injection H2 as <-. injection H3 as <-. injection H4 as <-.
  match type of H5 with
  | test_all_policies.test_policies _ _ ?s = _ =>
      replace s with (script_start "Testing All Policies" w) in H5
        by (unfold script_start; f_equal; by rewrite <- !app_assoc)
  end.
  apply test_policy_step in H5 as (s1 & m1 & v1 & T1 & H5).
  apply test_policy_step in H5 as (s2 & m2 & v2 & T2 & H5).
  apply test_policy_step in H5 as (s3 & m3 & v3 & T3 & H5).
  cbn in H5. injection H5 as <- <-.
  injection H6 as <- <-.
  assert (Hf7 : files w7 = delete "alphabet_ab.txt" (files v3)
                /\ console w7
                   = console v3 ++ [(PLAIN, if s3 then "  passed" else "  failed")%string]).
  { destruct (decide (is_Some (files v3 !! "alphabet_ab.txt"))) as [Hp | Hp].
    - rewrite bool_decide_eq_true_2 in H7 by exact Hp. unfold os_remove in H7.
      cbn [files] in H7. destruct Hp as [c Hc]. rewrite Hc in H7. by injection H7 as <-.
    - rewrite bool_decide_eq_false_2 in H7 by exact Hp. injection H7 as <-.
      split; [| reflexivity]. symmetry. apply delete_id. by apply eq_None_not_Some. }
  destruct Hf7 as [Hf7 Hc7].
  injection H8 as <-. injection H9 as <-.
  rewrite print_summary_run in H10. injection H10 as <-.
  injection H11 as <-. cbn [files console].
  exists [s1; s2; s3], (snd (print (if s3 then "  passed" else "  failed") v3)).
  split; [| split; [reflexivity | split; [| split; [| exact Hf7]]]].
  - eapply tested_cons; [exact T1 |]. eapply tested_cons; [exact T2 |].
    eapply tested_cons; [exact T3 |]. constructor.
  - cbn [forallb id map snd]. by rewrite andb_true_r.
  - rewrite Hc7. cbn [print log snd console]. by rewrite <- !app_assoc.
Qed.

Lemma run_all_tests_totals_witness :
  fst (run_all_tests suite_world) = Returned true
  /\ exists results : list bool, length results = 22 /\ true = forallb id results.
Proof.
  assert (H : fst (run_all_tests suite_world) = Returned true) by (vm_compute; reflexivity).
  split; [exact H |].
  destruct (run_all_tests_totals echo_env suite_world true H)
    as (test_cases & results & w1 & w2 & _ & _ & Hlen & Hall & _).
  exists results. split; [exact Hlen | exact Hall].
Defined.

Lemma test_all_policies_summary_witness :
  fst (test_all_policies.main suite_world) = Returned true
  /\ exists results : list bool, length results = 3 /\ true = forallb id results.
Proof.
  assert (H : fst (test_all_policies.main suite_world) = Returned true)
    by (vm_compute; reflexivity).
  split; [exact H |].
  destruct (test_all_policies_summary echo_env suite_world true H)
    as (results & w1 & _ & Hlen & Hall & _).
  exists results. split; [exact Hlen | exact Hall].
Defined.

(** ** The verdict of verify_policies_differ.py *)

Lemma Qeq_bool_sym (a b : Q) : Qeq_bool a b = Qeq_bool b a.
Proof. unfold Qeq_bool. apply Z.eqb_sym. Qed.

Lemma distinct_ratios_le (ratios : list Q) : distinct_ratios ratios <= length ratios.
Proof.
  induction ratios as [| q rest IH]; [done |]. cbn [distinct_ratios length].
  destruct (existsb (Qeq_bool q) rest); lia.
Qed.

Lemma coinciding_pairs_all (a b c d : Q) :
  coinciding_pairs [("freeze", a); ("reset", b); ("lru", c); ("lfu", d)]
  = (if Qeq_bool a b then [("freeze", "reset")] else [])
    ++ (if Qeq_bool a c then [("freeze", "lru")] else [])
    ++ (if Qeq_bool a d then [("freeze", "lfu")] else [])
    ++ (if Qeq_bool c b then [("lru", "reset")] else [])
    ++ (if Qeq_bool d b then [("lfu", "reset")] else [])
    ++ (if Qeq_bool d c then [("lfu", "lru")] else []).
Proof.
  unfold coinciding_pairs, policies, lookup_ratio.
  cbn [flat_map find fst snd String.eqb Ascii.eqb Bool.eqb fmap option_fmap option_map
       String.ltb String.compare Ascii.compare app].
  vm_compute String.ltb.
  destruct (Qeq_bool a b), (Qeq_bool a c), (Qeq_bool a d), (Qeq_bool c b),
    (Qeq_bool d b), (Qeq_bool d c); reflexivity.
Qed.

(** The verdict of the script on the ratios of one configuration: "ALL 4
    POLICIES PRODUCE DIFFERENT RESULTS" needs four results; with the
    results of all four policies, the other verdict lists at least one pair
    and the first verdict means that no pair coincides; with fewer results
    the other verdict is printed even when no two ratios coincide. *)
Theorem verdict_of_four_policies (results : list (string * Q)) :
  (distinct_ratios (map snd results) = 4 -> 4 <= length results)
  /\ (map fst results = policies ->
      (distinct_ratios (map snd results) <> 4 -> coinciding_pairs results <> [])
      /\ (distinct_ratios (map snd results) = 4 -> coinciding_pairs results = []))
  /\ (length results < 4 -> (distinct_ratios (map snd results) =? 4) = false)
  /\ (let three := [("freeze", 1%Q); ("reset", 2%Q); ("lru", 3%Q)] in
      (distinct_ratios (map snd three) =? 4) = false /\ coinciding_pairs three = []).
Proof.
  pose proof (distinct_ratios_le (map snd results)) as Hle. rewrite length_map in Hle.
  split; [lia |]. split; [| split; [| by vm_compute]].
  - intros Hkeys.
    destruct results as [| [k1 a] [| [k2 b] [| [k3 c] [| [k4 d] [| ? ?]]]]];
      try discriminate.
    injection Hkeys as -> -> -> ->.
    rewrite coinciding_pairs_all. cbn [map snd distinct_ratios existsb].
    rewrite (Qeq_bool_sym c b), (Qeq_bool_sym d b), (Qeq_bool_sym d c).
    destruct (Qeq_bool a b), (Qeq_bool a c), (Qeq_bool a d), (Qeq_bool b c),
      (Qeq_bool b d), (Qeq_bool c d); cbn; split; intros H; try done; try lia.
  - intros Hlen. apply Nat.eqb_neq. lia.
Qed.

(** ** The ratios of verify_policies_differ.py *)

Lemma ratio_nonzero (sz len : Z) (q : Q) :
  sz <> 0%Z -> truediv sz len = Returned q -> Qeq_bool q 0 = false.
Proof.
  intros Hsz. unfold truediv. destruct (Z.eqb_spec len 0) as [| Hlen]; [discriminate |].
  intros [= <-]. apply not_true_is_false. intros H. apply Qeq_bool_iff in H.
  apply Hsz. unfold Qeq, Qdiv, Qmult, Qinv, inject_Z in H. cbn in H.
  destruct len as [| p | p]; cbn in H; [done | lia | lia].
Qed.

Lemma policy_ratios_nonzero (env : Env) (random_data alphabet_file : string)
    (minW maxW len : Z) (policies : list string) :
  forall (results results' : list (string * Q)) (w : World env),
    Forall (fun e => Qeq_bool (snd e) 0 = false) results ->
    fst (policy_ratios random_data alphabet_file minW maxW len policies results w)
    = Returned results' ->
    Forall (fun e => Qeq_bool (snd e) 0 = false) results'.
Proof.
  induction policies as [| policy rest IH]; intros results results' w Hres;
    cbn [policy_ratios].
  - by intros [= <-].
  - unfold bind at 1.
    destruct (compress_test random_data alphabet_file minW maxW policy w)
      as [[[sz |] | e] w1]; cbn [fst]; [| by apply IH | discriminate].
    destruct (Z.eqb_spec sz 0) as [Hz | Hz]; cbn [negb]; [by apply IH |].
    unfold bind at 1. unfold lift.
    destruct (truediv sz len) as [q | e] eqn:Hq; [| discriminate].
    unfold bind at 1. cbn [print log]. apply IH.
    apply Forall_app. split; [exact Hres |].
    apply Forall_cons_2; [| apply Forall_nil_2]. cbn [snd].
    by apply (ratio_nonzero sz len).
Qed.

Lemma print_lines_returns (env : Env) (lines : list string) (w : World env) :
  exists w', print_lines lines w = (Returned tt, w').
Proof.
  revert w. induction lines as [| line rest IH]; intros w; [by eexists |].
  cbn [print_lines]. unfold bind. cbn [print log]. apply IH.
Qed.

Lemma print_differences_returns (env : Env) (freeze_ratio : Q) (others : list string)
    (results : list (string * Q)) (w : World env) :
  Qeq_bool freeze_ratio 0 = false ->
  exists w', print_differences freeze_ratio others results w = (Returned tt, w').
Proof.
  intros Hfreeze. revert w. induction others as [| policy rest IH]; intros w;
    [by eexists |].
  cbn [print_differences]. destruct (lookup_ratio results policy) as [ratio |]; [| apply IH].
  cbv zeta. unfold bind at 1. unfold lift, float_div. rewrite Hfreeze.
  unfold bind at 1. cbn [print log]. apply IH.
Qed.

Lemma lookup_ratio_nonzero (results : list (string * Q)) (p : string) (q : Q) :
  Forall (fun e => Qeq_bool (snd e) 0 = false) results ->
  lookup_ratio results p = Some q -> Qeq_bool q 0 = false.
Proof.
  intros Hres. unfold lookup_ratio.
  destruct (find _ results) as [[k r] |] eqn:Hfind; [| discriminate].
  intros [= <-]. apply find_some in Hfind as [Hin _].
  rewrite Forall_forall in Hres. apply (Hres (k, r)). by apply list_elem_of_In.
Qed.

(** The report on a configuration never divides by zero: a policy whose
    compressed size is 0 is left out of the results ([if size:]), so every
    ratio in them, that of freeze too, is nonzero, and the percentages
    against freeze are defined. *)
Theorem report_results_never_divides_by_zero (env : Env)
    (random_data alphabet_file : string) (minW maxW len : Z)
    (results : list (string * Q)) (w w1 : World env) :
  fst (policy_ratios random_data alphabet_file minW maxW len policies [] w)
  = Returned results ->
  Forall (fun e => Qeq_bool (snd e) 0 = false) results
  /\ exists w2, report_results results w1 = (Returned tt, w2).
Proof.
  intros Hrun.
  assert (Hres : Forall (fun e => Qeq_bool (snd e) 0 = false) results)
    by (by eapply policy_ratios_nonzero; [apply Forall_nil_2 | exact Hrun]).
  split; [exact Hres |].
  unfold report_results. unfold bind at 1. cbn [print log].
  unfold bind at 1.
  match goal with |- context [(if ?c then _ else _) ?v] =>
    assert (Hv : exists v', (if c
                             then print "  ALL 4 POLICIES PRODUCE DIFFERENT RESULTS"
                             else
                               print "  Some policies produce the same results:" ;;;
                               print_lines
                                 (map (fun pair => "    " +:+ fst pair +:+ " == "
                                                   +:+ snd pair)
                                    (coinciding_pairs results))) v
                            = (Returned tt, v'))
  end.
  { destruct (distinct_ratios (map snd results) =? 4); [by eexists |].
    unfold bind. cbn [print log]. apply print_lines_returns. }
  destruct Hv as [v' ->]. unfold bind at 1.
  destruct (lookup_ratio results "freeze") as [freeze_ratio |] eqn:Hfreeze.
  - unfold bind at 1. cbn [print log].
    match goal with |- context [print_differences ?f ?o ?r ?v] =>
      destruct (print_differences_returns env f o r v) as [v2 ->]
    end; [by eapply lookup_ratio_nonzero |].
    by eexists.
  - by eexists.
Qed.

Lemma report_results_never_divides_by_zero_witness :
  exists results,
    fst (policy_ratios (env := model_env) "abbabbbaab" "alphabets/ab.txt" 2 4 10 policies []
           model_world) = Returned results
    /\ Forall (fun e => Qeq_bool (snd e) 0 = false) results
    /\ exists w2, report_results results model_world = (Returned tt, w2).
Proof.
  destruct (fst (policy_ratios (env := model_env) "abbabbbaab" "alphabets/ab.txt" 2 4 10
                   policies [] model_world)) as [results | e] eqn:Hrun.
  - exists results. split; [reflexivity |].
    exact (report_results_never_divides_by_zero model_env "abbabbbaab" "alphabets/ab.txt"
             2 4 10 results model_world model_world Hrun).
  - vm_compute in Hrun. discriminate.
Defined.

(** ** The size [compress_test] returns *)





(** ** Files [test_edge_cases] leaves alone *)

Lemma touches_nothing (env : Env) (A : Type) (m : Py env A) (w : World env) :
  Touches [] m -> files (snd (m w)) = files w.
Proof. intros Hm. apply map_eq. intros k. apply Hm. apply not_elem_of_nil. Qed.

Lemma bind_keeps_files (env : Env) (A B : Type) (m : Py env A) (k : A -> Py env B)
    (fs : gmap string string) (w : World env) :
  Touches [] m -> files w = fs ->
  (forall a w1, files w1 = fs -> files (snd (k a w1)) = fs) ->
  files (snd (bind m k w)) = fs.
Proof.
  intros Hm Hw Hk. unfold bind. pose proof (touches_nothing env A m w Hm) as Hf.
  destruct (m w) as [[a | e] w1]; cbn [snd] in *; [apply Hk |]; congruence.
Qed.

Lemma touches_rejection_test (env : Env) (title : string) (argv : list string)
    (input : option string) (accepted : CompletedProcess -> bool)
    (pass_msg fail_msg : string) :
  Touches (env := env) [] (rejection_test title argv input accepted pass_msg fail_msg).
Proof. unfold rejection_test, log_test, log_pass, log_fail. touches. Qed.

Lemma test_edge_cases_files (env : Env) (fs : gmap string string) (w : World env) :
  files w = fs -> fs !! mktemp env "" fs = None ->
  files (snd (test_edge_cases w)) = fs.
Proof.
  intros Hw Hfresh. unfold test_edge_cases.
  do 3 (apply bind_keeps_files;
        [unfold log_test; apply touches_log | assumption | clear w Hw; intros _ w Hw]).
  do 6 (apply bind_keeps_files;
        [apply touches_rejection_test | assumption | clear w Hw; intros ? w Hw]).
  apply bind_keeps_files;
    [unfold log_test; apply touches_log | assumption | clear w Hw; intros _ w Hw].
  unfold bind at 1. unfold named_temporary_file. rewrite Hw.
  set (test_file := mktemp env "" fs) in *.
  unfold bind at 1. unfold try_finally.
  match goal with |- context [let '(r, w1) := ?b ?v in _] =>
    pose proof (touches_nothing env _ b v) as Hbody; destruct (b v) as [r w1]
  end.
  cbn [snd files] in Hbody.
  assert (Hf1 : files w1 = <[test_file := "abc"]> fs).
  { apply Hbody. unfold failed, log_pass, log_fail. touches. }
  unfold os_remove. rewrite Hf1, lookup_insert_eq.
  assert (Hrestored : delete test_file (<[test_file := "abc"]> fs) = fs)
    by (rewrite delete_insert_eq; by apply delete_id).
  destruct r as [p7 | e]; cbn [snd files]; [| exact Hrestored].
  apply bind_keeps_files;
    [unfold log_test; apply touches_log | exact Hrestored | intros _ w2 Hw2].
  apply bind_keeps_files; [apply touches_subprocess_run | assumption | intros result w3 Hw3].
  apply bind_keeps_files;
    [unfold log_pass, log_fail; touches | assumption | intros p8 w4 Hw4].
  cbv zeta.
  apply bind_keeps_files;
    [unfold log_test; apply touches_log | assumption | intros _ w5 Hw5].
  exact Hw5.
Qed.

(** [test_edge_cases] leaves the disk as it found it, whatever its
    outcome, when the name [tempfile] picks for its one temporary file is
    not the name of a file that exists: that file is removed and no other
    file is written. *)
Theorem test_edge_cases_restores_files (env : Env) (w : World env) :
  files w !! mktemp env "" (files w) = None ->
  files (snd (test_edge_cases w)) = files w.
Proof. intros Hfresh. by apply test_edge_cases_files. Qed.

Lemma test_edge_cases_restores_files_witness :
  files model_world !! mktemp model_env "" (files model_world) = None
  /\ files (snd (test_edge_cases model_world)) = files model_world.
Proof.
  assert (H : files model_world !! mktemp model_env "" (files model_world) = None)
    by (vm_compute; reflexivity).
  split; [exact H | exact (test_edge_cases_restores_files model_env model_world H)].
Defined.
